(** * Kids Calendar: the tag-aware matching and consistency engine

    A shallow embedding of the core of [src/App.jsx]: tag rename/delete
    propagation, candidate ranking, the assignment flow, the attention
    detector and the day grouping of events.

    Conventions of the embedding.
    - A JavaScript string is a [string]; [trim] and [toLowerCase] act on the
      ASCII range (white space 9-13 and 32, letters A-Z).
    - A time value (what [Date.prototype.getTime] returns, and what
      [Date.now()] yields) is a [Z] number of milliseconds, read in a local
      zone with a constant offset, so that a calendar day is 86400000 ms.
    - A field read through [x ?? d] in the source and never otherwise is
      stored with [d] for "absent" ([tags], [participants], [createdAt],
      [suggestNotes]); [suggestedAt] is read both as [?? 0] and as
      [?? Date.now()], so it is an [option].
    - A [useState] cell is a field of [AppState]; [setX(prev => f prev)] is
      [set_X f]; a handler is a function from state to state.
    - The host's [String.prototype.localeCompare], [Date.now()],
      [crypto.randomUUID()] and the [Date] constructor are parameters. *)

From Stdlib Require Import String Ascii List ZArith Lia Bool Permutation Sorted.
From Stdlib Require Import OrderedTypeEx.
Import ListNotations.
Local Open Scope string_scope.
Local Open Scope Z_scope.
Local Open Scope list_scope.

(** ** Host library: strings, arrays, sets, objects, maps, dates *)

Module JS.

(** White space removed by [String.prototype.trim], ASCII range. *)
Definition isWhiteSpace (c : ascii) : bool :=
  let n := nat_of_ascii c in
  Nat.eqb n 32 || (Nat.leb 9 n && Nat.leb n 13).

Fixpoint trimStart (s : string) : string :=
  match s with
  | EmptyString => EmptyString
  | String c r => if isWhiteSpace c then trimStart r else s
  end.

Fixpoint trimEnd (s : string) : string :=
  match s with
  | EmptyString => EmptyString
  | String c r =>
      match trimEnd r with
      | EmptyString => if isWhiteSpace c then EmptyString else String c EmptyString
      | r' => String c r'
      end
  end.

Definition trim (s : string) : string := trimEnd (trimStart s).

Definition lowerChar (c : ascii) : ascii :=
  let n := nat_of_ascii c in
  if Nat.leb 65 n && Nat.leb n 90 then ascii_of_nat (n + 32) else c.

Fixpoint toLowerCase (s : string) : string :=
  match s with
  | EmptyString => EmptyString
  | String c r => String (lowerChar c) (toLowerCase r)
  end.

(** [s.includes(q)]: [q] occurs in [s] as a contiguous run. *)
Fixpoint includes (s q : string) : bool :=
  if prefix q s then true
  else match s with
       | EmptyString => false
       | String _ r => includes r q
       end.

(** [arr.join(sep)] *)
Definition join (sep : string) (l : list string) : string := String.concat sep l.

(** A [Set] of strings is the list of its elements in insertion order. *)
Definition JSSet := list string.

Definition Set_has (s : JSSet) (t : string) : bool := existsb (String.eqb t) s.

Definition Set_add (s : JSSet) (t : string) : JSSet :=
  if Set_has s t then s else s ++ [t].

(** [new Set(arr)]: the elements are added from left to right. *)
Definition Set_new (arr : list string) : JSSet := fold_left Set_add arr [].

Definition Set_size (s : JSSet) : Z := Z.of_nat (length s).

(** [Array.from(set)] *)
Definition Array_from (s : JSSet) : list string := s.

(** [Array.prototype.sort(cmp)] is stable: an element moves in front of
    another only when the comparator says it is strictly smaller. *)
Section Sort.
Context {A : Type} (cmp : A -> A -> Z).

Fixpoint sort_insert (x : A) (l : list A) : list A :=
  match l with
  | [] => [x]
  | y :: r => if cmp x y <=? 0 then x :: y :: r else y :: sort_insert x r
  end.

Fixpoint Array_sort (l : list A) : list A :=
  match l with
  | [] => []
  | x :: r => sort_insert x (Array_sort r)
  end.
End Sort.

(** A plain object used as a dictionary: its own string-keyed properties in
    creation order.  A well-formed object has no two properties of the
    same name. *)
Definition JSObject (V : Type) := list (string * V).

Definition obj_wf {V} (o : JSObject V) : Prop := NoDup (map fst o).

Fixpoint obj_get {V} (o : JSObject V) (k : string) : option V :=
  match o with
  | [] => None
  | (k', v) :: r => if String.eqb k' k then Some v else obj_get r k
  end.

(** [o[k] = v] *)
Fixpoint obj_set {V} (k : string) (v : V) (o : JSObject V) : JSObject V :=
  match o with
  | [] => [(k, v)]
  | (k', v') :: r =>
      if String.eqb k' k then (k', v) :: r else (k', v') :: obj_set k v r
  end.

Definition Object_entries {V} (o : JSObject V) : list (string * V) := o.
Definition Object_values {V} (o : JSObject V) : list V := map snd o.

(** A [Map] keyed by a calendar day, in insertion order. *)
Definition JSMap (V : Type) := list (Z * V).

Fixpoint map_get {V} (m : JSMap V) (k : Z) : option V :=
  match m with
  | [] => None
  | (k', v) :: r => if k' =? k then Some v else map_get r k
  end.

Definition map_has {V} (m : JSMap V) (k : Z) : bool :=
  match map_get m k with Some _ => true | None => false end.

Fixpoint map_set {V} (k : Z) (v : V) (m : JSMap V) : JSMap V :=
  match m with
  | [] => [(k, v)]
  | (k', v') :: r =>
      if k' =? k then (k', v) :: r else (k', v') :: map_set k v r
  end.

(** Dates.  A [Date] is its time value. *)
Definition msPerDay : Z := 86400000.

(** [setHours(0, 0, 0, 0)] on a copy. *)
Definition atStartOfDay (d : Z) : Z := (d / msPerDay) * msPerDay.

(** [setDate(getDate() + n)] on a copy. *)
Definition addDays (d n : Z) : Z := d + n * msPerDay.

(** [ymd d] is the text YYYY-MM-DD of the local calendar day of [d].  That
    text names the day one-to-one, and the embedding keeps the number of
    the day in its place. *)
Definition ymd (d : Z) : Z := d / msPerDay.

End JS.

Import JS.

(** ** Data model *)

Module Kid.
Record t := mk {
  id : string;
  name : string;
  tags : list string;
  createdAt : Z
}.
End Kid.

(** [status] is 0 (pending), 1 (in progress) or 2 (confirmed). *)
Record Participation := mkParticipation {
  kidId : string;
  status : Z
}.

Module Event.
Record t := mk {
  id : string;
  title : string;
  start : Z;
  end_ : Z;
  tags : list string;
  participants : list Participation;
  suggestedAt : option Z;
  suggestNotes : JSObject string
}.

Definition with_tags (f : list string -> list string) (e : t) : t :=
  mk (id e) (title e) (start e) (end_ e) (f (tags e)) (participants e)
     (suggestedAt e) (suggestNotes e).

Definition kidIds (e : t) : list string := map kidId (participants e).
End Event.

Definition Kid_with_tags (f : list string -> list string) (k : Kid.t) : Kid.t :=
  Kid.mk (Kid.id k) (Kid.name k) (f (Kid.tags k)) (Kid.createdAt k).

(** An entry of the ranked lists: [{ kid, score }]. *)
Record Scored := mkScored {
  kid : Kid.t;
  score : Z
}.

(** ** Application state: the [useState] cells of [App] *)

Record AppState := mkState {
  tagCatalog : JSObject (list string);
  kids : list Kid.t;
  visible : JSObject bool;
  kidSearch : string;
  kidFilterTags : list string;
  newKidName : string;
  newKidTags : list string;
  editKidId : option string;
  editKidTags : list string;
  events : list Event.t;
  listFilterTags : list string;
  listSearch : string;
  evTitle : string;
  evStartDate : string;
  evEndDate : string;
  evStartTime : string;
  evEndTime : string;
  evTags : list string;
  activeEventIdForDetail : option string;
  activeEventIdForSuggest : option string;
  suggestSearch : string;
  suggestSelection : JSObject bool;
  editEventId : option string;
  editEventTags : list string
}.

Definition set_tagCatalog (f : JSObject (list string) -> JSObject (list string))
  (st : AppState) : AppState :=
  let '(mkState a b c d e f0 g h i j k l m n o p q r s t u v w x) := st in
  mkState (f a) b c d e f0 g h i j k l m n o p q r s t u v w x.

Definition set_kids (f : list Kid.t -> list Kid.t) (st : AppState) : AppState :=
  let '(mkState a b c d e f0 g h i j k l m n o p q r s t u v w x) := st in
  mkState a (f b) c d e f0 g h i j k l m n o p q r s t u v w x.

Definition set_kidFilterTags (f : list string -> list string) (st : AppState) : AppState :=
  let '(mkState a b c d e f0 g h i j k l m n o p q r s t u v w x) := st in
  mkState a b c d (f e) f0 g h i j k l m n o p q r s t u v w x.

Definition set_newKidTags (f : list string -> list string) (st : AppState) : AppState :=
  let '(mkState a b c d e f0 g h i j k l m n o p q r s t u v w x) := st in
  mkState a b c d e f0 (f g) h i j k l m n o p q r s t u v w x.

Definition set_editKidTags (f : list string -> list string) (st : AppState) : AppState :=
  let '(mkState a b c d e f0 g h i j k l m n o p q r s t u v w x) := st in
  mkState a b c d e f0 g h (f i) j k l m n o p q r s t u v w x.

Definition set_events (f : list Event.t -> list Event.t) (st : AppState) : AppState :=
  let '(mkState a b c d e f0 g h i j k l m n o p q r s t u v w x) := st in
  mkState a b c d e f0 g h i (f j) k l m n o p q r s t u v w x.

Definition set_evTitle (f : string -> string) (st : AppState) : AppState :=
  let '(mkState a b c d e f0 g h i j k l m n o p q r s t u v w x) := st in
  mkState a b c d e f0 g h i j k l (f m) n o p q r s t u v w x.

Definition set_evTags (f : list string -> list string) (st : AppState) : AppState :=
  let '(mkState a b c d e f0 g h i j k l m n o p q r s t u v w x) := st in
  mkState a b c d e f0 g h i j k l m n o p q (f r) s t u v w x.

Definition set_activeEventIdForSuggest (f : option string -> option string)
  (st : AppState) : AppState :=
  let '(mkState a b c d e f0 g h i j k l m n o p q r s t u v w x) := st in
  mkState a b c d e f0 g h i j k l m n o p q r s (f t) u v w x.

Definition set_suggestSearch (f : string -> string) (st : AppState) : AppState :=
  let '(mkState a b c d e f0 g h i j k l m n o p q r s t u v w x) := st in
  mkState a b c d e f0 g h i j k l m n o p q r s t (f u) v w x.

Definition set_suggestSelection (f : JSObject bool -> JSObject bool)
  (st : AppState) : AppState :=
  let '(mkState a b c d e f0 g h i j k l m n o p q r s t u v w x) := st in
  mkState a b c d e f0 g h i j k l m n o p q r s t u (f v) w x.

Definition set_editEventTags (f : list string -> list string) (st : AppState) : AppState :=
  let '(mkState a b c d e f0 g h i j k l m n o p q r s t u v w x) := st in
  mkState a b c d e f0 g h i j k l m n o p q r s t u v w (f x).

(** ** Tiny utilities *)

(** [(s ?? "").toString().trim()] *)
Definition clampStr (s : string) : string := trim s.

(** The loop [for (const t of a) if (bSet.has(t)) c++]. *)
Definition intersectionCount (a : list string) (bSet : JSSet) : Z :=
  fold_left (fun c t => if Set_has bSet t then c + 1 else c) a 0.

(** ** Tag rename and delete propagation *)

Definition renameTagEverywhere (oldTag newTag : string) (st : AppState) : AppState :=
  let o := clampStr oldTag in
  let n := clampStr newTag in
  if String.eqb o "" || String.eqb n "" || String.eqb o n then st
  else
    let replaceIn (arr : list string) : list string :=
      map (fun t => if String.eqb t o then n else t) arr in
    let st := set_tagCatalog (fun prev =>
      fold_left (fun next '(cat, list) =>
        let replaced := map (fun t => if String.eqb t o then n else t) list in
        (* dedupe *)
        obj_set cat (Array_from (Set_new replaced)) next)
        (Object_entries prev) []) st in
    let st := set_kids
      (map (Kid_with_tags (fun tags => Array_from (Set_new (replaceIn tags))))) st in
    let st := set_events
      (map (Event.with_tags (fun tags => Array_from (Set_new (replaceIn tags))))) st in
    let st := set_kidFilterTags (fun prev => Array_from (Set_new (replaceIn prev))) st in
    let st := set_newKidTags (fun prev => Array_from (Set_new (replaceIn prev))) st in
    let st := set_editKidTags (fun prev => Array_from (Set_new (replaceIn prev))) st in
    let st := set_evTags (fun prev => Array_from (Set_new (replaceIn prev))) st in
    set_editEventTags (fun prev => Array_from (Set_new (replaceIn prev))) st.

Definition deleteTagEverywhere (tag : string) (st : AppState) : AppState :=
  let t := clampStr tag in
  if String.eqb t "" then st
  else
    let removeFrom (arr : list string) : list string :=
      filter (fun x => negb (String.eqb x t)) arr in
    let st := set_tagCatalog (fun prev =>
      fold_left (fun next '(cat, list) =>
        obj_set cat (filter (fun x => negb (String.eqb x t)) list) next)
        (Object_entries prev) []) st in
    let st := set_kids (map (Kid_with_tags removeFrom)) st in
    let st := set_events (map (Event.with_tags removeFrom)) st in
    let st := set_kidFilterTags removeFrom st in
    let st := set_newKidTags removeFrom st in
    let st := set_editKidTags removeFrom st in
    let st := set_evTags removeFrom st in
    set_editEventTags removeFrom st.

(** ** Suggestions and assignment *)

Definition findEvent (evs : list Event.t) (eventId : option string) : option Event.t :=
  match eventId with
  | None => None
  | Some i => find (fun e => String.eqb (Event.id e) i) evs
  end.

(** [events.find((e) => e.id === activeEventIdForSuggest) ?? null] *)
Definition activeEventForSuggest (st : AppState) : option Event.t :=
  findEvent (events st) (activeEventIdForSuggest st).

Definition activeEventForDetail (st : AppState) : option Event.t :=
  findEvent (events st) (activeEventIdForDetail st).

Definition openSuggestForEvent (eventId : string) (st : AppState) : AppState :=
  let st := set_activeEventIdForSuggest (fun _ => Some eventId) st in
  let st := set_suggestSearch (fun _ => EmptyString) st in
  set_suggestSelection (fun _ => []) st.

Definition assignedKidIds (st : AppState) : JSSet :=
  match activeEventForSuggest st with
  | None => Set_new []
  | Some ev => Set_new (map kidId (Event.participants ev))
  end.

(** The text filter of the suggestion list, [q] already trimmed and
    lower-cased. *)
Definition searchHit (q : string) (k : Kid.t) : bool :=
  if String.eqb q EmptyString then true
  else
    let nameHit := includes (toLowerCase (Kid.name k)) q in
    let tagHit := existsb (fun t => includes (toLowerCase t) q) (Kid.tags k) in
    nameHit || tagHit.

Section Collation.

(** [a.localeCompare(b)]: negative, zero or positive. *)
Variable localeCompare : string -> string -> Z.

(** [b.score - a.score || a.kid.name.localeCompare(b.kid.name)] *)
Definition byScoreThenName (a b : Scored) : Z :=
  if score b - score a =? 0
  then localeCompare (Kid.name (kid a)) (Kid.name (kid b))
  else score b - score a.

Definition suggestedKids (st : AppState) : list Scored :=
  match activeEventForSuggest st with
  | None => []
  | Some ev =>
      let evTags := Set_new (Event.tags ev) in
      let q := toLowerCase (trim (suggestSearch st)) in
      let scored :=
        filter (fun x => 0 <? score x)
          (map (fun k => mkScored k (intersectionCount (Kid.tags k) evTags))
             (filter (searchHit q)
                (filter (fun k => negb (Set_has (assignedKidIds st) (Kid.id k)))
                   (kids st)))) in
      Array_sort byScoreThenName scored
  end.

(** The banner of the event detail: new kids with a match above 1. *)
Definition detailNewMatches (st : AppState) : list Scored :=
  match activeEventForDetail st with
  | None => []
  | Some ev =>
      let baseline := match Event.suggestedAt ev with Some b => b | None => 0 end in
      if baseline =? 0 then []
      else
        let evTagsSet := Set_new (Event.tags ev) in
        if Set_size evTagsSet =? 0 then []
        else
          let assigned := Set_new (map kidId (Event.participants ev)) in
          let hits :=
            fold_left (fun hits k =>
              if Set_has assigned (Kid.id k) then hits
              else
                let createdAt := Kid.createdAt k in
                if createdAt <=? baseline then hits
                else
                  let score := intersectionCount (Kid.tags k) evTagsSet in
                  if 1 <? score then hits ++ [mkScored k score] else hits)
              (kids st) [] in
          Array_sort byScoreThenName hits
  end.

End Collation.

Definition toggleSuggestPick (kidId : string) (st : AppState) : AppState :=
  set_suggestSelection (fun prev =>
    obj_set kidId (negb (match obj_get prev kidId with Some v => v | None => false end)) prev)
    st.

(** [confirmSuggested], with the reading of [Date.now()] as [now]. *)
Definition confirmSuggested (now : Z) (st : AppState) : AppState :=
  match activeEventForSuggest st with
  | None => st
  | Some ev =>
      let picked :=
        map fst (filter (fun '(_, v) => v) (Object_entries (suggestSelection st))) in
      let existing := Set_new (map kidId (Event.participants ev)) in
      let toAdd :=
        map (fun id => mkParticipation id 0)
          (filter (fun id => negb (Set_has existing id)) picked) in
      let st := set_events (map (fun e =>
        if String.eqb (Event.id e) (Event.id ev)
        then Event.mk (Event.id e) (Event.title e) (Event.start e) (Event.end_ e)
               (Event.tags e) (Event.participants e ++ toAdd)
               (Some (match Event.suggestedAt e with Some t => t | None => now end))
               (Event.suggestNotes e)
        else e)) st in
      set_activeEventIdForSuggest (fun _ => None) st
  end.

(** ** Attention badge of the calendar *)

(** One turn of the loop over the events: the value stored at [out[ev.id]]. *)
Definition attentionCount (ks : list Kid.t) (ev : Event.t) : Z :=
  let baseline := match Event.suggestedAt ev with Some b => b | None => 0 end in
  if baseline =? 0 then 0
  else
    let evTagsSet := Set_new (Event.tags ev) in
    if Set_size evTagsSet =? 0 then 0
    else
      let assigned := Set_new (map kidId (Event.participants ev)) in
      fold_left (fun c k =>
        if Set_has assigned (Kid.id k) then c
        else
          let createdAt := Kid.createdAt k in
          if createdAt <=? baseline then c
          else
            let score := intersectionCount (Kid.tags k) evTagsSet in
            if 1 <? score then c + 1 else c)
        ks 0.

Definition attentionById (st : AppState) : JSObject Z :=
  fold_left (fun out ev => obj_set (Event.id ev) (attentionCount (kids st) ev) out)
    (events st) [].

(** [attentionById?.[ev.id] ?? 0] *)
Definition attentionOf (st : AppState) (eventId : string) : Z :=
  match obj_get (attentionById st) eventId with Some c => c | None => 0 end.

(** ** Visibility and the day grouping of the month grid *)

Definition visibleKidIds (st : AppState) : JSSet :=
  fold_left (fun s k =>
    if match obj_get (visible st) (Kid.id k) with Some v => v | None => false end
    then Set_add s (Kid.id k) else s)
    (kids st) [].

Definition eventIsVisible (st : AppState) (ev : Event.t) : bool :=
  let ps := Event.participants ev in
  if Z.of_nat (length ps) =? 0 then true
  else existsb (fun p => Set_has (visibleKidIds st) (kidId p)) ps.

Definition visibleEvents (st : AppState) : list Event.t :=
  filter (eventIsVisible st) (events st).

(** [(a, b) => a.start - b.start] *)
Definition byStart (a b : Event.t) : Z := Event.start a - Event.start b.

(** [if (!m.has(key)) m.set(key, []); m.get(key).push(ev)] *)
Definition pushAt (key : Z) (ev : Event.t) (m : JSMap (list Event.t)) : JSMap (list Event.t) :=
  let m := if map_has m key then m else map_set key [] m in
  map_set key (match map_get m key with Some l => l | None => [] end ++ [ev]) m.

(** [for (let d = new Date(s); d <= e; d = addDays(d, 1))], run for at most
    [fuel] turns. *)
Fixpoint dayLoop (fuel : nat) (d e : Z) (ev : Event.t) (m : JSMap (list Event.t))
  : JSMap (list Event.t) :=
  match fuel with
  | O => m
  | S fuel' =>
      if d <=? e
      then dayLoop fuel' (addDays d 1) e ev (pushAt (ymd d) ev m)
      else m
  end.

(** The number of turns after which [d <= e] has failed. *)
Definition dayLoopTurns (s e : Z) : nat := Z.to_nat ((e - s) / msPerDay + 1).

Definition eventsByDay (evs : list Event.t) : JSMap (list Event.t) :=
  let m :=
    fold_left (fun m ev =>
      let s := atStartOfDay (Event.start ev) in
      let e := atStartOfDay (Event.end_ ev) in
      (* include all days touched by the event *)
      dayLoop (dayLoopTurns s e) s e ev m)
      evs [] in
  map (fun '(k, list) => (k, Array_sort byStart list)) m.

(** [eventsByDay.get(key) ?? []] *)
Definition bucketOf (m : JSMap (list Event.t)) (key : Z) : list Event.t :=
  match map_get m key with Some l => l | None => [] end.

(** The buckets drawn by the month grid, which is handed [visibleEvents]. *)
Definition calendarBuckets (st : AppState) : JSMap (list Event.t) :=
  eventsByDay (visibleEvents st).

(** ** List View *)

(** [kidById.get(id)]: the map is filled from left to right, so a later kid
    of the same id replaces an earlier one. *)
Definition kidById_get (ks : list Kid.t) (i : string) : option Kid.t :=
  find (fun k => String.eqb (Kid.id k) i) (rev ks).

(** [String(s ?? "").toLowerCase().trim()] *)
Definition norm (s : string) : string := trim (toLowerCase s).

Definition matchTags (activeTags : JSSet) (ev : Event.t) : bool :=
  if Set_size activeTags =? 0 then true
  else
    let evTags := Set_new (Event.tags ev) in
    forallb (fun t => Set_has evTags t) activeTags.

Definition matchQuery (ks : list Kid.t) (q : string) (ev : Event.t) : bool :=
  if String.eqb q EmptyString then true
  else
    let hay :=
      join " | "
        (map norm
           (Event.title ev
              :: Event.tags ev
              ++ map (fun p => match kidById_get ks (kidId p) with
                               | Some k => Kid.name k
                               | None => EmptyString
                               end) (Event.participants ev)
              ++ Object_values (Event.suggestNotes ev))) in
    includes hay q.

Definition listViewEvents (st : AppState) : list Event.t :=
  let activeTags := Set_new (listFilterTags st) in
  let q := norm (listSearch st) in
  Array_sort byStart
    (filter (fun ev => matchTags activeTags ev && matchQuery (kids st) q ev) (events st)).

(** The groups are keyed by the start day alone.  The final sort compares
    the texts of the keys; texts of days with four-digit years compare as
    the days do. *)
Definition listViewGrouped (st : AppState) : list (Z * list Event.t) :=
  let groups :=
    fold_left (fun groups ev => pushAt (ymd (atStartOfDay (Event.start ev))) ev groups)
      (listViewEvents st) [] in
  (* ensure each group is sorted *)
  let groups := map (fun '(k, arr) => (k, Array_sort byStart arr)) groups in
  Array_sort (fun a b => fst a - fst b) groups.

(** ** Creating an event *)

Definition alertTitleMissing : string := "กรุณาใส่ชื่อกิจกรรม".
Definition alertStartNotBeforeEnd : string := "วัน/เวลาเริ่มต้องก่อนวัน/เวลาจบ".

(** What a handler that validates a form hands back.

    [Done a shown]: the cells after the call and the text handed to
    [alert], if any.

    [StoredInvalidDate a start end_]: no alert was shown and the handler
    wrote the event with the dates [start] and [end_] as the form gave them,
    at least one of them an Invalid Date ([None]): the test [start >= end]
    compares time values, and a comparison with NaN is false.  An [Event.t]
    holds time values, so the events written with these dates are not in
    [a]; [a] carries the other writes of the handler. *)
Inductive Outcome (A : Type) : Type :=
| Done (a : A) (shown : option string)
| StoredInvalidDate (a : A) (start end_ : option Z).

Arguments Done {A} a shown.
Arguments StoredInvalidDate {A} a start end_.

Section CreateEvent.

(** [combineDateTime dateStr timeStr] splits the two form fields and hands
    the numbers to the host's [Date] constructor in local time.  The
    resulting [Date] is taken from the host: [Some t] is a valid date of
    time value [t], [None] is an Invalid Date. *)
Variable combineDateTime : string -> string -> option Z.

(** [createEvent], with the value of [crypto.randomUUID()] as [uuid].  On an
    Invalid Date the event [{id: uuid, title: t, start, end, tags: evTags,
    participants: []}] is appended all the same; the outcome then carries
    the cleared title and the dialog opened on [uuid]. *)
Definition createEvent (uuid : string) (st : AppState) : Outcome AppState :=
  let t := clampStr (evTitle st) in
  if String.eqb t EmptyString then Done st (Some alertTitleMissing)
  else
    let start := combineDateTime (evStartDate st) (evStartTime st) in
    let end_ := combineDateTime (evEndDate st) (evEndTime st) in
    match start, end_ with
    | Some s, Some e =>
        if s >=? e then Done st (Some alertStartNotBeforeEnd)
        else
          let ev := Event.mk uuid t s e (evTags st) [] None [] in
          let st := set_events (fun prev => prev ++ [ev]) st in
          let st := set_evTitle (fun _ => EmptyString) st in
          Done (openSuggestForEvent (Event.id ev) st) None
    | _, _ =>
        let st := set_evTitle (fun _ => EmptyString) st in
        StoredInvalidDate (openSuggestForEvent uuid st) start end_
    end.

End CreateEvent.

(** ** The rest of the handlers *)

Definition set_visible (f : JSObject bool -> JSObject bool) (st : AppState) : AppState :=
  let '(mkState a b c d e f0 g h i j k l m n o p q r s t u v w x) := st in
  mkState a b (f c) d e f0 g h i j k l m n o p q r s t u v w x.

Definition set_newKidName (f : string -> string) (st : AppState) : AppState :=
  let '(mkState a b c d e f0 g h i j k l m n o p q r s t u v w x) := st in
  mkState a b c d e (f f0) g h i j k l m n o p q r s t u v w x.

Definition set_editKidId (f : option string -> option string) (st : AppState) : AppState :=
  let '(mkState a b c d e f0 g h i j k l m n o p q r s t u v w x) := st in
  mkState a b c d e f0 g (f h) i j k l m n o p q r s t u v w x.

Definition set_activeEventIdForDetail (f : option string -> option string)
  (st : AppState) : AppState :=
  let '(mkState a b c d e f0 g h i j k l m n o p q r s t u v w x) := st in
  mkState a b c d e f0 g h i j k l m n o p q r (f s) t u v w x.

Definition set_editEventId (f : option string -> option string) (st : AppState) : AppState :=
  let '(mkState a b c d e f0 g h i j k l m n o p q r s t u v w x) := st in
  mkState a b c d e f0 g h i j k l m n o p q r s t u v (f w) x.

(** [delete o[k]] *)
Definition obj_delete {V} (k : string) (o : JSObject V) : JSObject V :=
  filter (fun kv => negb (String.eqb (fst kv) k)) o.

(** [!!o[k]]: an absent property is falsy. *)
Definition obj_truthy (o : JSObject bool) (k : string) : bool :=
  match obj_get o k with Some v => v | None => false end.

(** The properties that an object literal inherits from [Object.prototype].
    [o[k]] finds them when [o] has no property [k] of its own; their values
    are functions and, for [__proto__], the prototype object: all truthy,
    none an array. *)
Definition Object_prototype_names : list string :=
  ["constructor"; "hasOwnProperty"; "isPrototypeOf"; "propertyIsEnumerable";
   "toLocaleString"; "toString"; "valueOf"; "__proto__";
   "__defineGetter__"; "__defineSetter__"; "__lookupGetter__"; "__lookupSetter__"].

(** What [o[k]] finds on an object literal [o]. *)
Inductive Property (V : Type) : Type :=
| Own (v : V)
| Inherited
| Undefined.

Arguments Own {V} v.
Arguments Inherited {V}.
Arguments Undefined {V}.

Definition obj_read {V} (o : JSObject V) (k : string) : Property V :=
  match obj_get o k with
  | Some v => Own v
  | None =>
      if existsb (String.eqb k) Object_prototype_names then Inherited else Undefined
  end.

(** *** The tag picker

    The modal keeps three cells of its own and works on the catalog and on
    the selection buffer that its owner hands to it. *)

Record Picker := mkPicker {
  activeCategory : string;
  newCategory : string;
  newTag : string
}.

(** [prev.includes(t) ? prev.filter((x) => x !== t) : [...prev, t]] *)
Definition toggleTag (t : string) (prev : list string) : list string :=
  if existsb (String.eqb t) prev
  then filter (fun x => negb (String.eqb x t)) prev
  else prev ++ [t].

(** [addCategory].  The test [prev[c]] is truthy for a category of the
    catalog (an array, empty or not) and for a name inherited from
    [Object.prototype]. *)
Definition addCategory (allowEditLibrary : bool) (pk : Picker)
  (catalog : JSObject (list string)) : Picker * JSObject (list string) :=
  if negb allowEditLibrary then (pk, catalog)
  else
    let c := clampStr (newCategory pk) in
    if String.eqb c EmptyString then (pk, catalog)
    else
      (mkPicker c EmptyString (newTag pk),
       match obj_read catalog c with
       | Own _ => catalog
       | Inherited => catalog
       | Undefined => obj_set c [] catalog
       end).

(** [addTagToCategory]; [canSelect] tells whether the owner handed a
    selection buffer.  When [prev[c]] is an inherited property, [list] is
    not an array and has no [includes]: the updater throws a TypeError, and
    the result is [None]. *)
Definition addTagToCategory (allowEditLibrary canSelect : bool) (pk : Picker)
  (catalog : JSObject (list string)) (selectedTags : list string)
  : option (Picker * JSObject (list string) * list string) :=
  if negb allowEditLibrary then Some (pk, catalog, selectedTags)
  else
    let c := activeCategory pk in
    let t := clampStr (newTag pk) in
    if String.eqb c EmptyString || String.eqb t EmptyString
    then Some (pk, catalog, selectedTags)
    else
      let selectedTags' :=
        if canSelect
        then if existsb (String.eqb t) selectedTags then selectedTags
             else selectedTags ++ [t]
        else selectedTags in
      let pk' := mkPicker (activeCategory pk) (newCategory pk) EmptyString in
      let add (list : list string) :=
        if existsb (String.eqb t) list then catalog
        else obj_set c (list ++ [t]) catalog in
      match obj_read catalog c with
      | Own list => Some (pk', add list, selectedTags')
      | Undefined => Some (pk', add [], selectedTags')
      | Inherited => None
      end.

(** [askRenameTag], with the answer of [prompt] as [next] ([None] when the
    user cancels). *)
Definition askRenameTag (allowEditLibrary : bool) (next : option string) (tag : string)
  (st : AppState) : AppState :=
  if negb allowEditLibrary then st
  else
    match next with
    | None => st
    | Some next =>
        let t := clampStr next in
        if String.eqb t EmptyString || String.eqb t tag then st
        else renameTagEverywhere tag t st
    end.

(** [askDeleteTag], with the answer of [confirm] as [confirmed]. *)
Definition askDeleteTag (allowEditLibrary confirmed : bool) (tag : string)
  (st : AppState) : AppState :=
  if negb allowEditLibrary then st
  else if negb confirmed then st
  else deleteTagEverywhere tag st.

(** *** Kids *)

(** [addKid], with [crypto.randomUUID()] as [uuid] and [Date.now()] as [now]. *)
Definition addKid (uuid : string) (now : Z) (st : AppState) : AppState :=
  let name := clampStr (newKidName st) in
  if String.eqb name EmptyString then st
  else
    let kid := Kid.mk uuid name (newKidTags st) now in
    let st := set_kids (fun prev => prev ++ [kid]) st in
    let st := set_visible (fun prev => obj_set uuid true prev) st in
    let st := set_newKidName (fun _ => EmptyString) st in
    set_newKidTags (fun _ => []) st.

(** [renameKid], with the answer of [prompt] as [next]. *)
Definition renameKid (next : option string) (kidId : string) (st : AppState) : AppState :=
  match kidById_get (kids st) kidId with
  | None => st
  | Some _ =>
      match next with
      | None => st
      | Some next =>
          let t := clampStr next in
          if String.eqb t EmptyString then st
          else
            set_kids (map (fun k =>
              if String.eqb (Kid.id k) kidId
              then Kid.mk (Kid.id k) t (Kid.tags k) (Kid.createdAt k)
              else k)) st
      end
  end.

(** [deleteKid], with the answer of [confirm] as [confirmed]. *)
Definition deleteKid (confirmed : bool) (kid_id : string) (st : AppState) : AppState :=
  match kidById_get (kids st) kid_id with
  | None => st
  | Some _ =>
      if negb confirmed then st
      else
        let st := set_kids (filter (fun k => negb (String.eqb (Kid.id k) kid_id))) st in
        let st := set_visible (fun prev => obj_delete kid_id prev) st in
        set_events (map (fun ev =>
          Event.mk (Event.id ev) (Event.title ev) (Event.start ev) (Event.end_ ev)
            (Event.tags ev)
            (filter (fun p => negb (String.eqb (kidId p) kid_id))
               (Event.participants ev))
            (Event.suggestedAt ev) (Event.suggestNotes ev))) st
  end.

Definition toggleVisible (kidId : string) (st : AppState) : AppState :=
  set_visible (fun prev => obj_set kidId (negb (obj_truthy prev kidId)) prev) st.

Definition showAll (st : AppState) : AppState :=
  set_visible (fun _ => fold_left (fun n k => obj_set (Kid.id k) true n) (kids st) []) st.

Definition hideAll (st : AppState) : AppState :=
  set_visible (fun _ => fold_left (fun n k => obj_set (Kid.id k) false n) (kids st) []) st.

Definition openEditTagsForKid (kidId : string) (st : AppState) : AppState :=
  match kidById_get (kids st) kidId with
  | None => st
  | Some kid =>
      let st := set_editKidId (fun _ => Some kidId) st in
      set_editKidTags (fun _ => Kid.tags kid) st
  end.

(** [if (!editKidId) return]: [null] and the empty text are both falsy. *)
Definition saveEditKidTags (st : AppState) : AppState :=
  match editKidId st with
  | None => st
  | Some i =>
      if String.eqb i EmptyString then st
      else
        let tags := editKidTags st in
        let st := set_kids (map (fun k =>
          if String.eqb (Kid.id k) i then Kid_with_tags (fun _ => tags) k else k)) st in
        let st := set_editKidId (fun _ => None) st in
        set_editKidTags (fun _ => []) st
  end.

Definition filteredKids (st : AppState) : list Kid.t :=
  let q := toLowerCase (trim (kidSearch st)) in
  let filterSet := Set_new (kidFilterTags st) in
  filter (fun k =>
    (* tag filter: must contain all selected tags *)
    forallb (fun t => existsb (String.eqb t) (Kid.tags k)) filterSet
    (* text search *)
    && searchHit q k) (kids st).

(** *** Events *)

(** [deleteEvent], with the answer of [confirm] as [confirmed]. *)
Definition deleteEvent (confirmed : bool) (eventId : string) (st : AppState) : AppState :=
  if negb confirmed then st
  else
    let detail := activeEventIdForDetail st in
    let st := set_events (filter (fun e => negb (String.eqb (Event.id e) eventId))) st in
    match detail with
    | Some i => if String.eqb i eventId
                then set_activeEventIdForDetail (fun _ => None) st else st
    | None => st
    end.

Definition openEditTagsForEvent (eventId : string) (st : AppState) : AppState :=
  match find (fun e => String.eqb (Event.id e) eventId) (events st) with
  | None => st
  | Some ev =>
      let st := set_editEventId (fun _ => Some eventId) st in
      set_editEventTags (fun _ => Event.tags ev) st
  end.

Definition saveEditEventTags (st : AppState) : AppState :=
  match editEventId st with
  | None => st
  | Some i =>
      if String.eqb i EmptyString then st
      else
        let tags := editEventTags st in
        let st := set_events (map (fun e =>
          if String.eqb (Event.id e) i then Event.with_tags (fun _ => tags) e else e)) st in
        let st := set_editEventId (fun _ => None) st in
        set_editEventTags (fun _ => []) st
  end.

(** The cells of the edit-info form, kept apart from [AppState]. *)
Record EditInfo := mkEditInfo {
  openEditEventInfo : bool;
  editInfoEventId : option string;
  editTitle : string;
  editStartDate : string;
  editEndDate : string;
  editStartTime : string;
  editEndTime : string
}.

(** [saveEditEventInfo]: the next state and form, and the text handed to
    [alert], if any.  On an Invalid Date the events of that id are rewritten
    with the new title and the dates as they are; the outcome then carries
    the state as it was and the closed form. *)
Definition saveEditEventInfo (combineDateTime : string -> string -> option Z)
  (form : EditInfo) (st : AppState) : Outcome (AppState * EditInfo) :=
  match editInfoEventId form with
  | None => Done (st, form) None
  | Some i =>
      if String.eqb i EmptyString then Done (st, form) None
      else
        let t := clampStr (editTitle form) in
        if String.eqb t EmptyString then Done (st, form) (Some alertTitleMissing)
        else
          let start := combineDateTime (editStartDate form) (editStartTime form) in
          let end_ := combineDateTime (editEndDate form) (editEndTime form) in
          let form' :=
            mkEditInfo false None (editTitle form) (editStartDate form)
              (editEndDate form) (editStartTime form) (editEndTime form) in
          match start, end_ with
          | Some s, Some e =>
              if s >=? e then Done (st, form) (Some alertStartNotBeforeEnd)
              else
                let st := set_events (map (fun e0 =>
                  if String.eqb (Event.id e0) i
                  then Event.mk (Event.id e0) t s e (Event.tags e0)
                         (Event.participants e0) (Event.suggestedAt e0)
                         (Event.suggestNotes e0)
                  else e0)) st in
                Done (st, form') None
          | _, _ => StoredInvalidDate (st, form') start end_
          end
  end.

(** *** The suggestion dialog *)

Definition newCandidateIdsForSuggest (localeCompare : string -> string -> Z)
  (st : AppState) : JSSet :=
  match activeEventForSuggest st with
  | None => []
  | Some ev =>
      let baseline := match Event.suggestedAt ev with Some b => b | None => 0 end in
      if baseline =? 0 then []
      else
        fold_left (fun s x =>
          let createdAt := Kid.createdAt (kid x) in
          if (baseline <? createdAt) && (1 <? score x) then Set_add s (Kid.id (kid x)) else s)
          (suggestedKids localeCompare st) []
  end.

Definition selectAllMatchGt0 (localeCompare : string -> string -> Z) (st : AppState)
  : AppState :=
  set_suggestSelection (fun _ =>
    fold_left (fun n x => if 0 <? score x then obj_set (Kid.id (kid x)) true n else n)
      (suggestedKids localeCompare st) []) st.

Definition clearSuggestSelection (st : AppState) : AppState :=
  set_suggestSelection (fun _ => []) st.

(** The note button of a row, with the answer of [prompt] as [note]. *)
Definition setSuggestNote (note : option string) (kidId : string) (st : AppState) : AppState :=
  match activeEventForSuggest st, note with
  | Some active, Some note =>
      set_events (map (fun ev =>
        if String.eqb (Event.id ev) (Event.id active)
        then Event.mk (Event.id ev) (Event.title ev) (Event.start ev) (Event.end_ ev)
               (Event.tags ev) (Event.participants ev) (Event.suggestedAt ev)
               (obj_set kidId note (Event.suggestNotes ev))
        else ev)) st
  | _, _ => st
  end.

(** *** Status and removal of a participant *)

(** [(p.status + 1) % 3]; the remainder takes the sign of the dividend. *)
Definition cycleParticipantStatus (eventId kid_id : string) (st : AppState) : AppState :=
  set_events (map (fun e =>
    if negb (String.eqb (Event.id e) eventId) then e
    else
      let next := map (fun p =>
        if String.eqb (kidId p) kid_id
        then mkParticipation (kidId p) (Z.rem (status p + 1) 3)
        else p) (Event.participants e) in
      Event.mk (Event.id e) (Event.title e) (Event.start e) (Event.end_ e) (Event.tags e)
        next (Event.suggestedAt e) (Event.suggestNotes e))) st.

Definition removeParticipant (eventId kid_id : string) (st : AppState) : AppState :=
  set_events (map (fun e =>
    if String.eqb (Event.id e) eventId
    then Event.mk (Event.id e) (Event.title e) (Event.start e) (Event.end_ e) (Event.tags e)
           (filter (fun p => negb (String.eqb (kidId p) kid_id))
              (Event.participants e))
           (Event.suggestedAt e) (Event.suggestNotes e)
    else e)) st.

(** *** The month grid *)

(** [d.getDay()], 0 for Sunday: day 0 of the time values is a Thursday. *)
Definition getDay (d : Z) : Z := (ymd d + 4) mod 7.

Definition startOfWeekMonday (d : Z) : Z :=
  let day := getDay d in
  let diff := (day + 6) mod 7 in
  atStartOfDay (addDays d (- diff)).

(** [for (let i = 0; i < 42; i++) arr.push(addDays(gridStart, i))] *)
Definition gridDays (gridStart : Z) : list Z :=
  map (fun i => addDays gridStart (Z.of_nat i)) (seq 0 42).

(** * Vocabulary of the statements *)

(** The collections of tags that [renameTagEverywhere] and
    [deleteTagEverywhere] rewrite: the categories of the catalog, the tags of
    each kid and of each event, the kid filter and the buffers of the create
    and edit forms. *)
Definition rewrittenCollections (st : AppState) : list (list string) :=
  map snd (tagCatalog st)
  ++ map Kid.tags (kids st)
  ++ map Event.tags (events st)
  ++ [kidFilterTags st; newKidTags st; editKidTags st; evTags st; editEventTags st].

(** Every collection of the state that holds tags: the above and the tag
    filter of the List View. *)
Definition allTagCollections (st : AppState) : list (list string) :=
  rewrittenCollections st ++ [listFilterTags st].

(** [c'] is [c] with [o] replaced by [n] and repetitions removed. *)
Definition renamedTo (o n : string) (c c' : list string) : Prop :=
  ~ In o c'
  /\ NoDup c'
  /\ (forall x, In x c' <-> (x = n /\ In o c) \/ (x <> o /\ In x c)).

(** [c'] is [c] without the occurrences of [t]; the other tags are kept,
    in their order. *)
Inductive droppedFrom (t : string) : list string -> list string -> Prop :=
| dropped_nil : droppedFrom t [] []
| dropped_hit c c' : droppedFrom t c c' -> droppedFrom t (t :: c) c'
| dropped_keep x c c' : x <> t -> droppedFrom t c c' -> droppedFrom t (x :: c) (x :: c').

(** The number of entries of the kid's tags that are tags of the event. *)
Definition overlap (p : Kid.t) (ev : Event.t) : Z :=
  intersectionCount (Kid.tags p) (Set_new (Event.tags ev)).

(** The condition under which a kid is a new match of an event of baseline
    [b]: created after [b], not assigned, and more than one tag shared. *)
Definition newMatch (b : Z) (ev : Event.t) (p : Kid.t) : Prop :=
  Kid.createdAt p > b /\ ~ In (Kid.id p) (Event.kidIds ev) /\ overlap p ev > 1.

Definition isNewMatch (b : Z) (ev : Event.t) (p : Kid.t) : bool :=
  negb (Set_has (Set_new (Event.kidIds ev)) (Kid.id p))
  && negb (Kid.createdAt p <=? b)
  && (1 <? overlap p ev).

(** [q] occurs in [s] as a contiguous run of characters. *)
Definition occursIn (q s : string) : Prop :=
  exists pre post : string, s = String.append pre (String.append q post).

(** A kid matches a search text: the text, trimmed and lower-cased, is empty
    or occurs in the lower-cased name or in a lower-cased tag. *)
Definition matchesSearch (query : string) (k : Kid.t) : Prop :=
  let q := toLowerCase (trim query) in
  q = EmptyString
  \/ occursIn q (toLowerCase (Kid.name k))
  \/ exists t, In t (Kid.tags k) /\ occursIn q (toLowerCase t).

(** The three filters of the suggestion list in one. *)
Definition isCandidate (q : string) (ev : Event.t) (k : Kid.t) : bool :=
  negb (Set_has (Set_new (Event.kidIds ev)) (Kid.id k))
  && searchHit q k
  && (0 <? overlap k ev).

(** The order of a ranked list: higher score first, and among equal scores
    the name that the collation puts first. *)
Definition rankedBefore (lc : string -> string -> Z) (a b : Scored) : Prop :=
  score a > score b
  \/ (score a = score b /\ lc (Kid.name (kid a)) (Kid.name (kid b)) <= 0).

(** One collation: the order of the character codes. *)
Definition codeUnitCompare (a b : string) : Z :=
  match String.compare a b with
  | Lt => -1
  | Eq => 0
  | Gt => 1
  end.

(** The event as [confirmSuggested] rewrites it: [added] joins the
    participants, and the baseline is set to [now] unless it is set. *)
Definition confirmedWith (now : Z) (added : list Participation) (e : Event.t) : Event.t :=
  Event.mk (Event.id e) (Event.title e) (Event.start e) (Event.end_ e) (Event.tags e)
    (Event.participants e ++ added)
    (Some (match Event.suggestedAt e with Some t => t | None => now end))
    (Event.suggestNotes e).

(** The suggestion dialog opened on an event and the boxes ticked as [sel]. *)
Definition pickingState (eventId : string) (sel : JSObject bool) (st : AppState) : AppState :=
  set_suggestSelection (fun _ => sel) (openSuggestForEvent eventId st).

(** The event touches the calendar day [day]: the day lies between the day
    of its start and the day of its end, the times of day left aside. *)
Definition touchesDay (day : Z) (ev : Event.t) : bool :=
  (ymd (Event.start ev) <=? day) && (day <=? ymd (Event.end_ ev)).

Definition startsOnDay (day : Z) (ev : Event.t) : bool :=
  ymd (Event.start ev) =? day.

(** A state of the scenario of the specification, with the tag [north]
    selected in the filter of the List View. *)
Definition northKid : Kid.t := Kid.mk "k1" "P1" ["north"] 100.

Definition northSouthEvent : Event.t :=
  Event.mk "e1" "E1" 64800000 118800000 ["north"; "south"] [] None [].

Definition emptyState : AppState :=
  mkState [] [] [] "" [] "" [] None [] [] [] "" "" "" "" "" "" [] None None "" [] None [].

Definition filteredState : AppState :=
  mkState [("Region", ["north"; "south"])] [northKid] [("k1", true)] "" ["north"] "" []
    None [] [northSouthEvent] ["north"] "" "" "" "" "" "" [] None None "" [] None [].

(** The scenario after the first confirmation at time 1000: [P1] is
    assigned, [P2] (both tags) and [P3] (one tag) join at 1010. *)
Definition triagedEvent : Event.t :=
  Event.mk "e1" "E1" 64800000 118800000 ["north"; "south"]
    [mkParticipation "k1" 0] (Some 1000) [].

Definition lateKidBoth : Kid.t := Kid.mk "k2" "P2" ["north"; "south"] 1010.
Definition lateKidOne : Kid.t := Kid.mk "k3" "P3" ["north"] 1010.

(** An event whose [suggestedAt] is present and holds the time value 0. *)
Definition epochEvent : Event.t :=
  Event.mk "e0" "E0" 64800000 118800000 ["north"; "south"] [] (Some 0) [].

Definition triagedState : AppState :=
  mkState [("Region", ["north"; "south"])] [northKid; lateKidBoth; lateKidOne] []
    "" [] "" [] None [] [triagedEvent] [] "" "" "" "" "" "" [] (Some "e1") None "" []
    None [].

(** The suggestion dialog open on [E1] with a single space typed in the
    search box. *)
Definition blankSearchState : AppState :=
  mkState [("Region", ["north"; "south"])] [northKid] [] "" [] "" [] None []
    [northSouthEvent] [] "" "" "" "" "" "" [] None (Some "e1") " " [] None [].

(** The suggestion dialog open on [E1], nothing typed, with [P1] (one shared
    tag) ahead of [P2] (two shared tags) in the roster. *)
Definition suggestState : AppState :=
  mkState [("Region", ["north"; "south"])] [northKid; lateKidBoth] [] "" [] "" [] None []
    [northSouthEvent] [] "" "" "" "" "" "" [] None (Some "e1") "" [] None [].

(** The suggestion dialog open on [E1] with [P1] ticked and [P2] unticked. *)
Definition pickedState : AppState :=
  mkState [("Region", ["north"; "south"])] [northKid; lateKidBoth] [] "" [] "" [] None []
    [northSouthEvent] [] "" "" "" "" "" "" [] None (Some "e1") ""
    [("k1", true); ("k2", false)] None [].

(** The suggestion dialog open on the triaged [E1], whose participant [P1]
    is ticked again. *)
Definition repickedState : AppState :=
  mkState [("Region", ["north"; "south"])] [northKid; lateKidBoth] [] "" [] "" [] None []
    [triagedEvent] [] "" "" "" "" "" "" [] None (Some "e1") ""
    [("k1", true)] None [].

(** The suggestion dialog open on the untriaged [E1] with nothing ticked. *)
Definition nothingPickedState : AppState :=
  mkState [("Region", ["north"; "south"])] [northKid] [] "" [] "" [] None []
    [northSouthEvent] [] "" "" "" "" "" "" [] None (Some "e1") "" [] None [].

(** A create form whose end is typed a day before its start, and a host
    that reads the two dates of the form. *)
Definition backwardsForm : AppState :=
  mkState [] [] [] "" [] "" [] None [] [northSouthEvent] [] "" "Camp" "2024-01-02"
    "2024-01-01" "09:00" "10:00" ["north"] None None "" [] None [].

Definition readFormDate (dateStr timeStr : string) : option Z :=
  if String.eqb dateStr "2024-01-01" then Some 0
  else if String.eqb dateStr "2024-01-02" then Some 86400000
  else None.

(** The state with [f] applied to each collection of tags that the
    propagation rewrites. *)
Definition mapTagCollections (f : list string -> list string) (st : AppState) : AppState :=
  mkState
    (map (fun entry => (fst entry, f (snd entry))) (tagCatalog st))
    (map (Kid_with_tags f) (kids st))
    (visible st) (kidSearch st) (f (kidFilterTags st)) (newKidName st)
    (f (newKidTags st)) (editKidId st) (f (editKidTags st))
    (map (Event.with_tags f) (events st))
    (listFilterTags st) (listSearch st) (evTitle st) (evStartDate st) (evEndDate st)
    (evStartTime st) (evEndTime st) (f (evTags st)) (activeEventIdForDetail st)
    (activeEventIdForSuggest st) (suggestSearch st) (suggestSelection st)
    (editEventId st) (f (editEventTags st)).

(** [t === o ? n : t] over an array, then [Array.from(new Set(...))]. *)
Definition replaceDedupe (o n : string) (c : list string) : list string :=
  Array_from (Set_new (map (fun t => if String.eqb t o then n else t) c)).

Definition removeTag (t : string) (c : list string) : list string :=
  filter (fun x => negb (String.eqb x t)) c.

(** A catalog in good order: no category twice, no tag twice in a
    category. *)
Definition catalogOk (catalog : JSObject (list string)) : Prop :=
  obj_wf catalog /\ Forall (fun entry => NoDup (snd entry)) catalog.

(** The catalog that [App] starts with. *)
Definition initialCatalog : JSObject (list string) :=
  [("มหาวิทยาลัย", ["วิศวะ"; "บริหาร"; "สถาปัตย์"; "แพทย์"]);
   ("จังหวัด", ["กรุงเทพ"; "เชียงใหม่"; "ขอนแก่น"]);
   ("รูปแบบ", ["online"; "onsite"]);
   ("งบประมาณ", ["เงินน้อย"; "เงินมาก"])].


(** The event with its participant list replaced. *)
Definition withParticipants (ps : list Participation) (e : Event.t) : Event.t :=
  Event.mk (Event.id e) (Event.title e) (Event.start e) (Event.end_ e) (Event.tags e)
    ps (Event.suggestedAt e) (Event.suggestNotes e).

(** One click on the participations of [kid_id]: a step of the status. *)
Definition stepStatus (kid_id : string) (p : Participation) : Participation :=
  if String.eqb (kidId p) kid_id
  then mkParticipation (kidId p) (Z.rem (status p + 1) 3)
  else p.

Definition cycleEvent (eventId kid_id : string) (e : Event.t) : Event.t :=
  if negb (String.eqb (Event.id e) eventId) then e
  else withParticipants (map (stepStatus kid_id) (Event.participants e)) e.

(** The List View with the title of [E1] typed in lower case, spaces
    around. *)
Definition searchingState : AppState :=
  mkState [("Region", ["north"; "south"])] [northKid] [] "" [] "" [] None []
    [triagedEvent] ["north"] " e1 " "" "" "" "" "" [] None None "" [] None [].

(** The state that [App] starts with; [today] is the text of the current
    day. *)
Definition initialState (today : string) : AppState :=
  mkState initialCatalog [] [] "" [] "" [] None [] [] [] "" "" today today
    "09:00" "10:00" [] None None "" [] None [].

(** An event in good order: nobody assigned twice, statuses within the
    three steps, start before end. *)
Definition eventOk (e : Event.t) : Prop :=
  NoDup (Event.kidIds e)
  /\ Forall (fun p => 0 <= status p <= 2) (Event.participants e)
  /\ Event.start e < Event.end_ e.

Definition eventsOk (evs : list Event.t) : Prop :=
  NoDup (map Event.id evs) /\ Forall eventOk evs.

(** The invariant of the data: distinct event ids and events in good order,
    distinct kid ids, a catalog in good order, a well-formed selection. *)
Definition stateOk (st : AppState) : Prop :=
  eventsOk (events st)
  /\ NoDup (map Kid.id (kids st))
  /\ catalogOk (tagCatalog st)
  /\ obj_wf (suggestSelection st).

(** One user action.  [crypto.randomUUID()] yields an id that is not in use;
    the answers of [prompt] and [confirm], the readings of the clock and the
    contents of the forms of the picker and of the edit-info dialog are
    arbitrary.  The last rule stands for the handlers that write none of
    the four cells of the invariant (typing in a form, filters, visibility,
    which dialog is open).

    Three runs are not actions of the relation.  A call of [createEvent] or
    of [saveEditEventInfo] on a form whose date is an Invalid Date stores
    an event that [AppState] does not hold ([StoredInvalidDate]): the
    relation follows the application for as long as every event is created
    and saved with dates that the host reads.  A call of [addTagToCategory]
    that throws ends the application.  Loading a saved document into the
    cells is not modelled. *)
Inductive step (combineDateTime : string -> string -> option Z)
  (localeCompare : string -> string -> Z) : AppState -> AppState -> Prop :=
| step_addCategory allow pk st :
    step combineDateTime localeCompare st
      (set_tagCatalog (fun prev => snd (addCategory allow pk prev)) st)
| step_addTagToCategory allow pk st pk' catalog' sel' :
    addTagToCategory allow false pk (tagCatalog st) [] = Some (pk', catalog', sel') ->
    step combineDateTime localeCompare st (set_tagCatalog (fun _ => catalog') st)
| step_askRenameTag allow next tag st :
    step combineDateTime localeCompare st (askRenameTag allow next tag st)
| step_askDeleteTag allow confirmed tag st :
    step combineDateTime localeCompare st (askDeleteTag allow confirmed tag st)
| step_addKid uuid now st :
    ~ In uuid (map Kid.id (kids st)) ->
    step combineDateTime localeCompare st (addKid uuid now st)
| step_renameKid next i st :
    step combineDateTime localeCompare st (renameKid next i st)
| step_deleteKid confirmed i st :
    step combineDateTime localeCompare st (deleteKid confirmed i st)
| step_saveEditKidTags st :
    step combineDateTime localeCompare st (saveEditKidTags st)
| step_createEvent uuid st st' shown :
    ~ In uuid (map Event.id (events st)) ->
    createEvent combineDateTime uuid st = Done st' shown ->
    step combineDateTime localeCompare st st'
| step_deleteEvent confirmed i st :
    step combineDateTime localeCompare st (deleteEvent confirmed i st)
| step_saveEditEventTags st :
    step combineDateTime localeCompare st (saveEditEventTags st)
| step_saveEditEventInfo form st st' form' shown :
    saveEditEventInfo combineDateTime form st = Done (st', form') shown ->
    step combineDateTime localeCompare st st'
| step_openSuggestForEvent i st :
    step combineDateTime localeCompare st (openSuggestForEvent i st)
| step_toggleSuggestPick i st :
    step combineDateTime localeCompare st (toggleSuggestPick i st)
| step_selectAllMatchGt0 st :
    step combineDateTime localeCompare st (selectAllMatchGt0 localeCompare st)
| step_clearSuggestSelection st :
    step combineDateTime localeCompare st (clearSuggestSelection st)
| step_setSuggestNote note i st :
    step combineDateTime localeCompare st (setSuggestNote note i st)
| step_confirmSuggested now st :
    step combineDateTime localeCompare st (confirmSuggested now st)
| step_cycleParticipantStatus eventId i st :
    step combineDateTime localeCompare st (cycleParticipantStatus eventId i st)
| step_removeParticipant eventId i st :
    step combineDateTime localeCompare st (removeParticipant eventId i st)
| step_otherCells st st' :
    events st' = events st -> kids st' = kids st ->
    tagCatalog st' = tagCatalog st -> suggestSelection st' = suggestSelection st ->
    step combineDateTime localeCompare st st'.

Inductive reachable (combineDateTime : string -> string -> option Z)
  (localeCompare : string -> string -> Z) (today : string) : AppState -> Prop :=
| reachable_initial : reachable combineDateTime localeCompare today (initialState today)
| reachable_step st st' :
    reachable combineDateTime localeCompare today st ->
    step combineDateTime localeCompare st st' ->
    reachable combineDateTime localeCompare today st'.

(** The suggestion dialog open on [E1], to which [P1] is assigned as joined;
    [P1] and [P2] are ticked and [P3] is unticked. *)
Definition joinedEvent : Event.t :=
  Event.mk "e1" "E1" 64800000 118800000 ["north"; "south"]
    [mkParticipation "k1" 1] None [].

Definition overlapPickState : AppState :=
  mkState [("Region", ["north"; "south"])] [northKid; lateKidBoth; lateKidOne] []
    "" [] "" [] None [] [joinedEvent] [] "" "" "" "" "" "" [] None (Some "e1") ""
    [("k1", true); ("k2", true); ("k3", false)] None [].

(** A second selection, which ticks [P2] again and [P3]. *)
Definition secondPick : JSObject bool := [("k2", true); ("k3", true)].

(** The create form with a title and its start date cleared. *)
Definition clearedDateForm : AppState :=
  mkState [] [] [] "" [] "" [] None [] [northSouthEvent] [] "" "Camp" ""
    "2024-01-02" "09:00" "10:00" ["north"] None None "" [] None [].


(** A run from the start of [App] on the day 2024-01-01: the kid [P1] is
    entered with the tag [online], the event [Camp] is entered from that day
    to the next with the same tag, and in the dialog that opens [P1] is
    ticked and confirmed. *)
Definition kidTyped : AppState :=
  mkState initialCatalog [] [] "" [] "P1" ["online"] None [] [] [] "" ""
    "2024-01-01" "2024-01-01" "09:00" "10:00" [] None None "" [] None [].

Definition kidAdded : AppState := addKid "k1" 100 kidTyped.

Definition eventTyped : AppState :=
  mkState (tagCatalog kidAdded) (kids kidAdded) (visible kidAdded) "" [] "" [] None []
    (events kidAdded) [] "" "Camp" "2024-01-01" "2024-01-02" "09:00" "10:00" ["online"]
    None None "" [] None [].

Definition eventCreated : AppState :=
  openSuggestForEvent "e1"
    (set_evTitle (fun _ => EmptyString)
       (set_events (fun prev =>
          prev ++ [Event.mk "e1" "Camp" 0 86400000 ["online"] [] None []]) eventTyped)).

Definition campConfirmed : AppState :=
  confirmSuggested 1000 (toggleSuggestPick "k1" eventCreated).

(** * Facts about the host library *)

Section SetFacts.

Lemma Set_has_In (s : JSSet) (t : string) : Set_has s t = true <-> In t s.
Proof.
  unfold Set_has. rewrite existsb_exists. split.
  - intros [x [Hx He]]. apply String.eqb_eq in He. now subst.
  - intros H. exists t. split; [assumption | apply String.eqb_refl].
Qed.

Lemma Set_has_false (s : JSSet) (t : string) : Set_has s t = false <-> ~ In t s.
Proof.
  rewrite <- Set_has_In. destruct (Set_has s t); split; congruence.
Qed.

Lemma Set_add_In (s : JSSet) (t x : string) : In x (Set_add s t) <-> In x s \/ x = t.
Proof.
  unfold Set_add. destruct (Set_has s t) eqn:E.
  - apply Set_has_In in E. split; [auto | intros [H | ->]; assumption].
  - rewrite in_app_iff. simpl. intuition.
Qed.

Lemma Set_add_NoDup (s : JSSet) (t : string) : NoDup s -> NoDup (Set_add s t).
Proof.
  intros H. unfold Set_add. destruct (Set_has s t) eqn:E; [assumption |].
  apply Set_has_false in E.
  apply NoDup_app; [assumption | repeat constructor; intros [] | ].
  intros a Ha [<- | []]. contradiction.
Qed.

Lemma fold_Set_add_In (l : list string) (acc : JSSet) (x : string) :
  In x (fold_left Set_add l acc) <-> In x acc \/ In x l.
Proof.
  revert acc. induction l as [| t l IH]; intros acc; simpl.
  - intuition.
  - rewrite IH, Set_add_In. intuition.
Qed.

Lemma fold_Set_add_NoDup (l : list string) (acc : JSSet) :
  NoDup acc -> NoDup (fold_left Set_add l acc).
Proof.
  revert acc. induction l as [| t l IH]; intros acc H; simpl; [assumption |].
  apply IH, Set_add_NoDup, H.
Qed.

Lemma Set_new_In (l : list string) (x : string) : In x (Set_new l) <-> In x l.
Proof. unfold Set_new. rewrite fold_Set_add_In. simpl. intuition. Qed.

Lemma Set_new_NoDup (l : list string) : NoDup (Set_new l).
Proof. apply fold_Set_add_NoDup. constructor. Qed.

Lemma Set_new_has (l : list string) (x : string) :
  Set_has (Set_new l) x = existsb (String.eqb x) l.
Proof.
  destruct (existsb (String.eqb x) l) eqn:E.
  - apply Set_has_In, Set_new_In, Set_has_In. exact E.
  - apply Set_has_false. rewrite Set_new_In, <- Set_has_In.
    unfold Set_has. congruence.
Qed.

Lemma Set_new_size_0 (l : list string) : (Set_size (Set_new l) =? 0) = true <-> l = [].
Proof.
  unfold Set_size. rewrite Z.eqb_eq. split.
  - intros H. destruct l as [| x l]; [reflexivity |].
    assert (Hin : In x (Set_new (x :: l))) by (apply Set_new_In; now left).
    destruct (Set_new (x :: l)); [destruct Hin | simpl in H; lia].
  - intros ->. reflexivity.
Qed.

(** A list without repetition holds each of its elements once. *)
Lemma NoDup_count_occ_1 (l : list string) (x : string) :
  NoDup l -> In x l -> count_occ string_dec l x = 1%nat.
Proof.
  intros Hnd Hin.
  pose proof (proj1 (NoDup_count_occ string_dec l) Hnd x) as Hle.
  apply (count_occ_In string_dec) in Hin. lia.
Qed.

End SetFacts.

Section ObjectFacts.
Context {V W : Type}.

Lemma obj_set_fresh (o : JSObject W) (k : string) (v : W) :
  ~ In k (map fst o) -> obj_set k v o = o ++ [(k, v)].
Proof.
  induction o as [| [k' v'] o IH]; simpl; intros H; [reflexivity |].
  destruct (String.eqb k' k) eqn:E.
  - apply String.eqb_eq in E. exfalso. apply H. now left.
  - rewrite IH; [reflexivity | intros Hin; apply H; now right].
Qed.

(** Rebuilding an object property by property, as
    [for (const [cat, list] of Object.entries(prev)) next[cat] = f list],
    maps [f] over the values and keeps the order of the properties. *)
Lemma rebuild_entries (f : V -> W) (o : JSObject V) (acc : JSObject W) :
  NoDup (map fst acc ++ map fst o) ->
  fold_left (fun next '(cat, list) => obj_set cat (f list) next) o acc
  = acc ++ map (fun '(cat, list) => (cat, f list)) o.
Proof.
  revert acc. induction o as [| [k v] o IH]; intros acc H; simpl.
  - now rewrite app_nil_r.
  - rewrite obj_set_fresh.
    + rewrite IH.
      * now rewrite <- app_assoc.
      * rewrite map_app. simpl. rewrite <- app_assoc. exact H.
    + simpl in H. apply NoDup_remove_2 in H.
      intros Hin. apply H. apply in_or_app. now left.
Qed.

Lemma rebuild_object (f : V -> W) (o : JSObject V) :
  obj_wf o ->
  fold_left (fun next '(cat, list) => obj_set cat (f list) next) (Object_entries o) []
  = map (fun '(cat, list) => (cat, f list)) o.
Proof. intros H. apply (rebuild_entries f o []). exact H. Qed.

End ObjectFacts.

Lemma obj_get_set_same {V} (o : JSObject V) (k : string) (v : V) :
  obj_get (obj_set k v o) k = Some v.
Proof.
  induction o as [| [k' v'] o IH]; simpl.
  - now rewrite String.eqb_refl.
  - destruct (String.eqb k' k) eqn:E; simpl; rewrite E; [reflexivity | exact IH].
Qed.

Lemma obj_get_set_other {V} (o : JSObject V) (k k0 : string) (v : V) :
  k <> k0 -> obj_get (obj_set k v o) k0 = obj_get o k0.
Proof.
  intros Hne. induction o as [| [k' v'] o IH]; simpl.
  - destruct (String.eqb k k0) eqn:E; [apply String.eqb_eq in E; contradiction | reflexivity].
  - destruct (String.eqb k' k) eqn:E; simpl.
    + apply String.eqb_eq in E. subst k'.
      destruct (String.eqb k k0) eqn:E'; [apply String.eqb_eq in E'; contradiction | reflexivity].
    + now rewrite IH.
Qed.

(** * Tag propagation *)

Section Propagation.

Lemma Forall2_map_pointwise {A B C} (R : B -> C -> Prop) (f : A -> B) (g : A -> C)
  (l : list A) :
  (forall x, In x l -> R (f x) (g x)) -> Forall2 R (map f l) (map g l).
Proof.
  induction l as [| a l IH]; intros H; simpl; constructor.
  - apply H. now left.
  - apply IH. intros x Hx. apply H. now right.
Qed.

(** Replace-then-dedupe on one array. *)
Lemma replace_dedupe_renamedTo (o n : string) (c : list string) :
  o <> n ->
  renamedTo o n c
    (Array_from (Set_new (map (fun t => if String.eqb t o then n else t) c))).
Proof.
  intros Hne. unfold Array_from.
  assert (Hin : forall x,
    In x (Set_new (map (fun t => if String.eqb t o then n else t) c))
    <-> (x = n /\ In o c) \/ (x <> o /\ In x c)).
  { intros x. rewrite Set_new_In, in_map_iff. split.
    - intros [t [Ht Hc]]. destruct (String.eqb t o) eqn:E.
      + apply String.eqb_eq in E. subst. now left.
      + apply String.eqb_neq in E. subst. now right.
    - intros [[-> Hc] | [Hx Hc]].
      + exists o. now rewrite String.eqb_refl.
      + exists x. apply String.eqb_neq in Hx. now rewrite Hx. }
  split; [| split; [apply Set_new_NoDup | exact Hin]].
  intros Ho. apply Hin in Ho. destruct Ho as [[Ho _] | [Ho _]]; congruence.
Qed.

Lemma renamedTo_once (o n : string) (c c' : list string) :
  renamedTo o n c c' -> In o c -> count_occ string_dec c' n = 1%nat.
Proof.
  intros (_ & Hnd & Hin) Ho. apply NoDup_count_occ_1; [assumption |].
  apply Hin. now left.
Qed.

Lemma catalog_renamed (o n : string) (cat : JSObject (list string)) :
  obj_wf cat ->
  fold_left (fun next '(c, list) =>
    obj_set c (Array_from (Set_new (map (fun t => if String.eqb t o then n else t) list)))
      next) (Object_entries cat) []
  = map (fun '(c, list) =>
      (c, Array_from (Set_new (map (fun t => if String.eqb t o then n else t) list)))) cat.
Proof.
  intros H.
  exact (rebuild_object
           (fun list => Array_from (Set_new (map (fun t => if String.eqb t o then n else t) list)))
           cat H).
Qed.

Lemma catalog_deleted (t : string) (cat : JSObject (list string)) :
  obj_wf cat ->
  fold_left (fun next '(c, list) =>
    obj_set c (filter (fun x => negb (String.eqb x t)) list) next) (Object_entries cat) []
  = map (fun '(c, list) => (c, filter (fun x => negb (String.eqb x t)) list)) cat.
Proof.
  intros H.
  exact (rebuild_object (fun list => filter (fun x => negb (String.eqb x t)) list) cat H).
Qed.

(** What the rename does where it is applied: in each collection that it
    rewrites, the trimmed old tag is gone, the trimmed new tag stands in
    its place once, and the other tags stay. *)
Theorem renameTagEverywhere_rewritten (st : AppState) (oldTag newTag : string) :
  clampStr oldTag <> EmptyString ->
  clampStr newTag <> EmptyString ->
  clampStr oldTag <> clampStr newTag ->
  obj_wf (tagCatalog st) ->
  Forall2 (renamedTo (clampStr oldTag) (clampStr newTag))
    (rewrittenCollections st)
    (rewrittenCollections (renameTagEverywhere oldTag newTag st)).
Proof.
  intros Ho Hn Hne Hwf.
  unfold renameTagEverywhere.
  apply String.eqb_neq in Ho, Hn. pose proof Hne as Hne'. apply String.eqb_neq in Hne'.
  rewrite Ho, Hn, Hne'. simpl orb. cbv iota.
  destruct st. unfold rewrittenCollections. simpl in *.
  rewrite (catalog_renamed _ _ _ Hwf).
  rewrite !map_map.
  apply Forall2_app; [| apply Forall2_app; [| apply Forall2_app]].
  - apply Forall2_map_pointwise. intros [c l] _. simpl.
    now apply replace_dedupe_renamedTo.
  - apply Forall2_map_pointwise. intros k _. simpl.
    now apply replace_dedupe_renamedTo.
  - apply Forall2_map_pointwise. intros e _. simpl.
    now apply replace_dedupe_renamedTo.
  - repeat (apply Forall2_cons || apply Forall2_nil);
      now apply replace_dedupe_renamedTo.
Qed.

(** The filter of the List View is not among them. *)
Theorem renameTagEverywhere_listFilterTags (st : AppState) (oldTag newTag : string) :
  listFilterTags (renameTagEverywhere oldTag newTag st) = listFilterTags st.
Proof.
  unfold renameTagEverywhere.
  destruct (_ || _ || _); [reflexivity |]. now destruct st.
Qed.

End Propagation.

(** C1.  After [renameTag(t, t2)] no collection should hold [t], the filter
    of the List View included.  On the state [filteredState], whose List View
    filter and kid filter both select [north], renaming [north] to [south]
    rewrites the kid filter and leaves [north] in the filter of the List
    View: a collection of the new state still holds the old tag, and the
    prior holder does not hold the new one. *)
Theorem C1_rename_leaves_listFilterTags :
  In "north" (listFilterTags filteredState)
  /\ In "north" (kidFilterTags filteredState)
  /\ kidFilterTags (renameTagEverywhere "north" "south" filteredState) = ["south"]
  /\ listFilterTags (renameTagEverywhere "north" "south" filteredState) = ["north"]
  /\ Exists (fun c => In "north" c)
       (allTagCollections (renameTagEverywhere "north" "south" filteredState)).
Proof.
  split; [now left |]. split; [now left |].
  split; [reflexivity |]. split; [reflexivity |].
  apply Exists_exists. exists ["north"]. split.
  - unfold allTagCollections. apply in_or_app. right. now left.
  - now left.
Qed.

Section Deletion.

Lemma filter_droppedFrom (t : string) (c : list string) :
  droppedFrom t c (filter (fun x => negb (String.eqb x t)) c).
Proof.
  induction c as [| x c IH]; simpl; [constructor |].
  destruct (String.eqb x t) eqn:E; simpl.
  - apply String.eqb_eq in E. subst x. now constructor.
  - apply String.eqb_neq in E. now constructor.
Qed.

Lemma droppedFrom_absent (t : string) (c c' : list string) :
  droppedFrom t c c' -> ~ In t c'.
Proof.
  induction 1 as [| c c' _ IH | x c c' Hx _ IH]; simpl; [tauto | exact IH |].
  intros [E | H]; [congruence | tauto].
Qed.

(** What the delete does where it is applied: each collection that it
    rewrites loses the trimmed tag and nothing else. *)
Theorem deleteTagEverywhere_rewritten (st : AppState) (tag : string) :
  clampStr tag <> EmptyString ->
  obj_wf (tagCatalog st) ->
  Forall2 (droppedFrom (clampStr tag))
    (rewrittenCollections st)
    (rewrittenCollections (deleteTagEverywhere tag st)).
Proof.
  intros Ht Hwf. unfold deleteTagEverywhere.
  apply String.eqb_neq in Ht. rewrite Ht.
  destruct st. unfold rewrittenCollections. simpl in *.
  rewrite (catalog_deleted _ _ Hwf).
  rewrite !map_map.
  apply Forall2_app; [| apply Forall2_app; [| apply Forall2_app]].
  - apply Forall2_map_pointwise. intros [c l] _. simpl. apply filter_droppedFrom.
  - apply Forall2_map_pointwise. intros k _. simpl. apply filter_droppedFrom.
  - apply Forall2_map_pointwise. intros e _. simpl. apply filter_droppedFrom.
  - repeat (apply Forall2_cons || apply Forall2_nil); apply filter_droppedFrom.
Qed.

(** Kids and events themselves stay: only the reference is dropped. *)
Theorem deleteTagEverywhere_keeps_entities (st : AppState) (tag : string) :
  map Kid.id (kids (deleteTagEverywhere tag st)) = map Kid.id (kids st)
  /\ map Event.id (events (deleteTagEverywhere tag st)) = map Event.id (events st).
Proof.
  unfold deleteTagEverywhere. destruct (String.eqb _ _); [now split |].
  destruct st; simpl. rewrite !map_map. simpl. now split.
Qed.

Theorem deleteTagEverywhere_listFilterTags (st : AppState) (tag : string) :
  listFilterTags (deleteTagEverywhere tag st) = listFilterTags st.
Proof.
  unfold deleteTagEverywhere. destruct (String.eqb _ _); [reflexivity |]. now destruct st.
Qed.

End Deletion.

(** C2.  After [deleteTag(t)] no collection should hold [t], the filter of
    the List View included.  On [filteredState], deleting [north] empties the
    kid filter of it and leaves it in the filter of the List View. *)
Theorem C2_delete_leaves_listFilterTags :
  In "north" (listFilterTags filteredState)
  /\ kidFilterTags (deleteTagEverywhere "north" filteredState) = []
  /\ listFilterTags (deleteTagEverywhere "north" filteredState) = ["north"]
  /\ Exists (fun c => In "north" c)
       (allTagCollections (deleteTagEverywhere "north" filteredState)).
Proof.
  split; [now left |]. split; [reflexivity |]. split; [reflexivity |].
  apply Exists_exists. exists ["north"]. split.
  - unfold allTagCollections. apply in_or_app. right. now left.
  - now left.
Qed.

(** * The stable sort *)

Section SortFacts.
Context {A : Type} (cmp : A -> A -> Z).

Lemma sort_insert_perm (x : A) (l : list A) : Permutation (sort_insert cmp x l) (x :: l).
Proof.
  induction l as [| y r IH]; simpl; [reflexivity |].
  destruct (cmp x y <=? 0); [reflexivity |].
  rewrite IH. apply perm_swap.
Qed.

Lemma Array_sort_perm (l : list A) : Permutation (Array_sort cmp l) l.
Proof.
  induction l as [| x r IH]; simpl; [reflexivity |].
  rewrite sort_insert_perm. now constructor.
Qed.


Lemma Array_sort_In (l : list A) (x : A) : In x (Array_sort cmp l) <-> In x l.
Proof.
  split; apply Permutation_in; [| symmetry]; apply Array_sort_perm.
Qed.

(** What the language asks of a comparator for the order of the result to
    be defined. *)
Hypothesis cmp_total : forall a b, 0 < cmp a b -> cmp b a <= 0.
Hypothesis cmp_trans : forall a b c, cmp a b <= 0 -> cmp b c <= 0 -> cmp a c <= 0.

Lemma sort_insert_sorted (x : A) (l : list A) :
  StronglySorted (fun a b => cmp a b <= 0) l ->
  StronglySorted (fun a b => cmp a b <= 0) (sort_insert cmp x l).
Proof.
  induction l as [| y r IH]; simpl; intros Hs.
  - constructor; constructor.
  - inversion Hs as [| ? ? Hr Hy]; subst.
    destruct (cmp x y <=? 0) eqn:E.
    + apply Z.leb_le in E. constructor; [assumption |].
      constructor; [assumption |].
      eapply Forall_impl; [| exact Hy]. intros z Hz. now apply (cmp_trans x y z).
    + apply Z.leb_gt in E. constructor; [now apply IH |].
      apply (Permutation_Forall (Permutation_sym (sort_insert_perm x r))).
      constructor; [now apply cmp_total | assumption].
Qed.

Lemma Array_sort_sorted (l : list A) :
  StronglySorted (fun a b => cmp a b <= 0) (Array_sort cmp l).
Proof.
  induction l as [| x r IH]; simpl; [constructor | now apply sort_insert_sorted].
Qed.

End SortFacts.

(** Sorting events by start: the comparator is a difference of numbers. *)
Lemma Array_sort_byStart_sorted (l : list Event.t) :
  StronglySorted (fun a b => Event.start a <= Event.start b) (Array_sort byStart l).
Proof.
  assert (H : StronglySorted (fun a b => byStart a b <= 0) (Array_sort byStart l)).
  { apply Array_sort_sorted; unfold byStart; intros; lia. }
  revert H. generalize (Array_sort byStart l). intros l'.
  induction 1 as [| a r _ IH Hf]; constructor; [assumption |].
  eapply Forall_impl; [| exact Hf]. unfold byStart. intros; lia.
Qed.

(** * The attention detector *)

Section Attention.

Lemma isNewMatch_newMatch (b : Z) (ev : Event.t) (p : Kid.t) :
  isNewMatch b ev p = true <-> newMatch b ev p.
Proof.
  unfold isNewMatch, newMatch.
  rewrite !andb_true_iff, !negb_true_iff, Set_has_false, Set_new_In, Z.leb_gt, Z.ltb_lt.
  intuition lia.
Qed.

Lemma count_loop (g : Kid.t -> bool) (ks : list Kid.t) (c0 : Z) :
  fold_left (fun c k => if g k then c + 1 else c) ks c0
  = c0 + Z.of_nat (length (filter g ks)).
Proof.
  revert c0. induction ks as [| k ks IH]; intros c0; simpl; [lia |].
  rewrite IH. destruct (g k); simpl length; lia.
Qed.


Lemma fold_left_pointwise {S T} (f g : S -> T -> S) (l : list T) (a : S) :
  (forall s t, f s t = g s t) -> fold_left f l a = fold_left g l a.
Proof.
  intros H. revert a. induction l as [| t l IH]; intros a; simpl; [reflexivity |].
  now rewrite H, IH.
Qed.

(** The badge counts the new matches of the event. *)
Lemma attentionCount_filter (ks : list Kid.t) (ev : Event.t) (b : Z) :
  Event.suggestedAt ev = Some b -> b <> 0 -> Event.tags ev <> [] ->
  attentionCount ks ev = Z.of_nat (length (filter (isNewMatch b ev) ks)).
Proof.
  intros Hb Hb0 Ht. unfold attentionCount. rewrite Hb.
  apply Z.eqb_neq in Hb0. rewrite Hb0.
  destruct (Set_size (Set_new (Event.tags ev)) =? 0) eqn:E.
  { apply Set_new_size_0 in E. contradiction. }
  rewrite (fold_left_pointwise _ (fun c k => if isNewMatch b ev k then c + 1 else c)).
  - exact (count_loop _ ks 0).
  - intros c k. unfold isNewMatch, overlap, Event.kidIds.
    destruct (Set_has _ (Kid.id k)); simpl; [reflexivity |].
    destruct (Kid.createdAt k <=? b); simpl; reflexivity.
Qed.

Lemma attentionCount_untriaged (ks : list Kid.t) (ev : Event.t) :
  Event.suggestedAt ev = None \/ Event.suggestedAt ev = Some 0 \/ Event.tags ev = [] ->
  attentionCount ks ev = 0.
Proof.
  unfold attentionCount. intros [-> | [-> | Ht]]; [reflexivity | reflexivity |].
  rewrite Ht. now destruct (_ =? 0).
Qed.






End Attention.

(** C3, as amended.  For an event whose [suggestedAt] is set to a time value
    [b] other than 0 and whose tags are not empty, the badge counts nothing
    on an empty roster, and a kid [p] placed anywhere in the roster adds one
    to the count exactly when [p.createdAt > b], [p] is not assigned and the
    intersection count of its tags with the event's is above 1; so a kid
    created at or before [b], or assigned, is never counted.  An event whose
    [suggestedAt] is unset or 0, or whose tags are empty, has count zero. *)
Theorem C3_attention_counts_new_matches (ev : Event.t) (l1 l2 : list Kid.t) (p : Kid.t) :
  (forall b, Event.suggestedAt ev = Some b -> b <> 0 -> Event.tags ev <> [] ->
     attentionCount [] ev = 0
     /\ (newMatch b ev p ->
         attentionCount (l1 ++ p :: l2) ev = attentionCount (l1 ++ l2) ev + 1)
     /\ (~ newMatch b ev p ->
         attentionCount (l1 ++ p :: l2) ev = attentionCount (l1 ++ l2) ev))
  /\ (Event.suggestedAt ev = None \/ Event.suggestedAt ev = Some 0 \/ Event.tags ev = [] ->
      forall ks, attentionCount ks ev = 0).
Proof.
  split.
  - intros b Hb Hb0 Ht.
    rewrite !(attentionCount_filter _ ev b Hb Hb0 Ht).
    rewrite !filter_app, !length_app. simpl filter.
    split; [reflexivity |]. split; intros H.
    + apply isNewMatch_newMatch in H. rewrite H. simpl length. lia.
    + destruct (isNewMatch b ev p) eqn:E; [| reflexivity].
      apply isNewMatch_newMatch in E. contradiction.
  - intros H ks. now apply attentionCount_untriaged.
Qed.

Lemma C3_attention_witness :
  attentionCount [northKid; lateKidBoth; lateKidOne] triagedEvent
  = attentionCount [northKid; lateKidOne] triagedEvent + 1.
Proof.
  refine (proj1 (proj2 (proj1
    (C3_attention_counts_new_matches triagedEvent [northKid] [lateKidOne] lateKidBoth)
    1000 eq_refl _ _)) _).
  - discriminate.
  - discriminate.
  - unfold newMatch. split; [reflexivity |]. split; [| reflexivity].
    simpl. intros [H | []]. discriminate H.
Defined.

(** C3 as stated fails where the baseline is the time value 0: the kid is
    created after it, is not assigned and shares two tags, and the count
    stays 0. *)
Lemma C3_counterexample_epoch_baseline :
  Event.suggestedAt epochEvent = Some 0
  /\ Event.tags epochEvent <> []
  /\ newMatch 0 epochEvent lateKidBoth
  /\ attentionCount [lateKidBoth] epochEvent = 0.
Proof.
  split; [reflexivity |]. split; [discriminate |]. split; [| reflexivity].
  unfold newMatch. split; [reflexivity |]. split; [| reflexivity].
  simpl. tauto.
Qed.


(** * Ranking of the candidates *)

Section StringFacts.

Lemma prefix_append (q s : string) :
  prefix q s = true <-> exists post, s = String.append q post.
Proof.
  revert q. induction s as [| c s IH]; intros q; destruct q as [| a q]; simpl.
  - split; [exists EmptyString; reflexivity | reflexivity].
  - split; [discriminate | intros [post H]; discriminate H].
  - split; [exists (String c s); reflexivity | reflexivity].
  - destruct (ascii_dec a c) as [-> | Hne].
    + rewrite IH. split; intros [post H]; exists post; congruence.
    + split; [discriminate | intros [post H]; congruence].
Qed.

Lemma includes_unfold (s q : string) :
  includes s q
  = if prefix q s then true
    else match s with EmptyString => false | String _ r => includes r q end.
Proof. destruct s; reflexivity. Qed.

Lemma includes_occursIn (s q : string) : includes s q = true <-> occursIn q s.
Proof.
  unfold occursIn. split.
  - induction s as [| c s IH]; rewrite includes_unfold;
      destruct (prefix q _) eqn:E.
    + intros _. apply prefix_append in E. destruct E as [post H].
      exists EmptyString, post. exact H.
    + discriminate.
    + intros _. apply prefix_append in E. destruct E as [post H].
      exists EmptyString, post. exact H.
    + intros H. destruct (IH H) as [pre [post Hs]].
      exists (String c pre), post. simpl. now rewrite Hs.
  - intros [pre [post H]]. subst s. induction pre as [| c pre IH].
    + rewrite includes_unfold.
      replace (prefix q _) with true; [reflexivity |].
      symmetry. apply prefix_append. now exists post.
    + rewrite includes_unfold. simpl String.append.
      destruct (prefix q _); [reflexivity | exact IH].
Qed.

Lemma searchHit_matchesSearch (query : string) (k : Kid.t) :
  searchHit (toLowerCase (trim query)) k = true <-> matchesSearch query k.
Proof.
  unfold searchHit, matchesSearch. cbv zeta.
  destruct (String.eqb _ EmptyString) eqn:E.
  - apply String.eqb_eq in E. split; [now left | reflexivity].
  - apply String.eqb_neq in E.
    rewrite orb_true_iff, includes_occursIn, existsb_exists.
    split.
    + intros [H | [t [Ht Hi]]]; [now (right; left) |].
      right; right. exists t. now rewrite <- includes_occursIn.
    + intros [H | [H | [t [Ht Hi]]]]; [contradiction | now left |].
      right. exists t. now rewrite includes_occursIn.
Qed.

End StringFacts.

Lemma filter_filter {A} (f g : A -> bool) (l : list A) :
  filter f (filter g l) = filter (fun x => g x && f x) l.
Proof.
  induction l as [| a l IH]; simpl; [reflexivity |].
  destruct (g a); simpl; [destruct (f a) |]; now rewrite IH.
Qed.

Lemma StronglySorted_impl {A} (R S : A -> A -> Prop) (l : list A) :
  (forall a b, R a b -> S a b) -> StronglySorted R l -> StronglySorted S l.
Proof.
  intros H. induction 1 as [| a l _ IH Hf]; constructor; [assumption |].
  eapply Forall_impl; [| exact Hf]. intros b. apply H.
Qed.

Lemma suggestedKids_candidates (lc : string -> string -> Z) (st : AppState) (ev : Event.t) :
  activeEventForSuggest st = Some ev ->
  suggestedKids lc st
  = Array_sort (byScoreThenName lc)
      (map (fun k => mkScored k (overlap k ev))
         (filter (isCandidate (toLowerCase (trim (suggestSearch st))) ev) (kids st))).
Proof.
  intros Hev. unfold suggestedKids, assignedKidIds. rewrite Hev. f_equal.
  rewrite filter_map_swap, !filter_filter. unfold overlap. f_equal.
  apply filter_ext. intros k. unfold isCandidate, overlap, Event.kidIds. simpl.
  now rewrite andb_assoc.
Qed.

Lemma isCandidate_spec (query : string) (ev : Event.t) (k : Kid.t) :
  isCandidate (toLowerCase (trim query)) ev k = true
  <-> ~ In (Kid.id k) (Event.kidIds ev) /\ matchesSearch query k /\ overlap k ev > 0.
Proof.
  unfold isCandidate.
  rewrite !andb_true_iff, negb_true_iff, Set_has_false, Set_new_In,
    searchHit_matchesSearch, Z.ltb_lt.
  intuition lia.
Qed.

Section Ranking.

Variable lc : string -> string -> Z.

(** [localeCompare] is a consistent comparator. *)
Hypothesis lc_total : forall a b, 0 < lc a b -> lc b a <= 0.
Hypothesis lc_trans : forall a b c, lc a b <= 0 -> lc b c <= 0 -> lc a c <= 0.

Lemma byScoreThenName_ranked (a b : Scored) :
  byScoreThenName lc a b <= 0 <-> rankedBefore lc a b.
Proof.
  unfold byScoreThenName, rankedBefore.
  destruct (Z.eqb_spec (score b - score a) 0) as [E | E]; intuition lia.
Qed.

Lemma byScoreThenName_total (a b : Scored) :
  0 < byScoreThenName lc a b -> byScoreThenName lc b a <= 0.
Proof.
  unfold byScoreThenName.
  destruct (Z.eqb_spec (score b - score a) 0) as [E1 | E1];
    destruct (Z.eqb_spec (score a - score b) 0) as [E2 | E2]; try lia.
  apply lc_total.
Qed.

Lemma byScoreThenName_trans (a b c : Scored) :
  byScoreThenName lc a b <= 0 -> byScoreThenName lc b c <= 0 ->
  byScoreThenName lc a c <= 0.
Proof.
  rewrite !byScoreThenName_ranked. unfold rankedBefore.
  intros [H1 | [H1 L1]] [H2 | [H2 L2]]; try (left; lia).
  right. split; [lia |]. eapply lc_trans; eassumption.
Qed.

(** C6, as amended.  With the suggestion dialog open on [ev], the list
    holds exactly the kids of the roster that are not assigned to [ev],
    that match the search text after it is trimmed and lower-cased (every
    kid matches a text that is empty once trimmed; otherwise the text
    occurs in the lower-cased name or in a lower-cased tag) and whose score
    is above 0, each as often as in the roster and with its score; the
    list is ordered by descending score, ties broken by ascending name in
    the order of [localeCompare]. *)
Theorem C6_suggestedKids_ranked (st : AppState) (ev : Event.t) :
  activeEventForSuggest st = Some ev ->
  (forall x, In x (suggestedKids lc st)
     <-> In (kid x) (kids st)
         /\ ~ In (Kid.id (kid x)) (Event.kidIds ev)
         /\ matchesSearch (suggestSearch st) (kid x)
         /\ score x = overlap (kid x) ev
         /\ score x > 0)
  /\ Permutation (map kid (suggestedKids lc st))
       (filter (isCandidate (toLowerCase (trim (suggestSearch st))) ev) (kids st))
  /\ StronglySorted (rankedBefore lc) (suggestedKids lc st).
Proof.
  intros Hev. rewrite (suggestedKids_candidates lc st ev Hev).
  split; [| split].
  - intros x. rewrite Array_sort_In, in_map_iff. split.
    + intros [k [<- Hk]]. simpl. apply filter_In in Hk. destruct Hk as [Hin Hc].
      apply isCandidate_spec in Hc. intuition.
    + intros (Hin & Hna & Hm & Hs & Hpos). exists (kid x). split.
      * destruct x as [k s]. simpl in *. now subst s.
      * apply filter_In. split; [assumption |].
        apply isCandidate_spec. intuition lia.
  - rewrite (Permutation_map kid (Array_sort_perm _ _)).
    rewrite map_map. simpl. now rewrite map_id.
  - eapply StronglySorted_impl; [| apply Array_sort_sorted].
    + intros a b. apply byScoreThenName_ranked.
    + apply byScoreThenName_total.
    + apply byScoreThenName_trans.
Qed.

End Ranking.

(** The order of the character codes is a consistent comparator. *)
Lemma codeUnitCompare_total (a b : string) :
  0 < codeUnitCompare a b -> codeUnitCompare b a <= 0.
Proof.
  unfold codeUnitCompare. rewrite (String.compare_antisym b a).
  destruct (String.compare a b); simpl; lia.
Qed.

Lemma codeUnitCompare_trans (a b c : string) :
  codeUnitCompare a b <= 0 -> codeUnitCompare b c <= 0 -> codeUnitCompare a c <= 0.
Proof.
  unfold codeUnitCompare.
  destruct (String.compare a b) eqn:Eab; [| | lia].
  - apply String.compare_eq_iff in Eab. now subst b.
  - destruct (String.compare b c) eqn:Ebc; [| | lia].
    + apply String.compare_eq_iff in Ebc. subst c. rewrite Eab. lia.
    + intros _ _.
      apply String_as_OT.cmp_lt in Eab, Ebc.
      pose proof (String_as_OT.lt_trans _ _ _ Eab Ebc) as H.
      apply String_as_OT.cmp_lt in H. unfold String_as_OT.cmp in H. rewrite H. lia.
Qed.

Lemma C6_ranked_witness :
  activeEventForSuggest suggestState = Some northSouthEvent
  /\ StronglySorted (rankedBefore codeUnitCompare) (suggestedKids codeUnitCompare suggestState).
Proof.
  split; [reflexivity |].
  exact (proj2 (proj2
    (C6_suggestedKids_ranked codeUnitCompare codeUnitCompare_total codeUnitCompare_trans
       suggestState northSouthEvent eq_refl))).
Defined.

Example suggestState_ranking :
  suggestedKids codeUnitCompare suggestState
  = [mkScored lateKidBoth 2; mkScored northKid 1].
Proof. reflexivity. Qed.

(** C6 as stated fails on a search text of one space: the text is not
    empty and occurs neither in the name nor in a tag of [P1], and [P1] is
    listed all the same, because the text is trimmed first. *)
Lemma C6_counterexample_blank_query :
  suggestSearch blankSearchState <> EmptyString
  /\ ~ occursIn (toLowerCase (suggestSearch blankSearchState))
         (toLowerCase (Kid.name northKid))
  /\ ~ (exists t, In t (Kid.tags northKid)
          /\ occursIn (toLowerCase (suggestSearch blankSearchState)) (toLowerCase t))
  /\ suggestedKids codeUnitCompare blankSearchState = [mkScored northKid 1].
Proof.
  split; [discriminate |]. split; [| split; [| reflexivity]].
  - rewrite <- includes_occursIn. discriminate.
  - intros [t [[<- | []] H]]. apply includes_occursIn in H. discriminate H.
Qed.

(** * Confirming an assignment *)

Section Confirmation.

Lemma find_map_preserved {A} (p : A -> bool) (f : A -> A) (l : list A) (a : A) :
  (forall x, p (f x) = p x) -> find p l = Some a -> find p (map f l) = Some (f a).
Proof.
  intros Hp. induction l as [| x l IH]; simpl; [discriminate |].
  rewrite Hp. destruct (p x); [congruence | exact IH].
Qed.

(** The ticked boxes of a well-formed selection have distinct ids. *)
Lemma ticked_keys_NoDup (sel : JSObject bool) (ticked : string * bool -> bool) :
  obj_wf sel -> NoDup (map fst (filter ticked sel)).
Proof.
  unfold obj_wf. intros Hwf. induction sel as [| [k v] sel IH]; simpl; [constructor |].
  inversion Hwf as [| ? ? Hfresh Hrest]; subst.
  destruct (ticked (k, v)); simpl; [| exact (IH Hrest)].
  constructor; [| exact (IH Hrest)].
  intros Hin. apply Hfresh. apply in_map_iff in Hin.
  destruct Hin as [[k0 v0] [Hk Hf]]. simpl in Hk. subst k0.
  apply filter_In in Hf. apply in_map_iff. exists (k, v0). tauto.
Qed.

Lemma activeEventForSuggest_id (st : AppState) (ev : Event.t) :
  activeEventForSuggest st = Some ev ->
  activeEventIdForSuggest st = Some (Event.id ev) /\ In ev (events st).
Proof.
  unfold activeEventForSuggest, findEvent.
  destruct (activeEventIdForSuggest st) as [i |]; [| discriminate].
  intros H. apply find_some in H. destruct H as [Hin He].
  apply String.eqb_eq in He. now subst i.
Qed.

(** The event of the dialog after the confirmation, and what was added. *)
Lemma confirmSuggested_event (now : Z) (st : AppState) (ev : Event.t) :
  activeEventForSuggest st = Some ev ->
  exists added,
    findEvent (events (confirmSuggested now st)) (Some (Event.id ev))
    = Some (confirmedWith now added ev)
    /\ Forall (fun p => status p = 0) added
    /\ (forall i, In i (map kidId added)
          <-> In (i, true) (Object_entries (suggestSelection st))
              /\ ~ In i (Event.kidIds ev))
    /\ (obj_wf (suggestSelection st) -> NoDup (map kidId added)).
Proof.
  intros Hev.
  destruct (activeEventForSuggest_id st ev Hev) as [Hid _].
  unfold confirmSuggested. rewrite Hev.
  set (picked := map fst (filter (fun '(_, v) => v) (Object_entries (suggestSelection st)))).
  set (keep := fun id => negb (Set_has (Set_new (map kidId (Event.participants ev))) id)).
  exists (map (fun id => mkParticipation id 0) (filter keep picked)).
  assert (Hids : map kidId (map (fun id => mkParticipation id 0) (filter keep picked))
                 = filter keep picked).
  { rewrite map_map. simpl. apply map_id. }
  split; [| split; [| split]].
  - unfold activeEventForSuggest in Hev. rewrite Hid in Hev. simpl in Hev.
    destruct st; simpl in *.
    apply (find_map_preserved
             (fun e => String.eqb (Event.id e) (Event.id ev))
             (fun e => if String.eqb (Event.id e) (Event.id ev)
                       then confirmedWith now
                              (map (fun id => mkParticipation id 0) (filter keep picked)) e
                       else e)) in Hev.
    + rewrite String.eqb_refl in Hev. exact Hev.
    + intros x. destruct (String.eqb (Event.id x) (Event.id ev)) eqn:E; simpl; now rewrite E.
  - apply Forall_forall. intros p Hp. apply in_map_iff in Hp.
    destruct Hp as [i [<- _]]. reflexivity.
  - intros i. rewrite Hids, filter_In. unfold keep, picked, Event.kidIds, Object_entries.
    rewrite negb_true_iff, Set_has_false, Set_new_In, in_map_iff.
    split.
    + intros [[[k v] [Hk Hf]] Hn]. simpl in Hk. subst k.
      apply filter_In in Hf. destruct Hf as [Hin Hv]. subst v. tauto.
    + intros [Hin Hn]. split; [| assumption].
      exists (i, true). split; [reflexivity |]. apply filter_In. tauto.
  - intros Hwf. rewrite Hids. apply NoDup_filter. unfold picked.
    now apply ticked_keys_NoDup.
Qed.

End Confirmation.

Lemma pickingState_active (eventId : string) (sel : JSObject bool) (st : AppState) :
  activeEventForSuggest (pickingState eventId sel st) = findEvent (events st) (Some eventId)
  /\ suggestSelection (pickingState eventId sel st) = sel.
Proof. destruct st. split; reflexivity. Qed.

Lemma confirmSuggested_step (now : Z) (st : AppState) (ev : Event.t) :
  activeEventForSuggest st = Some ev ->
  obj_wf (suggestSelection st) ->
  NoDup (Event.kidIds ev) ->
  exists added,
    findEvent (events (confirmSuggested now st)) (Some (Event.id ev))
    = Some (confirmedWith now added ev)
    /\ Forall (fun p => status p = 0) added
    /\ (forall i, In i (map kidId added)
          <-> In (i, true) (Object_entries (suggestSelection st))
              /\ ~ In i (Event.kidIds ev))
    /\ NoDup (map kidId added)
    /\ NoDup (Event.kidIds (confirmedWith now added ev)).
Proof.
  intros Hev Hwf Hnd.
  destruct (confirmSuggested_event now st ev Hev) as (added & Hfind & Hst & Hin & Hnd').
  exists added. split; [exact Hfind |]. split; [exact Hst |].
  split; [exact Hin |]. split; [exact (Hnd' Hwf) |].
  unfold Event.kidIds, confirmedWith. simpl. rewrite map_app.
  apply NoDup_app; [exact Hnd | exact (Hnd' Hwf) |].
  intros i Hi Hi'. apply Hin in Hi'. now apply (proj2 Hi').
Qed.

(** C4.  [confirmSuggested] appends one participation of status 0 (pending)
    for each ticked id that is not yet in the participant list of the
    event, and for no other id, so a list without a repeated [kidId] stays
    so.  It stays so when the dialog is opened on the event again and
    confirmed with any second selection: that confirmation appends exactly
    the ids ticked the second time that were neither participants before
    nor ticked the first time. *)
Theorem C4_confirm_no_duplicate_participation (now : Z) (st : AppState) (ev : Event.t) :
  activeEventForSuggest st = Some ev ->
  obj_wf (suggestSelection st) ->
  NoDup (Event.kidIds ev) ->
  exists added,
    findEvent (events (confirmSuggested now st)) (Some (Event.id ev))
    = Some (confirmedWith now added ev)
    /\ Forall (fun p => status p = 0) added
    /\ (forall i, In i (map kidId added)
          <-> In (i, true) (Object_entries (suggestSelection st))
              /\ ~ In i (Event.kidIds ev))
    /\ NoDup (map kidId added)
    /\ NoDup (Event.kidIds (confirmedWith now added ev))
    /\ forall (now2 : Z) (sel2 : JSObject bool),
         obj_wf sel2 ->
         exists added2,
           findEvent
             (events (confirmSuggested now2
                        (pickingState (Event.id ev) sel2 (confirmSuggested now st))))
             (Some (Event.id ev))
           = Some (confirmedWith now2 added2 (confirmedWith now added ev))
           /\ Forall (fun p => status p = 0) added2
           /\ (forall i, In i (map kidId added2)
                 <-> In (i, true) (Object_entries sel2)
                     /\ ~ In i (Event.kidIds ev)
                     /\ ~ In (i, true) (Object_entries (suggestSelection st)))
           /\ NoDup (map kidId added2)
           /\ NoDup (Event.kidIds (confirmedWith now2 added2 (confirmedWith now added ev))).
Proof.
  intros Hev Hwf Hnd.
  destruct (confirmSuggested_step now st ev Hev Hwf Hnd)
    as (added & Hfind & Hst & Hin & Hnda & Hnd1).
  exists added. do 5 (split; [assumption |]).
  intros now2 sel2 Hwf2.
  destruct (pickingState_active (Event.id ev) sel2 (confirmSuggested now st)) as [Hact Hsel].
  rewrite Hfind in Hact.
  destruct (confirmSuggested_step now2 _ _ Hact) as (added2 & Hfind2 & Hst2 & Hin2 & Hnda2 & Hnd2).
  - now rewrite Hsel.
  - exact Hnd1.
  - exists added2. split; [exact Hfind2 |]. split; [exact Hst2 |].
    split; [| split; [exact Hnda2 | exact Hnd2]].
    intros i. rewrite Hin2, Hsel.
    unfold Event.kidIds at 1. unfold confirmedWith at 1. simpl.
    rewrite map_app, in_app_iff. fold (Event.kidIds ev). rewrite (Hin i).
    tauto.
Qed.

Lemma overlapPickState_wf : obj_wf (suggestSelection overlapPickState).
Proof.
  unfold obj_wf. simpl. repeat constructor; simpl; intuition discriminate.
Qed.

Lemma secondPick_wf : obj_wf secondPick.
Proof.
  unfold obj_wf. simpl. repeat constructor; simpl; intuition discriminate.
Qed.

Lemma joinedEvent_NoDup : NoDup (Event.kidIds joinedEvent).
Proof. repeat constructor. intros []. Qed.

Lemma C4_confirm_witness :
  exists added added2,
    findEvent (events (confirmSuggested 1000 overlapPickState)) (Some "e1")
    = Some (confirmedWith 1000 added joinedEvent)
    /\ (forall i, In i (map kidId added)
          <-> In (i, true) (Object_entries (suggestSelection overlapPickState))
              /\ ~ In i (Event.kidIds joinedEvent))
    /\ findEvent
         (events (confirmSuggested 2000
                    (pickingState "e1" secondPick (confirmSuggested 1000 overlapPickState))))
         (Some "e1")
       = Some (confirmedWith 2000 added2 (confirmedWith 1000 added joinedEvent))
    /\ (forall i, In i (map kidId added2)
          <-> In (i, true) (Object_entries secondPick)
              /\ ~ In i (Event.kidIds joinedEvent)
              /\ ~ In (i, true) (Object_entries (suggestSelection overlapPickState)))
    /\ NoDup (Event.kidIds (confirmedWith 2000 added2 (confirmedWith 1000 added joinedEvent))).
Proof.
  destruct (C4_confirm_no_duplicate_participation 1000 overlapPickState joinedEvent
              eq_refl overlapPickState_wf joinedEvent_NoDup)
    as (added & Hfind & _ & Hin & _ & _ & Hsecond).
  destruct (Hsecond 2000 secondPick secondPick_wf)
    as (added2 & Hfind2 & _ & Hin2 & _ & Hnd2).
  exists added, added2. split; [exact Hfind |]. split; [exact Hin |].
  split; [exact Hfind2 |]. split; [exact Hin2 | exact Hnd2].
Defined.

(** The two confirmations of the witness: [P1], assigned and ticked, is not
    appended; [P2], ticked both times, is appended once; [P3], unticked the
    first time, is appended by the second confirmation. *)
Example overlapPickState_confirmed_twice :
  events (confirmSuggested 1000 overlapPickState)
  = [Event.mk "e1" "E1" 64800000 118800000 ["north"; "south"]
       [mkParticipation "k1" 1; mkParticipation "k2" 0] (Some 1000) []]
  /\ events (confirmSuggested 2000
               (pickingState "e1" secondPick (confirmSuggested 1000 overlapPickState)))
     = [Event.mk "e1" "E1" 64800000 118800000 ["north"; "south"]
          [mkParticipation "k1" 1; mkParticipation "k2" 0; mkParticipation "k3" 0]
          (Some 1000) []].
Proof. split; reflexivity. Qed.

Example pickedState_confirmed :
  events (confirmSuggested 1000 pickedState)
  = [Event.mk "e1" "E1" 64800000 118800000 ["north"; "south"]
       [mkParticipation "k1" 0] (Some 1000) []].
Proof. reflexivity. Qed.

(** C5.  A confirmation keeps every event in its place with its id, and an
    event whose [suggestedAt] is set keeps that value: the baseline records
    the first confirmation. *)
Theorem C5_confirm_keeps_baseline (now : Z) (st : AppState) :
  Forall2 (fun e e' =>
             Event.id e' = Event.id e
             /\ forall b, Event.suggestedAt e = Some b -> Event.suggestedAt e' = Some b)
    (events st) (events (confirmSuggested now st)).
Proof.
  unfold confirmSuggested.
  destruct (activeEventForSuggest st) as [ev |].
  - destruct st; simpl. rewrite <- (map_id events0) at 1.
    apply Forall2_map_pointwise. intros e _. simpl.
    destruct (String.eqb (Event.id e) (Event.id ev)); simpl.
    + split; [reflexivity |]. intros b ->. reflexivity.
    + split; [reflexivity | auto].
  - rewrite <- (map_id (events st)) at 1. rewrite <- (map_id (events st)) at 2.
    apply Forall2_map_pointwise. intros e _. split; [reflexivity | auto].
Qed.

Lemma C5_baseline_witness :
  exists e', events (confirmSuggested 2000 repickedState) = [e']
             /\ Event.suggestedAt e' = Some 1000.
Proof.
  pose proof (C5_confirm_keeps_baseline 2000 repickedState) as H.
  cbv in H. inversion_clear H as [| e e' l l' [_ Hb] _].
  eexists. split; [reflexivity |]. apply Hb. reflexivity.
Defined.

(** C10.  When the event of the dialog has no [suggestedAt] and every ticked
    id is already a participant (in particular when nothing is ticked), the
    confirmation sets [suggestedAt] to the current time and leaves the
    participant list, and the rest of the event, as it was. *)
Theorem C10_confirm_nothing_sets_baseline (now : Z) (st : AppState) (ev : Event.t) :
  activeEventForSuggest st = Some ev ->
  Event.suggestedAt ev = None ->
  (forall i, In (i, true) (Object_entries (suggestSelection st)) -> In i (Event.kidIds ev)) ->
  findEvent (events (confirmSuggested now st)) (Some (Event.id ev))
  = Some (Event.mk (Event.id ev) (Event.title ev) (Event.start ev) (Event.end_ ev)
            (Event.tags ev) (Event.participants ev) (Some now) (Event.suggestNotes ev)).
Proof.
  intros Hev Hnone Hpicks.
  destruct (confirmSuggested_event now st ev Hev) as (added & Hfind & _ & Hin & _).
  rewrite Hfind. unfold confirmedWith. rewrite Hnone.
  assert (Hnil : added = []).
  { destruct added as [| p added]; [reflexivity |].
    exfalso. assert (Hp : In (kidId p) (map kidId (p :: added))) by now left.
    apply Hin in Hp. destruct Hp as [Hsel Hnot]. apply Hnot, Hpicks, Hsel. }
  rewrite Hnil, app_nil_r. reflexivity.
Qed.

Lemma C10_confirm_nothing_witness :
  findEvent (events (confirmSuggested 1000 nothingPickedState)) (Some "e1")
  = Some (Event.mk "e1" "E1" 64800000 118800000 ["north"; "south"] [] (Some 1000) []).
Proof.
  apply (C10_confirm_nothing_sets_baseline 1000 nothingPickedState northSouthEvent).
  - reflexivity.
  - reflexivity.
  - simpl. intros i [].
Defined.

(** * Creating an event *)

(** The requests that [createEvent] refuses: a title that is empty once
    trimmed, or two dates that the host reads with the start not before the
    end.  The alert is shown and the state handed back is the state
    received. *)
Lemma createEvent_refuses
  (combineDateTime : string -> string -> option Z) (uuid : string) (st : AppState) :
  clampStr (evTitle st) = EmptyString
  \/ (exists s e,
        combineDateTime (evStartDate st) (evStartTime st) = Some s
        /\ combineDateTime (evEndDate st) (evEndTime st) = Some e
        /\ ~ s < e) ->
  exists reason,
    createEvent combineDateTime uuid st = Done st (Some reason)
    /\ reason <> EmptyString.
Proof.
  intros H. unfold createEvent.
  destruct (String.eqb (clampStr (evTitle st)) EmptyString) eqn:Et.
  - exists alertTitleMissing. split; [reflexivity | discriminate].
  - destruct H as [H | (s & e & Hs & He & Hse)].
    + apply String.eqb_neq in Et. contradiction.
    + rewrite Hs, He.
      replace (s >=? e) with true by (symmetry; apply Z.geb_le; lia).
      exists alertStartNotBeforeEnd. split; [reflexivity | discriminate].
Qed.

Example backwardsForm_refused :
  createEvent readFormDate "e2" backwardsForm
  = Done backwardsForm (Some alertStartNotBeforeEnd).
Proof. reflexivity. Qed.

(** C9.  A request whose start is not strictly before its end should be
    refused with a reason and without a write.  When the title is not blank
    and the start or the end of the form is an Invalid Date (a cleared date
    or time field), the start is not before the end, and yet [createEvent]
    shows no alert and does not hand back the state it received: it stores
    the event with the dates as they are, clears the title and opens the
    suggestion dialog on the new event. *)
Theorem C9_createEvent_stores_invalid_date
  (combineDateTime : string -> string -> option Z) (uuid : string) (st : AppState) :
  clampStr (evTitle st) <> EmptyString ->
  combineDateTime (evStartDate st) (evStartTime st) = None
  \/ combineDateTime (evEndDate st) (evEndTime st) = None ->
  createEvent combineDateTime uuid st
  = StoredInvalidDate (openSuggestForEvent uuid (set_evTitle (fun _ => EmptyString) st))
      (combineDateTime (evStartDate st) (evStartTime st))
      (combineDateTime (evEndDate st) (evEndTime st))
  /\ (forall st' reason, createEvent combineDateTime uuid st <> Done st' (Some reason))
  /\ evTitle (openSuggestForEvent uuid (set_evTitle (fun _ => EmptyString) st)) = EmptyString
  /\ activeEventIdForSuggest
       (openSuggestForEvent uuid (set_evTitle (fun _ => EmptyString) st)) = Some uuid.
Proof.
  intros Ht Hinv.
  assert (E : createEvent combineDateTime uuid st
              = StoredInvalidDate
                  (openSuggestForEvent uuid (set_evTitle (fun _ => EmptyString) st))
                  (combineDateTime (evStartDate st) (evStartTime st))
                  (combineDateTime (evEndDate st) (evEndTime st))).
  { unfold createEvent. apply String.eqb_neq in Ht. rewrite Ht.
    destruct Hinv as [H | H]; rewrite H.
    - reflexivity.
    - now destruct (combineDateTime (evStartDate st) (evStartTime st)). }
  split; [exact E |]. split; [intros st' reason; rewrite E; discriminate |].
  destruct st; split; reflexivity.
Qed.

Lemma C9_invalid_date_witness :
  createEvent readFormDate "e2" clearedDateForm
  = StoredInvalidDate
      (openSuggestForEvent "e2" (set_evTitle (fun _ => EmptyString) clearedDateForm))
      None (Some 86400000).
Proof.
  refine (proj1 (C9_createEvent_stores_invalid_date readFormDate "e2" clearedDateForm _ _)).
  - discriminate.
  - left. reflexivity.
Defined.

(** The accepted request, for comparison: the event is appended, the title
    is cleared and the suggestion dialog opens on the new event. *)
Lemma createEvent_accepts (combineDateTime : string -> string -> option Z)
  (uuid : string) (st : AppState) (s e : Z) :
  clampStr (evTitle st) <> EmptyString ->
  combineDateTime (evStartDate st) (evStartTime st) = Some s ->
  combineDateTime (evEndDate st) (evEndTime st) = Some e ->
  s < e ->
  exists st',
    createEvent combineDateTime uuid st = Done st' None
    /\ events st'
       = events st ++ [Event.mk uuid (clampStr (evTitle st)) s e (evTags st) [] None []]
    /\ activeEventIdForSuggest st' = Some uuid.
Proof.
  intros Ht Hs He Hlt. unfold createEvent.
  apply String.eqb_neq in Ht. rewrite Ht, Hs, He.
  replace (s >=? e) with false by (rewrite Z.geb_leb; symmetry; apply Z.leb_gt; lia).
  eexists. split; [reflexivity |]. destruct st; split; reflexivity.
Qed.

(** * Grouping by day *)

Section MapFacts.
Context {V : Type}.

Lemma map_get_set_same (m : JSMap V) (k : Z) (v : V) : map_get (map_set k v m) k = Some v.
Proof.
  induction m as [| [k' v'] m IH]; simpl.
  - now rewrite Z.eqb_refl.
  - destruct (k' =? k) eqn:E; simpl; rewrite E; [reflexivity | exact IH].
Qed.

Lemma map_get_set_other (m : JSMap V) (k k0 : Z) (v : V) :
  k <> k0 -> map_get (map_set k v m) k0 = map_get m k0.
Proof.
  intros Hne. induction m as [| [k' v'] m IH]; simpl.
  - destruct (Z.eqb_spec k k0); [contradiction | reflexivity].
  - destruct (Z.eqb_spec k' k) as [-> | Hk]; simpl.
    + destruct (Z.eqb_spec k k0); [contradiction | reflexivity].
    + now rewrite IH.
Qed.

Lemma map_set_keys (m : JSMap V) (k : Z) (v : V) :
  map fst (map_set k v m) = map fst m
  \/ (~ In k (map fst m) /\ map fst (map_set k v m) = map fst m ++ [k]).
Proof.
  induction m as [| [k' v'] m IH]; simpl.
  - right. split; [tauto | reflexivity].
  - destruct (Z.eqb_spec k' k) as [-> | Hk]; simpl; [now left |].
    destruct IH as [-> | [Hn ->]]; [now left |].
    right. split; [| reflexivity]. intros [E | Hin]; [contradiction | tauto].
Qed.

Lemma map_set_NoDup (m : JSMap V) (k : Z) (v : V) :
  NoDup (map fst m) -> NoDup (map fst (map_set k v m)).
Proof.
  intros H. destruct (map_set_keys m k v) as [-> | [Hn ->]]; [assumption |].
  apply NoDup_app; [assumption | repeat constructor; intros [] |].
  intros a Ha [<- | []]. contradiction.
Qed.

Lemma map_get_In (m : JSMap V) (k : Z) (v : V) :
  NoDup (map fst m) -> (In (k, v) m <-> map_get m k = Some v).
Proof.
  induction m as [| [k' v'] m IH]; simpl; intros Hnd.
  - split; [tauto | discriminate].
  - inversion Hnd as [| ? ? Hnot Hnd']; subst.
    destruct (Z.eqb_spec k' k) as [-> | Hk].
    + split.
      * intros [E | Hin]; [congruence |].
        exfalso. apply Hnot. apply in_map_iff. now exists (k, v).
      * intros E. left. congruence.
    + rewrite <- (IH Hnd'). split; [intros [E | Hin]; [congruence | assumption] | tauto].
Qed.

End MapFacts.

Section Buckets.

Lemma bucketOf_pushAt (m : JSMap (list Event.t)) (key k : Z) (ev : Event.t) :
  bucketOf (pushAt key ev m) k
  = if k =? key then bucketOf m key ++ [ev] else bucketOf m k.
Proof.
  unfold bucketOf, pushAt, map_has.
  destruct (Z.eqb_spec k key) as [-> | Hk].
  - rewrite map_get_set_same.
    destruct (map_get m key) eqn:E; [now rewrite E |].
    now rewrite map_get_set_same.
  - rewrite map_get_set_other by congruence.
    destruct (map_get m key) eqn:E; [reflexivity |].
    now rewrite map_get_set_other by congruence.
Qed.

Lemma pushAt_NoDup (m : JSMap (list Event.t)) (key : Z) (ev : Event.t) :
  NoDup (map fst m) -> NoDup (map fst (pushAt key ev m)).
Proof.
  intros H. unfold pushAt. apply map_set_NoDup.
  destruct (map_has m key); [assumption | now apply map_set_NoDup].
Qed.

Lemma ymd_of_day (a : Z) : ymd (a * msPerDay) = a.
Proof. unfold ymd, msPerDay. now rewrite Z.div_mul. Qed.

Lemma addDays_of_day (a : Z) : addDays (a * msPerDay) 1 = (a + 1) * msPerDay.
Proof. unfold addDays. lia. Qed.

Lemma day_le (a b : Z) : (a * msPerDay <=? b * msPerDay) = (a <=? b).
Proof.
  unfold msPerDay.
  destruct (Z.leb_spec a b); [apply Z.leb_le | apply Z.leb_gt]; lia.
Qed.

(** The loop over the days pushes the event once at each day from [a] to
    [b], as far as the fuel goes. *)
Lemma dayLoop_bucket (fuel : nat) (a b : Z) (ev : Event.t) (m : JSMap (list Event.t))
  (k : Z) :
  bucketOf (dayLoop fuel (a * msPerDay) (b * msPerDay) ev m) k
  = bucketOf m k
    ++ (if (a <=? k) && (k <=? b) && (k <? a + Z.of_nat fuel) then [ev] else []).
Proof.
  revert a m. induction fuel as [| fuel IH]; intros a m.
  - simpl dayLoop.
    replace ((a <=? k) && (k <=? b) && (k <? a + Z.of_nat 0)) with false.
    + now rewrite app_nil_r.
    + symmetry. apply andb_false_iff. 
      destruct (Z.leb_spec a k); [right; apply Z.ltb_ge; lia | left; reflexivity].
  - simpl dayLoop. rewrite day_le.
    destruct (Z.leb_spec a b) as [Hab | Hab].
    + rewrite addDays_of_day, ymd_of_day, IH, bucketOf_pushAt.
      destruct (Z.eqb_spec k a) as [-> | Hk].
      * replace ((a + 1 <=? a) && (a <=? b) && (a <? a + 1 + Z.of_nat fuel)) with false
          by (symmetry; apply andb_false_iff; left; apply andb_false_iff; left;
              apply Z.leb_gt; lia).
        replace ((a <=? a) && (a <=? b) && (a <? a + Z.of_nat (S fuel))) with true.
        { now rewrite app_nil_r. }
        symmetry. rewrite !andb_true_iff, !Z.leb_le, Z.ltb_lt. lia.
      * f_equal.
        replace ((a + 1 <=? k) && (k <=? b) && (k <? a + 1 + Z.of_nat fuel))
          with ((a <=? k) && (k <=? b) && (k <? a + Z.of_nat (S fuel))); [reflexivity |].
        destruct (Z.leb_spec a k), (Z.leb_spec (a + 1) k), (Z.leb_spec k b),
          (Z.ltb_spec k (a + Z.of_nat (S fuel))), (Z.ltb_spec k (a + 1 + Z.of_nat fuel));
          simpl; try reflexivity; lia.
    + replace ((a <=? k) && (k <=? b) && (k <? a + Z.of_nat (S fuel))) with false.
      * now rewrite app_nil_r.
      * symmetry. destruct (Z.leb_spec a k), (Z.leb_spec k b); simpl; try reflexivity. lia.
Qed.

(** The fuel given to the loop is enough: with more, the loop does the
    same. *)
Lemma dayLoop_enough (fuel : nat) (a b : Z) (ev : Event.t) (m : JSMap (list Event.t)) :
  b - a + 1 <= Z.of_nat fuel ->
  dayLoop fuel (a * msPerDay) (b * msPerDay) ev m
  = dayLoop (Z.to_nat (b - a + 1)) (a * msPerDay) (b * msPerDay) ev m.
Proof.
  revert a m. induction fuel as [| fuel IH]; intros a m Hf.
  - replace (Z.to_nat (b - a + 1)) with O by lia. reflexivity.
  - destruct (Z.leb_spec a b) as [Hab | Hab].
    + replace (Z.to_nat (b - a + 1)) with (S (Z.to_nat (b - (a + 1) + 1))) by lia.
      simpl dayLoop. rewrite day_le.
      replace (a <=? b) with true by (symmetry; apply Z.leb_le; lia).
      rewrite addDays_of_day. apply IH. lia.
    + replace (Z.to_nat (b - a + 1)) with O by lia.
      simpl dayLoop. rewrite day_le.
      now replace (a <=? b) with false by (symmetry; apply Z.leb_gt; lia).
Qed.

Lemma dayLoopTurns_days (a b : Z) :
  dayLoopTurns (a * msPerDay) (b * msPerDay) = Z.to_nat (b - a + 1).
Proof.
  unfold dayLoopTurns. f_equal. f_equal.
  replace (b * msPerDay - a * msPerDay) with ((b - a) * msPerDay) by lia.
  unfold msPerDay. now rewrite Z.div_mul.
Qed.

End Buckets.

Section DayGrouping.

Lemma atStartOfDay_day (t : Z) : atStartOfDay t = ymd t * msPerDay.
Proof. reflexivity. Qed.

Lemma ymd_atStartOfDay (t : Z) : ymd (atStartOfDay t) = ymd t.
Proof. rewrite atStartOfDay_day. apply ymd_of_day. Qed.

(** One event of the month grid: it is pushed at each day it touches. *)
Lemma event_days_bucket (ev : Event.t) (m : JSMap (list Event.t)) (k : Z) :
  bucketOf
    (dayLoop (dayLoopTurns (atStartOfDay (Event.start ev)) (atStartOfDay (Event.end_ ev)))
       (atStartOfDay (Event.start ev)) (atStartOfDay (Event.end_ ev)) ev m) k
  = bucketOf m k ++ (if touchesDay k ev then [ev] else []).
Proof.
  rewrite !atStartOfDay_day, dayLoopTurns_days, dayLoop_bucket. f_equal.
  unfold touchesDay.
  set (a := ymd (Event.start ev)). set (b := ymd (Event.end_ ev)).
  destruct (Z.leb_spec a k), (Z.leb_spec k b); simpl; try reflexivity.
  now replace (k <? a + Z.of_nat (Z.to_nat (b - a + 1))) with true
    by (symmetry; apply Z.ltb_lt; lia).
Qed.

Lemma events_days_bucket (evs : list Event.t) (m : JSMap (list Event.t)) (k : Z) :
  bucketOf
    (fold_left (fun m ev =>
       dayLoop (dayLoopTurns (atStartOfDay (Event.start ev)) (atStartOfDay (Event.end_ ev)))
         (atStartOfDay (Event.start ev)) (atStartOfDay (Event.end_ ev)) ev m) evs m) k
  = bucketOf m k ++ filter (touchesDay k) evs.
Proof.
  revert m. induction evs as [| ev evs IH]; intros m; simpl.
  - now rewrite app_nil_r.
  - rewrite IH, event_days_bucket, <- app_assoc. f_equal.
    now destruct (touchesDay k ev).
Qed.

Lemma bucketOf_sorted_map (m : JSMap (list Event.t)) (k : Z) :
  bucketOf (map (fun '(k, list) => (k, Array_sort byStart list)) m) k
  = Array_sort byStart (bucketOf m k).
Proof.
  unfold bucketOf. induction m as [| [k' l] m IH]; simpl; [reflexivity |].
  destruct (k' =? k); [reflexivity | exact IH].
Qed.

(** The bucket of a day in the month grid: the events that touch the day,
    sorted by start. *)
Theorem eventsByDay_bucket (evs : list Event.t) (day : Z) :
  bucketOf (eventsByDay evs) day = Array_sort byStart (filter (touchesDay day) evs).
Proof.
  unfold eventsByDay. rewrite bucketOf_sorted_map, events_days_bucket. reflexivity.
Qed.

Lemma touchesDay_spec (day : Z) (ev : Event.t) :
  touchesDay day ev = true <-> ymd (Event.start ev) <= day <= ymd (Event.end_ ev).
Proof. unfold touchesDay. rewrite andb_true_iff, !Z.leb_le. tauto. Qed.

(** The groups of the List View, before they are sorted. *)
Lemma groups_bucket (evs : list Event.t) (m : JSMap (list Event.t)) (k : Z) :
  bucketOf
    (fold_left (fun groups ev => pushAt (ymd (atStartOfDay (Event.start ev))) ev groups)
       evs m) k
  = bucketOf m k ++ filter (startsOnDay k) evs.
Proof.
  revert m. induction evs as [| ev evs IH]; intros m; simpl.
  - now rewrite app_nil_r.
  - rewrite IH, bucketOf_pushAt, ymd_atStartOfDay. unfold startsOnDay.
    rewrite (Z.eqb_sym k). destruct (Z.eqb_spec (ymd (Event.start ev)) k) as [-> | Hk].
    + now rewrite <- app_assoc.
    + reflexivity.
Qed.

Lemma groups_NoDup (evs : list Event.t) (m : JSMap (list Event.t)) :
  NoDup (map fst m) ->
  NoDup (map fst
    (fold_left (fun groups ev => pushAt (ymd (atStartOfDay (Event.start ev))) ev groups)
       evs m)).
Proof.
  revert m. induction evs as [| ev evs IH]; intros m H; simpl; [assumption |].
  apply IH, pushAt_NoDup, H.
Qed.

Lemma sorted_map_keys (m : JSMap (list Event.t)) :
  map fst (map (fun '(k, arr) => (k, Array_sort byStart arr)) m) = map fst m.
Proof. rewrite map_map. apply map_ext. now intros [k l]. Qed.

(** A group of the List View holds the listed events that start on its
    day, sorted by start. *)
Lemma listViewGrouped_group (st : AppState) (day : Z) (evs : list Event.t) :
  In (day, evs) (listViewGrouped st) ->
  evs = Array_sort byStart (filter (startsOnDay day) (listViewEvents st)).
Proof.
  unfold listViewGrouped. rewrite Array_sort_In. intros Hin.
  apply map_get_In in Hin.
  - assert (Hb : bucketOf
      (map (fun '(k, arr) => (k, Array_sort byStart arr))
         (fold_left (fun groups ev => pushAt (ymd (atStartOfDay (Event.start ev))) ev groups)
            (listViewEvents st) [])) day = evs)
      by (unfold bucketOf; now rewrite Hin).
    rewrite bucketOf_sorted_map, groups_bucket in Hb. now symmetry.
  - rewrite sorted_map_keys. apply groups_NoDup. constructor.
Qed.

Lemma listViewGrouped_listed (st : AppState) (ev : Event.t) :
  In ev (listViewEvents st) ->
  exists evs, In (ymd (Event.start ev), evs) (listViewGrouped st) /\ In ev evs.
Proof.
  intros Hin. set (day := ymd (Event.start ev)).
  set (m := map (fun '(k, arr) => (k, Array_sort byStart arr))
         (fold_left (fun groups ev => pushAt (ymd (atStartOfDay (Event.start ev))) ev groups)
            (listViewEvents st) [])).
  assert (Hb : bucketOf m day
               = Array_sort byStart (filter (startsOnDay day) (listViewEvents st))).
  { unfold m. now rewrite bucketOf_sorted_map, groups_bucket. }
  assert (Hev : In ev (bucketOf m day)).
  { rewrite Hb. apply Array_sort_In, filter_In. split; [assumption |].
    unfold startsOnDay, day. apply Z.eqb_refl. }
  unfold bucketOf in Hev. destruct (map_get m day) as [l |] eqn:E; [| destruct Hev].
  exists l. split; [| assumption].
  unfold listViewGrouped. apply Array_sort_In. fold m.
  apply map_get_In; [| exact E].
  unfold m. rewrite sorted_map_keys. apply groups_NoDup. constructor.
Qed.

End DayGrouping.

(** C7, as amended.  In the month grid, the bucket of a day holds exactly
    the events handed to the grid (the visible ones) whose days of start and
    end enclose that day, the times of day left aside, each once, sorted
    ascending by start: a multi-day event is in the bucket of each day it
    touches.  In the List View, a group holds exactly the listed events that
    start on its day, each once, sorted ascending by start; every listed
    event is in the group of its start day; and the groups come in
    ascending order of their days. *)
Theorem C7_day_grouping (st : AppState) (day : Z) :
  (forall ev, In ev (bucketOf (calendarBuckets st) day)
     <-> In ev (visibleEvents st)
         /\ ymd (Event.start ev) <= day <= ymd (Event.end_ ev))
  /\ Permutation (bucketOf (calendarBuckets st) day)
       (filter (touchesDay day) (visibleEvents st))
  /\ StronglySorted (fun a b => Event.start a <= Event.start b)
       (bucketOf (calendarBuckets st) day)
  /\ (forall evs, In (day, evs) (listViewGrouped st) ->
        (forall ev, In ev evs <-> In ev (listViewEvents st) /\ ymd (Event.start ev) = day)
        /\ Permutation evs (filter (startsOnDay day) (listViewEvents st))
        /\ StronglySorted (fun a b => Event.start a <= Event.start b) evs)
  /\ (forall ev, In ev (listViewEvents st) -> ymd (Event.start ev) = day ->
        exists evs, In (day, evs) (listViewGrouped st) /\ In ev evs)
  /\ StronglySorted (fun a b => fst a <= fst b) (listViewGrouped st).
Proof.
  unfold calendarBuckets. rewrite eventsByDay_bucket.
  split; [| split; [| split; [| split; [| split]]]].
  - intros ev. rewrite Array_sort_In, filter_In, touchesDay_spec. tauto.
  - apply Array_sort_perm.
  - apply Array_sort_byStart_sorted.
  - intros evs Hin. apply listViewGrouped_group in Hin. subst evs.
    split; [| split].
    + intros ev. rewrite Array_sort_In, filter_In. unfold startsOnDay.
      now rewrite Z.eqb_eq.
    + apply Array_sort_perm.
    + apply Array_sort_byStart_sorted.
  - intros ev Hin <-. now apply listViewGrouped_listed.
  - unfold listViewGrouped.
    eapply StronglySorted_impl; [| apply Array_sort_sorted]; simpl; intros; lia.
Qed.

Lemma C7_day_grouping_witness :
  In northSouthEvent (bucketOf (calendarBuckets nothingPickedState) 0)
  /\ In northSouthEvent (bucketOf (calendarBuckets nothingPickedState) 1).
Proof.
  split.
  - apply (proj1 (C7_day_grouping nothingPickedState 0)).
    split; [now left | split; discriminate].
  - apply (proj1 (C7_day_grouping nothingPickedState 1)).
    split; [now left | split; discriminate].
Defined.

(** C7 as stated fails in the List View: the event runs from 18:00 of day 0
    to 09:00 of day 1 and is listed, and the List View has one group, that of
    day 0, so the event is in no group of day 1. *)
Lemma C7_counterexample_list_view :
  ymd (Event.start northSouthEvent) <= 1 <= ymd (Event.end_ northSouthEvent)
  /\ In northSouthEvent (listViewEvents nothingPickedState)
  /\ listViewGrouped nothingPickedState = [(0, [northSouthEvent])]
  /\ ~ (exists evs, In (1, evs) (listViewGrouped nothingPickedState)
          /\ In northSouthEvent evs).
Proof.
  split; [split; discriminate |]. split; [now left |]. split; [reflexivity |].
  intros [evs [[E | []] _]]. discriminate E.
Qed.


(** The scenario of the specification: after the first confirmation, [P2]
    is the one new match of [E1]; [P1] is assigned and [P3] shares one tag. *)
Example triagedState_attention :
  attentionOf triagedState "e1" = 1
  /\ detailNewMatches codeUnitCompare triagedState = [mkScored lateKidBoth 2].
Proof. split; reflexivity. Qed.

(** The scenario of the rename onto an existing tag: the category and the
    tags of [P1] are merged, not doubled. *)
Example rename_north_to_south :
  tagCatalog (renameTagEverywhere "north" "south" filteredState) = [("Region", ["south"])]
  /\ map Kid.tags (kids (renameTagEverywhere "north" "south" filteredState)) = [["south"]]
  /\ map Event.tags (events (renameTagEverywhere "north" "south" filteredState))
     = [["south"]].
Proof. repeat split; reflexivity. Qed.

(** Ticking a box keeps the selection a well-formed object. *)
Lemma obj_set_wf {V} (o : JSObject V) (k : string) (v : V) :
  obj_wf o -> obj_wf (obj_set k v o).
Proof.
  unfold obj_wf. induction o as [| [k' v'] o IH]; simpl; intros H.
  - repeat constructor. intros [].
  - inversion H as [| ? ? Hnot Hnd]; subst.
    destruct (String.eqb k' k) eqn:E; simpl; [constructor; assumption |].
    constructor; [| now apply IH].
    intros Hin. apply in_map_iff in Hin. destruct Hin as [[k0 v0] [Hk Hin]].
    simpl in Hk. subst k0. apply Hnot.
    clear - Hin E. induction o as [| [k1 v1] o IH]; simpl in *.
    + destruct Hin as [Heq | []]. injection Heq as -> _.
      now rewrite String.eqb_refl in E.
    + destruct (String.eqb k1 k) eqn:E1; simpl in Hin.
      * destruct Hin as [Heq | Hin]; [injection Heq as -> _; now left |].
        right. apply in_map_iff. now exists (k', v0).
      * destruct Hin as [Heq | Hin]; [injection Heq as -> _; now left |].
        right. now apply IH.
Qed.

Lemma toggleSuggestPick_wf (kidId : string) (st : AppState) :
  obj_wf (suggestSelection st) -> obj_wf (suggestSelection (toggleSuggestPick kidId st)).
Proof. destruct st. simpl. apply obj_set_wf. Qed.

(** * Further properties of the code *)

(** ** The match score *)

Lemma intersectionCount_fold (a : list string) (bSet : JSSet) (c0 : Z) :
  fold_left (fun c t => if Set_has bSet t then c + 1 else c) a c0
  = c0 + Z.of_nat (length (filter (Set_has bSet) a)).
Proof.
  revert c0. induction a as [| t a IH]; intros c0; simpl; [lia |].
  rewrite IH. destruct (Set_has bSet t); simpl length; lia.
Qed.

(** The score is the number of entries of the first array that the set
    holds, an entry written twice counting twice; it lies between 0 and the
    length of the array. *)
Theorem intersectionCount_counts (a : list string) (bSet : JSSet) :
  intersectionCount a bSet = Z.of_nat (length (filter (Set_has bSet) a))
  /\ 0 <= intersectionCount a bSet <= Z.of_nat (length a).
Proof.
  unfold intersectionCount. rewrite intersectionCount_fold.
  split; [lia |]. pose proof (filter_length_le (Set_has bSet) a). lia.
Qed.

Lemma shared_entries_perm (a b : list string) :
  NoDup a -> NoDup b ->
  Permutation (filter (Set_has (Set_new b)) a) (filter (Set_has (Set_new a)) b).
Proof.
  intros Ha Hb. apply NoDup_Permutation; try now apply NoDup_filter.
  intros x. rewrite !filter_In, !Set_has_In, !Set_new_In. tauto.
Qed.

(** Between two arrays without repeated tags the score does not depend on
    which side is the kid's and which the event's. *)
Theorem intersectionCount_symmetric (a b : list string) :
  NoDup a -> NoDup b ->
  intersectionCount a (Set_new b) = intersectionCount b (Set_new a).
Proof.
  intros Ha Hb.
  unfold intersectionCount. rewrite !intersectionCount_fold.
  f_equal. f_equal. apply Permutation_length. now apply shared_entries_perm.
Qed.

Lemma intersectionCount_symmetric_witness :
  intersectionCount ["north"; "south"] (Set_new ["south"; "east"])
  = intersectionCount ["south"; "east"] (Set_new ["north"; "south"]).
Proof.
  apply intersectionCount_symmetric; repeat constructor; simpl; intuition discriminate.
Defined.

(** A repeated tag breaks the symmetry: it is counted on the kid's side and
    not on the event's. *)
Example intersectionCount_repeated :
  intersectionCount ["north"; "north"] (Set_new ["north"]) = 2
  /\ intersectionCount ["north"] (Set_new ["north"; "north"]) = 1.
Proof. split; reflexivity. Qed.

(** ** Tag propagation as one rewriting of the collections *)

Lemma Kid_with_tags_compose (f g : list string -> list string) (k : Kid.t) :
  Kid_with_tags f (Kid_with_tags g k) = Kid_with_tags (fun c => f (g c)) k.
Proof. reflexivity. Qed.

Lemma Kid_with_tags_same (f : list string -> list string) (k : Kid.t) :
  f (Kid.tags k) = Kid.tags k -> Kid_with_tags f k = k.
Proof. destruct k. unfold Kid_with_tags. simpl. now intros ->. Qed.

Lemma Event_with_tags_same (f : list string -> list string) (e : Event.t) :
  f (Event.tags e) = Event.tags e -> Event.with_tags f e = e.
Proof. destruct e. unfold Event.with_tags. simpl. now intros ->. Qed.

Lemma mapTagCollections_wf (f : list string -> list string) (st : AppState) :
  obj_wf (tagCatalog st) -> obj_wf (tagCatalog (mapTagCollections f st)).
Proof. unfold obj_wf. simpl. intros H. rewrite map_map. exact H. Qed.

Lemma mapTagCollections_compose (f g : list string -> list string) (st : AppState) :
  mapTagCollections f (mapTagCollections g st) = mapTagCollections (fun c => f (g c)) st.
Proof. unfold mapTagCollections. simpl. now rewrite !map_map. Qed.

Lemma mapTagCollections_rewritten (f : list string -> list string) (st : AppState) :
  rewrittenCollections (mapTagCollections f st) = map f (rewrittenCollections st).
Proof.
  unfold rewrittenCollections. simpl. rewrite !map_app, !map_map. reflexivity.
Qed.

(** Two rewritings that agree on the collections of the state give the same
    state. *)
Lemma mapTagCollections_agree (f g : list string -> list string) (st : AppState) :
  Forall (fun c => f c = g c) (rewrittenCollections st) ->
  mapTagCollections f st = mapTagCollections g st.
Proof.
  unfold rewrittenCollections. rewrite !Forall_app. intros (Hc & Hk & He & Hb).
  rewrite Forall_forall in Hc, Hk, He.
  inversion_clear Hb as [| ? ? H1 Hb1]. inversion_clear Hb1 as [| ? ? H2 Hb2].
  inversion_clear Hb2 as [| ? ? H3 Hb3]. inversion_clear Hb3 as [| ? ? H4 Hb4].
  inversion_clear Hb4 as [| ? ? H5 _].
  unfold mapTagCollections. rewrite H1, H2, H3, H4, H5.
  f_equal.
  - apply map_ext_in. intros [c l] Hin. simpl. f_equal. apply Hc.
    apply in_map_iff. now exists (c, l).
  - apply map_ext_in. intros k Hin. unfold Kid_with_tags. f_equal. apply Hk.
    now apply in_map.
  - apply map_ext_in. intros e Hin. unfold Event.with_tags. f_equal. apply He.
    now apply in_map.
Qed.

Lemma mapTagCollections_fixed (f : list string -> list string) (st : AppState) :
  Forall (fun c => f c = c) (rewrittenCollections st) -> mapTagCollections f st = st.
Proof.
  intros H. rewrite (mapTagCollections_agree f (fun c => c) st H).
  destruct st. unfold mapTagCollections. simpl. f_equal.
  - rewrite <- (map_id tagCatalog0) at 2. apply map_ext. now intros [c l].
  - rewrite <- (map_id kids0) at 2. apply map_ext. now intros [].
  - rewrite <- (map_id events0) at 2. apply map_ext. now intros [].
Qed.

Lemma renameTagEverywhere_map (oldTag newTag : string) (st : AppState) :
  clampStr oldTag <> EmptyString ->
  clampStr newTag <> EmptyString ->
  clampStr oldTag <> clampStr newTag ->
  obj_wf (tagCatalog st) ->
  renameTagEverywhere oldTag newTag st
  = mapTagCollections (replaceDedupe (clampStr oldTag) (clampStr newTag)) st.
Proof.
  intros Ho Hn Hne Hwf. unfold renameTagEverywhere.
  apply String.eqb_neq in Ho, Hn, Hne. rewrite Ho, Hn, Hne. simpl orb. cbv iota.
  destruct st. simpl in *. rewrite (catalog_renamed _ _ _ Hwf).
  unfold mapTagCollections, replaceDedupe. simpl. f_equal.
  apply map_ext. now intros [c l].
Qed.

Lemma deleteTagEverywhere_map (tag : string) (st : AppState) :
  clampStr tag <> EmptyString ->
  obj_wf (tagCatalog st) ->
  deleteTagEverywhere tag st = mapTagCollections (removeTag (clampStr tag)) st.
Proof.
  intros Ht Hwf. unfold deleteTagEverywhere.
  apply String.eqb_neq in Ht. rewrite Ht.
  destruct st. simpl in *. rewrite (catalog_deleted _ _ Hwf).
  unfold mapTagCollections, removeTag. simpl. f_equal.
  apply map_ext. now intros [c l].
Qed.

Lemma deleteTagEverywhere_wf (tag : string) (st : AppState) :
  obj_wf (tagCatalog st) -> obj_wf (tagCatalog (deleteTagEverywhere tag st)).
Proof.
  intros Hwf. destruct (String.eqb (clampStr tag) EmptyString) eqn:E.
  - unfold deleteTagEverywhere. now rewrite E.
  - apply String.eqb_neq in E. rewrite deleteTagEverywhere_map by assumption.
    now apply mapTagCollections_wf.
Qed.

Lemma renameTagEverywhere_wf (oldTag newTag : string) (st : AppState) :
  obj_wf (tagCatalog st) -> obj_wf (tagCatalog (renameTagEverywhere oldTag newTag st)).
Proof.
  intros Hwf.
  destruct (String.eqb (clampStr oldTag) EmptyString) eqn:Eo;
    [unfold renameTagEverywhere; now rewrite Eo |].
  destruct (String.eqb (clampStr newTag) EmptyString) eqn:En;
    [unfold renameTagEverywhere; now rewrite Eo, En |].
  destruct (String.eqb (clampStr oldTag) (clampStr newTag)) eqn:Ee;
    [unfold renameTagEverywhere; now rewrite Eo, En, Ee |].
  apply String.eqb_neq in Eo, En, Ee.
  rewrite renameTagEverywhere_map by assumption. now apply mapTagCollections_wf.
Qed.

Lemma removeTag_twice (t : string) (c : list string) :
  removeTag t (removeTag t c) = removeTag t c.
Proof.
  unfold removeTag. rewrite filter_filter. apply filter_ext. intros x.
  now destruct (String.eqb x t).
Qed.

Lemma removeTag_swap (t u : string) (c : list string) :
  removeTag t (removeTag u c) = removeTag u (removeTag t c).
Proof.
  unfold removeTag. rewrite !filter_filter. apply filter_ext. intros x.
  apply andb_comm.
Qed.

(** Deleting a tag twice is deleting it once, and two deletions can be done
    in either order. *)
Theorem deleteTagEverywhere_idempotent_commutes (st : AppState) (tag other : string) :
  obj_wf (tagCatalog st) ->
  deleteTagEverywhere tag (deleteTagEverywhere tag st) = deleteTagEverywhere tag st
  /\ deleteTagEverywhere tag (deleteTagEverywhere other st)
     = deleteTagEverywhere other (deleteTagEverywhere tag st).
Proof.
  intros Hwf.
  assert (Hblank : forall t s, String.eqb (clampStr t) EmptyString = true ->
                               deleteTagEverywhere t s = s).
  { intros t s E. unfold deleteTagEverywhere. now rewrite E. }
  destruct (String.eqb (clampStr tag) EmptyString) eqn:Et.
  { rewrite !(Hblank tag) by assumption. now split. }
  destruct (String.eqb (clampStr other) EmptyString) eqn:Eo.
  { rewrite !(Hblank other) by assumption. split; [| reflexivity].
    apply String.eqb_neq in Et.
    rewrite (deleteTagEverywhere_map tag st Et Hwf).
    rewrite deleteTagEverywhere_map; [| assumption | now apply mapTagCollections_wf].
    rewrite mapTagCollections_compose. apply mapTagCollections_agree.
    apply Forall_forall. intros c _. apply removeTag_twice. }
  apply String.eqb_neq in Et, Eo.
  rewrite (deleteTagEverywhere_map tag st Et Hwf), (deleteTagEverywhere_map other st Eo Hwf).
  rewrite !deleteTagEverywhere_map by (assumption || now apply mapTagCollections_wf).
  rewrite !mapTagCollections_compose. split; apply mapTagCollections_agree;
    apply Forall_forall; intros c _; [apply removeTag_twice | apply removeTag_swap].
Qed.

Lemma filteredState_wf : obj_wf (tagCatalog filteredState).
Proof. unfold obj_wf. simpl. repeat constructor. intros []. Qed.

Lemma deleteTagEverywhere_commutes_witness :
  deleteTagEverywhere "north" (deleteTagEverywhere "south" filteredState)
  = deleteTagEverywhere "south" (deleteTagEverywhere "north" filteredState).
Proof.
  exact (proj2 (deleteTagEverywhere_idempotent_commutes filteredState "north" "south"
                  filteredState_wf)).
Defined.

Lemma fold_Set_add_fresh (l : list string) (acc : JSSet) :
  NoDup (acc ++ l) -> fold_left Set_add l acc = acc ++ l.
Proof.
  revert acc. induction l as [| t l IH]; intros acc H; simpl.
  - now rewrite app_nil_r.
  - assert (Hfresh : Set_has acc t = false).
    { apply Set_has_false. apply NoDup_remove_2 in H. intros Hin. apply H.
      apply in_or_app. now left. }
    unfold Set_add at 2. rewrite Hfresh. rewrite IH; rewrite <- app_assoc; [reflexivity |].
    exact H.
Qed.

(** [Array.from(new Set(arr))] leaves an array without repetition as it is. *)
Lemma Set_new_NoDup_same (l : list string) : NoDup l -> Array_from (Set_new l) = l.
Proof. intros H. exact (fold_Set_add_fresh l [] H). Qed.

Lemma replace_fresh_NoDup (o n : string) (c : list string) :
  NoDup c -> ~ In n c -> NoDup (map (fun t => if String.eqb t o then n else t) c).
Proof.
  induction c as [| x c IH]; simpl; intros Hnd Hn; [constructor |].
  inversion Hnd as [| ? ? Hx Hc]; subst.
  constructor; [| apply IH; tauto].
  rewrite in_map_iff. intros [y [Hy Hin]].
  destruct (String.eqb_spec y o) as [Hyo | Hyo];
    destruct (String.eqb_spec x o) as [Hxo | Hxo].
  - apply Hx. congruence.
  - apply Hn. left. congruence.
  - apply Hn. right. congruence.
  - apply Hx. congruence.
Qed.

Lemma replace_back (o n : string) (c : list string) :
  ~ In n c ->
  map (fun t => if String.eqb t n then o else t)
    (map (fun t => if String.eqb t o then n else t) c) = c.
Proof.
  intros Hn. rewrite map_map. rewrite <- (map_id c) at 2. apply map_ext_in.
  intros x Hx. destruct (String.eqb_spec x o) as [-> | Hxo].
  - now rewrite String.eqb_refl.
  - destruct (String.eqb_spec x n) as [-> | _]; [contradiction | reflexivity].
Qed.

Lemma replaceDedupe_back (o n : string) (c : list string) :
  NoDup c -> ~ In n c -> replaceDedupe n o (replaceDedupe o n c) = c.
Proof.
  intros Hnd Hn. unfold replaceDedupe.
  rewrite (Set_new_NoDup_same _ (replace_fresh_NoDup o n c Hnd Hn)).
  rewrite replace_back by assumption. now apply Set_new_NoDup_same.
Qed.

(** Renaming a tag to a name that no rewritten collection holds, and then
    back, restores the state, provided no rewritten collection repeats a
    tag (the rename removes repetitions). *)
Theorem renameTagEverywhere_round_trip (st : AppState) (oldTag newTag : string) :
  clampStr oldTag <> EmptyString ->
  clampStr newTag <> EmptyString ->
  clampStr oldTag <> clampStr newTag ->
  obj_wf (tagCatalog st) ->
  Forall (fun c => NoDup c /\ ~ In (clampStr newTag) c) (rewrittenCollections st) ->
  renameTagEverywhere newTag oldTag (renameTagEverywhere oldTag newTag st) = st.
Proof.
  intros Ho Hn Hne Hwf Hall.
  rewrite (renameTagEverywhere_map oldTag newTag st Ho Hn Hne Hwf).
  rewrite renameTagEverywhere_map;
    [| assumption | assumption | congruence | now apply mapTagCollections_wf].
  rewrite mapTagCollections_compose. apply mapTagCollections_fixed.
  eapply Forall_impl; [| exact Hall]. intros c [Hnd Hfresh].
  now apply replaceDedupe_back.
Qed.

Lemma renameTagEverywhere_round_trip_witness :
  renameTagEverywhere "east" "north" (renameTagEverywhere "north" "east" filteredState)
  = filteredState.
Proof.
  apply renameTagEverywhere_round_trip;
    try discriminate; [exact filteredState_wf |].
  unfold rewrittenCollections. simpl.
  repeat (apply Forall_cons || apply Forall_nil);
    (split; [repeat constructor; simpl; intuition discriminate
            | simpl; intuition discriminate]).
Defined.

Lemma renameTagEverywhere_rewritten_witness :
  Forall2 (renamedTo "north" "south")
    (rewrittenCollections filteredState)
    (rewrittenCollections (renameTagEverywhere "north" "south" filteredState)).
Proof.
  apply (renameTagEverywhere_rewritten filteredState "north" "south");
    try discriminate. exact filteredState_wf.
Defined.

Lemma deleteTagEverywhere_rewritten_witness :
  Forall2 (droppedFrom "north")
    (rewrittenCollections filteredState)
    (rewrittenCollections (deleteTagEverywhere "north" filteredState)).
Proof.
  apply (deleteTagEverywhere_rewritten filteredState "north");
    [discriminate | exact filteredState_wf].
Defined.

Lemma rewrittenCollections_Forall (P : list string -> Prop) (st : AppState) :
  Forall P (rewrittenCollections st) <->
  Forall (fun entry => P (snd entry)) (tagCatalog st)
  /\ Forall (fun k => P (Kid.tags k)) (kids st)
  /\ Forall (fun e => P (Event.tags e)) (events st)
  /\ P (kidFilterTags st) /\ P (newKidTags st) /\ P (editKidTags st)
  /\ P (evTags st) /\ P (editEventTags st).
Proof.
  unfold rewrittenCollections. rewrite !Forall_app, !Forall_map. split.
  - intros (Hc & Hk & He & Hb).
    inversion_clear Hb as [| ? ? H1 Hb1]. inversion_clear Hb1 as [| ? ? H2 Hb2].
    inversion_clear Hb2 as [| ? ? H3 Hb3]. inversion_clear Hb3 as [| ? ? H4 Hb4].
    inversion_clear Hb4 as [| ? ? H5 _]. tauto.
  - intros (Hc & Hk & He & H1 & H2 & H3 & H4 & H5). repeat split; try assumption.
    repeat constructor; assumption.
Qed.

Lemma renameTagEverywhere_old_gone (st : AppState) (oldTag newTag : string) :
  clampStr oldTag <> EmptyString ->
  clampStr newTag <> EmptyString ->
  clampStr oldTag <> clampStr newTag ->
  obj_wf (tagCatalog st) ->
  Forall (fun c => ~ In (clampStr oldTag) c)
    (rewrittenCollections (renameTagEverywhere oldTag newTag st)).
Proof.
  intros Ho Hn Hne Hwf.
  rewrite (renameTagEverywhere_map oldTag newTag st Ho Hn Hne Hwf).
  rewrite mapTagCollections_rewritten. apply Forall_map, Forall_forall.
  intros c _. exact (proj1 (replace_dedupe_renamedTo _ _ c Hne)).
Qed.

(** The form buffers are renamed with the rest, so what is saved from them
    after a rename does not bring the old tag back: not through the tag
    editor of a kid or of an event, nor through a kid or an event created
    from the pending forms; an event stored with an Invalid Date takes its
    tags from the renamed buffer as well. *)
Theorem rename_then_save_keeps_old_tag_out (st : AppState) (oldTag newTag : string) :
  clampStr oldTag <> EmptyString ->
  clampStr newTag <> EmptyString ->
  clampStr oldTag <> clampStr newTag ->
  obj_wf (tagCatalog st) ->
  Forall (fun k => ~ In (clampStr oldTag) (Kid.tags k))
    (kids (saveEditKidTags (renameTagEverywhere oldTag newTag st)))
  /\ Forall (fun e => ~ In (clampStr oldTag) (Event.tags e))
       (events (saveEditEventTags (renameTagEverywhere oldTag newTag st)))
  /\ (forall uuid now,
        Forall (fun k => ~ In (clampStr oldTag) (Kid.tags k))
          (kids (addKid uuid now (renameTagEverywhere oldTag newTag st))))
  /\ (forall combineDateTime uuid st' shown,
        createEvent combineDateTime uuid (renameTagEverywhere oldTag newTag st)
        = Done st' shown ->
        Forall (fun e => ~ In (clampStr oldTag) (Event.tags e)) (events st'))
  /\ (forall combineDateTime uuid st' start end_,
        createEvent combineDateTime uuid (renameTagEverywhere oldTag newTag st)
        = StoredInvalidDate st' start end_ ->
        ~ In (clampStr oldTag) (evTags (renameTagEverywhere oldTag newTag st))).
Proof.
  intros Ho Hn Hne Hwf.
  pose proof (renameTagEverywhere_old_gone st oldTag newTag Ho Hn Hne Hwf) as Hgone.
  apply rewrittenCollections_Forall in Hgone.
  destruct Hgone as (_ & Hk & He & _ & Hnew & Hedk & Hev & Hede).
  set (st1 := renameTagEverywhere oldTag newTag st) in *.
  split; [| split; [| split; [| split]]].
  - unfold saveEditKidTags. destruct (editKidId st1) as [i |]; [| exact Hk].
    destruct (String.eqb i EmptyString); [exact Hk |].
    destruct st1; simpl in *. apply Forall_map.
    eapply Forall_impl; [| exact Hk]. intros k Hkt.
    now destruct (String.eqb (Kid.id k) i).
  - unfold saveEditEventTags. destruct (editEventId st1) as [i |]; [| exact He].
    destruct (String.eqb i EmptyString); [exact He |].
    destruct st1; simpl in *. apply Forall_map.
    eapply Forall_impl; [| exact He]. intros e Het.
    now destruct (String.eqb (Event.id e) i).
  - intros uuid now. unfold addKid.
    destruct (String.eqb (clampStr (newKidName st1)) EmptyString); [exact Hk |].
    destruct st1; simpl in *. apply Forall_app. split; [exact Hk |].
    now repeat constructor.
  - intros combineDateTime uuid st' shown. unfold createEvent.
    destruct (String.eqb (clampStr (evTitle st1)) EmptyString).
    { intros E. injection E as <- _. exact He. }
    destruct (combineDateTime _ _) as [s |].
    2:{ destruct (combineDateTime _ _); discriminate. }
    destruct (combineDateTime _ _) as [e |]; [| discriminate].
    destruct (s >=? e); intros E; injection E as <- _; [exact He |].
    destruct st1; simpl in *. apply Forall_app. split; [exact He |].
    now repeat constructor.
  - intros _ _ _ _ _ _. exact Hev.
Qed.

Lemma rename_then_save_witness :
  Forall (fun k => ~ In "north" (Kid.tags k))
    (kids (saveEditKidTags (renameTagEverywhere "north" "south" filteredState))).
Proof.
  apply (rename_then_save_keeps_old_tag_out filteredState "north" "south");
    try discriminate. exact filteredState_wf.
Defined.

(** ** The tag picker *)

Lemma existsb_eqb_In (t : string) (l : list string) :
  existsb (String.eqb t) l = true <-> In t l.
Proof. exact (Set_has_In l t). Qed.

(** Clicking a tag flips its membership in the selection and nothing else;
    a selection without repetition stays so; and a click on an unselected
    tag is undone by a second click. *)
Theorem toggleTag_flips (t : string) (prev : list string) :
  (forall x, In x (toggleTag t prev)
     <-> (x = t /\ ~ In t prev) \/ (x <> t /\ In x prev))
  /\ (NoDup prev -> NoDup (toggleTag t prev))
  /\ (~ In t prev -> toggleTag t (toggleTag t prev) = prev).
Proof.
  unfold toggleTag at 1 2. destruct (existsb (String.eqb t) prev) eqn:E.
  - apply existsb_eqb_In in E. split; [| split].
    + intros x. rewrite filter_In, negb_true_iff, String.eqb_neq. tauto.
    + apply NoDup_filter.
    + contradiction.
  - assert (Hn : ~ In t prev) by (rewrite <- existsb_eqb_In; congruence).
    split; [| split].
    + intros x. rewrite in_app_iff. simpl.
      destruct (string_dec x t) as [-> | Hx]; [tauto |].
      split; [intros [H | [H | []]]; [tauto | congruence] | tauto].
    + intros Hnd. apply NoDup_app; [assumption | repeat constructor; intros [] |].
      intros a Ha [<- | []]. contradiction.
    + intros _. unfold toggleTag. rewrite E.
      replace (existsb (String.eqb t) (prev ++ [t])) with true
        by (symmetry; apply existsb_eqb_In, in_or_app; right; now left).
      rewrite filter_app. simpl. rewrite String.eqb_refl. simpl. rewrite app_nil_r.
      apply forallb_filter_id. apply forallb_forall. intros x Hx.
      apply negb_true_iff, String.eqb_neq. congruence.
Qed.

Lemma toggleTag_witness : toggleTag "north" (toggleTag "north" ["south"]) = ["south"].
Proof.
  apply (proj2 (proj2 (toggleTag_flips "north" ["south"]))).
  simpl. intuition discriminate.
Defined.

Lemma obj_set_keys_In {V} (o : JSObject V) (k : string) (v : V) (x : string) :
  In x (map fst (obj_set k v o)) <-> x = k \/ In x (map fst o).
Proof.
  induction o as [| [k' v'] o IH]; simpl.
  - intuition.
  - destruct (String.eqb_spec k' k) as [-> | Hk]; simpl; [intuition |].
    rewrite IH. intuition.
Qed.

Lemma obj_set_Forall {V} (P : V -> Prop) (o : JSObject V) (k : string) (v : V) :
  Forall (fun entry => P (snd entry)) o -> P v ->
  Forall (fun entry => P (snd entry)) (obj_set k v o).
Proof.
  intros Ho Hv. induction o as [| [k' v'] o IH]; simpl.
  - now repeat constructor.
  - inversion_clear Ho as [| ? ? H1 H2].
    destruct (String.eqb k' k); constructor; auto.
Qed.

Lemma obj_get_Forall {V} (P : V -> Prop) (o : JSObject V) (k : string) (v : V) :
  Forall (fun entry => P (snd entry)) o -> obj_get o k = Some v -> P v.
Proof.
  induction o as [| [k' v'] o IH]; simpl; [discriminate |].
  intros Ho. inversion_clear Ho as [| ? ? H1 H2].
  destruct (String.eqb k' k); [intros E; injection E as <-; exact H1 | now apply IH].
Qed.

(** What [o[k]] finds, from the properties of [o] and the inherited names. *)
Lemma obj_read_cases {V} (o : JSObject V) (k : string) :
  (exists v, obj_get o k = Some v /\ obj_read o k = Own v)
  \/ (obj_get o k = None /\ In k Object_prototype_names /\ obj_read o k = Inherited)
  \/ (obj_get o k = None /\ ~ In k Object_prototype_names /\ obj_read o k = Undefined).
Proof.
  unfold obj_read. destruct (obj_get o k) as [v |]; [left; now exists v | right].
  destruct (existsb (String.eqb k) Object_prototype_names) eqn:E.
  - left. apply existsb_eqb_In in E. tauto.
  - right. split; [reflexivity |]. split; [| reflexivity].
    rewrite <- existsb_eqb_In. congruence.
Qed.

(** The catalog after the updater of [addTagToCategory] has added [t] to
    the list [list] that it read for the category [c]. *)
Lemma catalog_with_tag (catalog : JSObject (list string)) (c t : string)
  (list : list string) :
  catalogOk catalog ->
  obj_get catalog c = Some list \/ (obj_get catalog c = None /\ list = []) ->
  let catalog' :=
    if existsb (String.eqb t) list then catalog else obj_set c (list ++ [t]) catalog in
  catalogOk catalog'
  /\ (forall c0, c0 <> c -> obj_get catalog' c0 = obj_get catalog c0)
  /\ (forall l x, obj_get catalog c = Some l -> In x l ->
        exists l', obj_get catalog' c = Some l' /\ In x l')
  /\ exists l', obj_get catalog' c = Some l' /\ In t l'.
Proof.
  intros [Hwf Hnd] Hread. cbv zeta.
  assert (Hlist : NoDup list).
  { destruct Hread as [E | [_ ->]]; [| constructor].
    exact (obj_get_Forall (fun l => NoDup l) catalog c list Hnd E). }
  destruct (existsb (String.eqb t) list) eqn:E.
  - apply existsb_eqb_In in E.
    split; [now split |]. split; [reflexivity |]. split.
    + intros l x Hl Hx. now exists l.
    + destruct Hread as [Hl | [_ ->]]; [now exists list | destruct E].
  - assert (Hfresh : ~ In t list) by (rewrite <- existsb_eqb_In; congruence).
    split; [split |].
    + now apply obj_set_wf.
    + apply obj_set_Forall; [assumption |].
      apply NoDup_app; [assumption | repeat constructor; intros [] |].
      intros a Ha [<- | []]. contradiction.
    + split; [intros c0 Hc0; apply obj_get_set_other; congruence |].
      split.
      * intros l x Hl Hx. exists (list ++ [t]). split; [apply obj_get_set_same |].
        apply in_or_app. left. destruct Hread as [E' | [E' _]]; congruence.
      * exists (list ++ [t]). split; [apply obj_get_set_same |].
        apply in_or_app. right. now left.
Qed.

(** The call throws exactly when editing is allowed, the active category
    and the trimmed text are non-empty, and the active category is not a
    category of the catalog but a name that every object inherits
    ([toString], [constructor], ...).  Otherwise it keeps the catalog in
    good order and loses nothing: the other categories are untouched and
    the tags of the active category stay; and when editing is allowed and
    neither the active category nor the trimmed text is empty, the tag is in
    the active category afterwards, which is created if the catalog did not
    have it, and the selection, if there is one, holds the tag. *)
Theorem addTagToCategory_keeps_catalog (allowEditLibrary canSelect : bool) (pk : Picker)
  (catalog : JSObject (list string)) (selectedTags : list string) :
  catalogOk catalog ->
  (addTagToCategory allowEditLibrary canSelect pk catalog selectedTags = None
   <-> allowEditLibrary = true
       /\ activeCategory pk <> EmptyString
       /\ clampStr (newTag pk) <> EmptyString
       /\ obj_get catalog (activeCategory pk) = None
       /\ In (activeCategory pk) Object_prototype_names)
  /\ forall pk' catalog' selectedTags',
       addTagToCategory allowEditLibrary canSelect pk catalog selectedTags
       = Some (pk', catalog', selectedTags') ->
       catalogOk catalog'
       /\ (forall c, c <> activeCategory pk -> obj_get catalog' c = obj_get catalog c)
       /\ (forall l x, obj_get catalog (activeCategory pk) = Some l -> In x l ->
             exists l', obj_get catalog' (activeCategory pk) = Some l' /\ In x l')
       /\ (NoDup selectedTags -> NoDup selectedTags')
       /\ (allowEditLibrary = true -> activeCategory pk <> EmptyString ->
           clampStr (newTag pk) <> EmptyString ->
           (exists l', obj_get catalog' (activeCategory pk) = Some l'
                       /\ In (clampStr (newTag pk)) l')
           /\ newTag pk' = EmptyString
           /\ (canSelect = true -> In (clampStr (newTag pk)) selectedTags')).
Proof.
  intros Hok. unfold addTagToCategory.
  assert (Hsame : forall pk' catalog' selectedTags',
    Some (pk, catalog, selectedTags) = Some (pk', catalog', selectedTags') ->
    catalogOk catalog'
    /\ (forall c, c <> activeCategory pk -> obj_get catalog' c = obj_get catalog c)
    /\ (forall l x, obj_get catalog (activeCategory pk) = Some l -> In x l ->
          exists l', obj_get catalog' (activeCategory pk) = Some l' /\ In x l')
    /\ (NoDup selectedTags -> NoDup selectedTags')).
  { intros pk' catalog' sel' E. injection E as <- <- <-.
    split; [exact Hok |]. split; [reflexivity |]. split; [| tauto].
    intros l x Hl Hx. now exists l. }
  destruct allowEditLibrary; simpl negb; cbv iota.
  2:{ split; [split; [discriminate | intros [H _]; discriminate] |].
      intros pk' catalog' sel' E. destruct (Hsame _ _ _ E) as (H1 & H2 & H3 & H4).
      repeat (split; [assumption |]). discriminate. }
  destruct (String.eqb_spec (activeCategory pk) EmptyString) as [Hc | Hc]; simpl orb; cbv iota.
  { split; [split; [discriminate | tauto] |].
    intros pk' catalog' sel' E. destruct (Hsame _ _ _ E) as (H1 & H2 & H3 & H4).
    repeat (split; [assumption |]). tauto. }
  destruct (String.eqb_spec (clampStr (newTag pk)) EmptyString) as [Ht | Ht]; cbv iota.
  { split; [split; [discriminate | tauto] |].
    intros pk' catalog' sel' E. destruct (Hsame _ _ _ E) as (H1 & H2 & H3 & H4).
    repeat (split; [assumption |]). tauto. }
  clear Hsame. cbv zeta.
  set (c := activeCategory pk) in *. set (t := clampStr (newTag pk)) in *.
  set (sel1 := if canSelect
               then if existsb (String.eqb t) selectedTags then selectedTags
                    else selectedTags ++ [t]
               else selectedTags).
  assert (Hsel : NoDup selectedTags -> NoDup sel1).
  { intros Hs. unfold sel1. destruct canSelect; [| assumption].
    destruct (existsb (String.eqb t) selectedTags) eqn:E; [assumption |].
    apply NoDup_app; [assumption | repeat constructor; intros [] |].
    intros a Ha [<- | []]. apply existsb_eqb_In in Ha. congruence. }
  assert (Hselin : canSelect = true -> In t sel1).
  { intros ->. unfold sel1. destruct (existsb (String.eqb t) selectedTags) eqn:E.
    - now apply existsb_eqb_In.
    - apply in_or_app. right. now left. }
  destruct (obj_read_cases catalog c)
    as [(l & Hget & ->) | [(Hget & Hin & ->) | (Hget & Hin & ->)]].
  - split; [split; [discriminate | intros (_ & _ & _ & H & _); congruence] |].
    intros pk' catalog' sel' E. injection E as <- <- <-.
    destruct (catalog_with_tag catalog c t l Hok (or_introl Hget)) as (H1 & H2 & H3 & H4).
    do 4 (split; [assumption |]). intros _ _ _.
    split; [exact H4 |]. split; [reflexivity | exact Hselin].
  - split; [split; [tauto | reflexivity] | discriminate].
  - split; [split; [discriminate | intros (_ & _ & _ & _ & H); contradiction] |].
    intros pk' catalog' sel' E. injection E as <- <- <-.
    destruct (catalog_with_tag catalog c t [] Hok (or_intror (conj Hget eq_refl)))
      as (H1 & H2 & H3 & H4).
    do 4 (split; [assumption |]). intros _ _ _.
    split; [exact H4 |]. split; [reflexivity | exact Hselin].
Qed.

Lemma initialCatalog_ok : catalogOk initialCatalog.
Proof.
  split.
  - unfold obj_wf. simpl. repeat constructor; simpl; intuition discriminate.
  - repeat (apply Forall_cons || apply Forall_nil); simpl;
      repeat constructor; simpl; intuition discriminate.
Qed.

Lemma addTagToCategory_witness :
  exists l',
    obj_get
      [("มหาวิทยาลัย", ["วิศวะ"; "บริหาร"; "สถาปัตย์"; "แพทย์"]);
       ("จังหวัด", ["กรุงเทพ"; "เชียงใหม่"; "ขอนแก่น"]);
       ("รูปแบบ", ["online"; "onsite"; "hybrid"]);
       ("งบประมาณ", ["เงินน้อย"; "เงินมาก"])] "รูปแบบ" = Some l'
    /\ In "hybrid" l'.
Proof.
  refine (proj1 (proj2 (proj2 (proj2 (proj2
    (proj2 (addTagToCategory_keeps_catalog true true (mkPicker "รูปแบบ" "" " hybrid ")
              initialCatalog [] initialCatalog_ok)
       (mkPicker "รูปแบบ" "" "") _ ["hybrid"] eq_refl)))) eq_refl _ _)).
  - discriminate.
  - discriminate.
Defined.

Example addTagToCategory_hybrid :
  addTagToCategory true true (mkPicker "รูปแบบ" "" " hybrid ") initialCatalog []
  = Some (mkPicker "รูปแบบ" "" "",
          [("มหาวิทยาลัย", ["วิศวะ"; "บริหาร"; "สถาปัตย์"; "แพทย์"]);
           ("จังหวัด", ["กรุงเทพ"; "เชียงใหม่"; "ขอนแก่น"]);
           ("รูปแบบ", ["online"; "onsite"; "hybrid"]);
           ("งบประมาณ", ["เงินน้อย"; "เงินมาก"])],
          ["hybrid"]).
Proof. reflexivity. Qed.

(** With the picker on the name [toString], which [addCategory] accepts as
    the active category without creating it, adding a tag throws. *)
Example addTagToCategory_toString :
  addTagToCategory true false (mkPicker "toString" "" "x") initialCatalog [] = None.
Proof. reflexivity. Qed.

(** Adding a category keeps the catalog in good order and every category
    with the tags it had: a name that is taken is not reset.  When editing
    is allowed and the trimmed name is not empty, the picker moves to that
    name and the input is cleared; the catalog has the category afterwards
    unless the name is one that every object inherits ([constructor],
    [toString], ...): for such a name the catalog is left as it was. *)
Theorem addCategory_keeps_catalog (allowEditLibrary : bool) (pk : Picker)
  (catalog : JSObject (list string)) :
  catalogOk catalog ->
  let result := addCategory allowEditLibrary pk catalog in
  catalogOk (snd result)
  /\ (forall c l, obj_get catalog c = Some l -> obj_get (snd result) c = Some l)
  /\ (allowEditLibrary = true -> clampStr (newCategory pk) <> EmptyString ->
      activeCategory (fst result) = clampStr (newCategory pk)
      /\ newCategory (fst result) = EmptyString
      /\ (~ In (clampStr (newCategory pk)) Object_prototype_names ->
          obj_get (snd result) (clampStr (newCategory pk)) <> None)
      /\ (In (clampStr (newCategory pk)) Object_prototype_names ->
          snd result = catalog)).
Proof.
  intros [Hwf Hnd]. unfold addCategory.
  destruct allowEditLibrary; simpl negb; cbv iota.
  2:{ cbv zeta. simpl. repeat split; try tauto; discriminate. }
  destruct (String.eqb_spec (clampStr (newCategory pk)) EmptyString) as [Hc | Hc].
  { cbv zeta. simpl. repeat split; tauto. }
  cbv zeta. simpl fst. simpl snd.
  destruct (obj_read_cases catalog (clampStr (newCategory pk)))
    as [(l & Hget & ->) | [(Hget & Hin & ->) | (Hget & Hin & ->)]].
  - split; [now split |]. split; [auto |]. intros _ _.
    split; [reflexivity |]. split; [reflexivity |]. split; [intros _; congruence | reflexivity].
  - split; [now split |]. split; [auto |]. intros _ _.
    split; [reflexivity |]. split; [reflexivity |]. split; [contradiction | reflexivity].
  - split; [split |].
    + now apply obj_set_wf.
    + apply obj_set_Forall; [assumption | constructor].
    + split.
      * intros c l Hl. rewrite obj_get_set_other; [exact Hl | congruence].
      * intros _ _. split; [reflexivity |]. split; [reflexivity |].
        split; [| contradiction]. intros _. rewrite obj_get_set_same. discriminate.
Qed.

Lemma addCategory_witness :
  obj_get (snd (addCategory true (mkPicker "รูปแบบ" " ภาค " "") initialCatalog)) "ภาค"
  <> None.
Proof.
  refine (proj1 (proj2 (proj2 (proj2 (proj2
    (addCategory_keeps_catalog true (mkPicker "รูปแบบ" " ภาค " "")
       initialCatalog initialCatalog_ok)) eq_refl _))) _).
  - discriminate.
  - simpl. intuition discriminate.
Defined.

(** The name [constructor] is taken by the picker and no category is
    created. *)
Example addCategory_constructor :
  addCategory true (mkPicker "รูปแบบ" " constructor " "") initialCatalog
  = (mkPicker "constructor" "" "", initialCatalog).
Proof. reflexivity. Qed.

(** ** Kids *)

Lemma kidById_get_known (ks : list Kid.t) (i : string) :
  kidById_get ks i <> None <-> In i (map Kid.id ks).
Proof.
  unfold kidById_get. split.
  - destruct (find _ (rev ks)) as [k |] eqn:E; [intros _ | congruence].
    apply find_some in E. destruct E as [Hin He]. apply String.eqb_eq in He.
    subst i. apply in_map. now apply in_rev.
  - intros Hin. apply in_map_iff in Hin. destruct Hin as [k [<- Hk]].
    destruct (find _ (rev ks)) eqn:E; [discriminate |].
    pose proof (find_none _ _ E k (proj1 (in_rev ks k) Hk)) as Hf.
    simpl in Hf. rewrite String.eqb_refl in Hf. discriminate Hf.
Qed.

Lemma without_participant_same (i : string) (e : Event.t) :
  ~ In i (Event.kidIds e) ->
  Event.mk (Event.id e) (Event.title e) (Event.start e) (Event.end_ e) (Event.tags e)
    (filter (fun p => negb (String.eqb (kidId p) i)) (Event.participants e))
    (Event.suggestedAt e) (Event.suggestNotes e) = e.
Proof.
  intros Hn. destruct e as [a b c d t ps s n]. simpl in *. f_equal.
  apply forallb_filter_id, forallb_forall. intros p Hp.
  apply negb_true_iff, String.eqb_neq. intros E. apply Hn.
  unfold Event.kidIds. simpl. rewrite <- E. now apply in_map.
Qed.

(** Deleting a kid that the roster knows, once confirmed, takes the kid out
    of the roster and out of the visibility map, and takes its
    participation out of every event; the events stay, with their other
    participants in order and everything else as it was.  An unknown id, or
    a refused confirmation, changes nothing. *)
Theorem deleteKid_cascades (confirmed : bool) (kid_id : string) (st : AppState) :
  (In kid_id (map Kid.id (kids st)) -> confirmed = true ->
   kids (deleteKid confirmed kid_id st)
   = filter (fun k => negb (String.eqb (Kid.id k) kid_id)) (kids st)
   /\ ~ In kid_id (map Kid.id (kids (deleteKid confirmed kid_id st)))
   /\ obj_get (visible (deleteKid confirmed kid_id st)) kid_id = None
   /\ Forall2 (fun e e' =>
         e' = Event.mk (Event.id e) (Event.title e) (Event.start e) (Event.end_ e)
                (Event.tags e)
                (filter (fun p => negb (String.eqb (kidId p) kid_id)) (Event.participants e))
                (Event.suggestedAt e) (Event.suggestNotes e)
         /\ ~ In kid_id (Event.kidIds e'))
        (events st) (events (deleteKid confirmed kid_id st)))
  /\ (~ In kid_id (map Kid.id (kids st)) \/ confirmed = false ->
      deleteKid confirmed kid_id st = st).
Proof.
  split.
  - intros Hin ->. apply kidById_get_known in Hin. unfold deleteKid.
    destruct (kidById_get (kids st) kid_id); [| congruence].
    destruct st; simpl. split; [reflexivity |]. split; [| split].
    + rewrite in_map_iff. intros [k [Hk Hf]]. apply filter_In in Hf.
      destruct Hf as [_ Hf]. apply negb_true_iff, String.eqb_neq in Hf. congruence.
    + unfold obj_delete. induction visible0 as [| [k v] o IH]; simpl; [reflexivity |].
      destruct (String.eqb_spec k kid_id) as [-> | Hk]; simpl; [exact IH |].
      destruct (String.eqb_spec k kid_id); [contradiction | exact IH].
    + rewrite <- (map_id events0) at 1. apply Forall2_map_pointwise.
      intros e _. split; [reflexivity |]. unfold Event.kidIds. simpl.
      rewrite in_map_iff. intros [p [Hp Hf]]. apply filter_In in Hf.
      destruct Hf as [_ Hf]. apply negb_true_iff, String.eqb_neq in Hf. congruence.
  - intros [Hn | ->]; unfold deleteKid.
    + rewrite <- kidById_get_known in Hn.
      destruct (kidById_get (kids st) kid_id); [exfalso; apply Hn; discriminate | reflexivity].
    + now destruct (kidById_get (kids st) kid_id).
Qed.

Lemma deleteKid_witness :
  ~ In "k1" (map Kid.id (kids (deleteKid true "k1" triagedState))).
Proof.
  refine (proj1 (proj2 (proj1 (deleteKid_cascades true "k1" triagedState) _ eq_refl))).
  simpl. now left.
Defined.

Lemma obj_delete_set_fresh {V} (o : JSObject V) (k : string) (v : V) :
  ~ In k (map fst o) -> obj_delete k (obj_set k v o) = o.
Proof.
  intros Hn. rewrite obj_set_fresh by assumption. unfold obj_delete.
  rewrite filter_app. simpl. rewrite String.eqb_refl. simpl. rewrite app_nil_r.
  apply forallb_filter_id, forallb_forall. intros [k' v'] Hin. simpl.
  apply negb_true_iff, String.eqb_neq. intros ->. apply Hn.
  apply in_map_iff. now exists (k, v').
Qed.

(** A kid added under a fresh id and deleted again leaves the roster, the
    visibility map and the events as they were before the kid was added;
    only the add form stays cleared. *)
Theorem addKid_then_deleteKid (uuid : string) (now : Z) (st : AppState) :
  clampStr (newKidName st) <> EmptyString ->
  ~ In uuid (map Kid.id (kids st)) ->
  ~ In uuid (map fst (visible st)) ->
  Forall (fun e => ~ In uuid (Event.kidIds e)) (events st) ->
  deleteKid true uuid (addKid uuid now st)
  = set_newKidTags (fun _ => []) (set_newKidName (fun _ => EmptyString) st).
Proof.
  intros Hname Hk Hv He. unfold addKid.
  apply String.eqb_neq in Hname. rewrite Hname.
  unfold deleteKid.
  replace (kidById_get _ uuid) with
    (Some (Kid.mk uuid (clampStr (newKidName st)) (newKidTags st) now)).
  2:{ destruct st; simpl. unfold kidById_get. rewrite rev_app_distr. simpl.
      now rewrite String.eqb_refl. }
  destruct st; simpl in *. f_equal.
  - rewrite filter_app. simpl. rewrite String.eqb_refl. simpl. rewrite app_nil_r.
    apply forallb_filter_id, forallb_forall. intros k Hin.
    apply negb_true_iff, String.eqb_neq. intros E. apply Hk. rewrite <- E.
    now apply in_map.
  - now apply obj_delete_set_fresh.
  - rewrite <- (map_id events0) at 2. apply map_ext_in. intros e Hin.
    apply without_participant_same. exact (proj1 (Forall_forall _ _) He e Hin).
Qed.

Lemma addKid_then_deleteKid_witness :
  deleteKid true "k9" (addKid "k9" 2000 (set_newKidName (fun _ => "P9") triagedState))
  = set_newKidTags (fun _ => [])
      (set_newKidName (fun _ => EmptyString)
         (set_newKidName (fun _ => "P9") triagedState)).
Proof.
  apply addKid_then_deleteKid.
  - discriminate.
  - simpl. intuition discriminate.
  - simpl. tauto.
  - repeat constructor. simpl. intuition discriminate.
Defined.

(** The roster shown in the side bar: the kids that carry every tag of the
    filter and match the search text, in the order of the roster; with no
    filter tag and a text that is empty once trimmed, the whole roster. *)
Theorem filteredKids_shows (st : AppState) :
  (forall k, In k (filteredKids st)
     <-> In k (kids st)
         /\ (forall t, In t (kidFilterTags st) -> In t (Kid.tags k))
         /\ matchesSearch (kidSearch st) k)
  /\ (kidFilterTags st = [] -> trim (kidSearch st) = EmptyString ->
      filteredKids st = kids st).
Proof.
  unfold filteredKids. split.
  - intros k. rewrite filter_In, andb_true_iff, forallb_forall, searchHit_matchesSearch.
    split; intros (Hk & Hf & Hs); (split; [assumption | split; [| assumption]]);
      intros t Ht.
    + apply existsb_eqb_In, Hf, Set_new_In, Ht.
    + apply existsb_eqb_In, Hf, Set_new_In, Ht.
  - intros Hf Hs. rewrite Hf, Hs. simpl.
    apply forallb_filter_id, forallb_forall. intros k _. reflexivity.
Qed.

Lemma filteredKids_witness :
  filteredKids (set_kidFilterTags (fun _ => []) filteredState) = [northKid].
Proof.
  apply (proj2 (filteredKids_shows (set_kidFilterTags (fun _ => []) filteredState)));
    reflexivity.
Defined.

(** ** Visibility *)

Lemma visibleKidIds_fold (vis : JSObject bool) (ks : list Kid.t) (acc : JSSet) (i : string) :
  In i (fold_left (fun s k =>
          if match obj_get vis (Kid.id k) with Some v => v | None => false end
          then Set_add s (Kid.id k) else s) ks acc)
  <-> In i acc \/ (In i (map Kid.id ks) /\ obj_truthy vis i = true).
Proof.
  revert acc. induction ks as [| k ks IH]; intros acc; simpl; [tauto |].
  rewrite IH. fold (obj_truthy vis (Kid.id k)).
  destruct (obj_truthy vis (Kid.id k)) eqn:E.
  - rewrite Set_add_In. split; [intros [[H | ->] | H]; tauto | ].
    intros [H | [[<- | H] Ht]]; tauto.
  - split; [tauto |]. intros [H | [[<- | H] Ht]]; [tauto | congruence | tauto].
Qed.

Lemma visibleKidIds_In (st : AppState) (i : string) :
  In i (visibleKidIds st)
  <-> In i (map Kid.id (kids st)) /\ obj_truthy (visible st) i = true.
Proof. unfold visibleKidIds. rewrite visibleKidIds_fold. simpl. tauto. Qed.

Lemma eventIsVisible_iff (st : AppState) (ev : Event.t) :
  eventIsVisible st ev = true
  <-> Event.participants ev = []
      \/ exists p, In p (Event.participants ev)
                   /\ In (kidId p) (map Kid.id (kids st))
                   /\ obj_truthy (visible st) (kidId p) = true.
Proof.
  unfold eventIsVisible. destruct (Event.participants ev) as [| p0 ps] eqn:E.
  - simpl. split; [now left | reflexivity].
  - replace (Z.of_nat (length (p0 :: ps)) =? 0) with false
      by (symmetry; apply Z.eqb_neq; simpl length; lia).
    rewrite existsb_exists. split.
    + intros [p [Hp Hv]]. right. exists p. split; [assumption |].
      now apply visibleKidIds_In, Set_has_In.
    + intros [H | [p [Hp Hv]]]; [discriminate |]. exists p. split; [assumption |].
      now apply Set_has_In, visibleKidIds_In.
Qed.

(** The calendar shows an event when nobody is assigned to it, or when one
    of its participants is a kid of the roster whose box is ticked; an event
    all of whose participants are hidden, or unknown to the roster, is not
    shown. *)
Theorem visibleEvents_shows (st : AppState) (ev : Event.t) :
  In ev (visibleEvents st)
  <-> In ev (events st)
      /\ (Event.participants ev = []
          \/ exists p, In p (Event.participants ev)
                       /\ In (kidId p) (map Kid.id (kids st))
                       /\ obj_truthy (visible st) (kidId p) = true).
Proof. unfold visibleEvents. now rewrite filter_In, eventIsVisible_iff. Qed.

Lemma set_all_get (b : bool) (ks : list Kid.t) (acc : JSObject bool) (i : string) :
  obj_get (fold_left (fun n k => obj_set (Kid.id k) b n) ks acc) i
  = if existsb (String.eqb i) (map Kid.id ks) then Some b else obj_get acc i.
Proof.
  revert acc. induction ks as [| k ks IH]; intros acc; simpl; [reflexivity |].
  rewrite IH. destruct (existsb (String.eqb i) (map Kid.id ks)); [now rewrite orb_true_r |].
  rewrite orb_false_r. destruct (String.eqb_spec i (Kid.id k)) as [-> | Hi].
  - apply obj_get_set_same.
  - apply obj_get_set_other. congruence.
Qed.

(** After "hide all" the calendar shows exactly the events without
    participants; after "show all" it shows every event except those whose
    participants are all unknown to the roster. *)
Theorem hideAll_showAll_visible (st : AppState) (ev : Event.t) :
  (In ev (visibleEvents (hideAll st))
   <-> In ev (events st) /\ Event.participants ev = [])
  /\ (In ev (visibleEvents (showAll st))
      <-> In ev (events st)
          /\ (Event.participants ev = []
              \/ exists p, In p (Event.participants ev)
                           /\ In (kidId p) (map Kid.id (kids st)))).
Proof.
  unfold visibleEvents. rewrite !filter_In, !eventIsVisible_iff.
  assert (Hh : forall i, obj_truthy (visible (hideAll st)) i = false).
  { intros i. destruct st; simpl. unfold obj_truthy. rewrite set_all_get. simpl.
    now destruct (existsb _ _). }
  assert (Hs : forall i, In i (map Kid.id (kids st)) ->
                         obj_truthy (visible (showAll st)) i = true).
  { intros i Hi. destruct st; simpl in *. unfold obj_truthy. rewrite set_all_get.
    apply existsb_eqb_In in Hi. now rewrite Hi. }
  assert (Hkh : kids (hideAll st) = kids st /\ events (hideAll st) = events st)
    by (destruct st; now split).
  assert (Hks : kids (showAll st) = kids st /\ events (showAll st) = events st)
    by (destruct st; now split).
  destruct Hkh as [Hkh Heh]. destruct Hks as [Hks Hes].
  rewrite Heh, Hes, Hks. split.
  - split; [| tauto]. intros [Hin [H | [p [_ [_ Ht]]]]]; [tauto |].
    rewrite Hh in Ht. discriminate.
  - split; intros [Hin [H | [p Hp]]]; (split; [assumption |]); try tauto.
    + right. exists p. tauto.
    + right. exists p. destruct Hp as [Hp Hk]. auto.
Qed.

Lemma obj_truthy_toggle_twice (o : JSObject bool) (k i : string) :
  obj_truthy (obj_set k (negb (obj_truthy (obj_set k (negb (obj_truthy o k)) o) k))
                (obj_set k (negb (obj_truthy o k)) o)) i
  = obj_truthy o i.
Proof.
  unfold obj_truthy at 1. destruct (String.eqb_spec k i) as [-> | Hk].
  - rewrite obj_get_set_same. unfold obj_truthy at 1. rewrite obj_get_set_same.
    apply negb_involutive.
  - rewrite !obj_get_set_other by assumption. reflexivity.
Qed.

(** Ticking the box of a kid flips the kid between shown and hidden, and
    ticking it twice brings back the same visible events. *)
Theorem toggleVisible_twice (kid_id : string) (st : AppState) :
  (forall i, obj_truthy (visible (toggleVisible kid_id st)) i
             = if String.eqb kid_id i then negb (obj_truthy (visible st) i)
               else obj_truthy (visible st) i)
  /\ visibleEvents (toggleVisible kid_id (toggleVisible kid_id st)) = visibleEvents st.
Proof.
  split.
  - intros i. destruct st; simpl. unfold obj_truthy at 1.
    destruct (String.eqb_spec kid_id i) as [-> | Hk].
    + now rewrite obj_get_set_same.
    + now rewrite obj_get_set_other.
  - assert (Hids : visibleKidIds (toggleVisible kid_id (toggleVisible kid_id st))
                   = visibleKidIds st).
    { unfold visibleKidIds.
      assert (Hk : kids (toggleVisible kid_id (toggleVisible kid_id st)) = kids st)
        by now destruct st.
      rewrite Hk. apply fold_left_pointwise. intros s k.
      assert (Ht : obj_truthy (visible (toggleVisible kid_id (toggleVisible kid_id st)))
                     (Kid.id k)
                   = obj_truthy (visible st) (Kid.id k)).
      { destruct st; simpl. apply obj_truthy_toggle_twice. }
      unfold obj_truthy in Ht. now rewrite Ht. }
    unfold visibleEvents.
    assert (He : events (toggleVisible kid_id (toggleVisible kid_id st)) = events st)
      by now destruct st.
    rewrite He. apply filter_ext. intros ev.
    unfold eventIsVisible. now rewrite Hids.
Qed.

(** ** Status and removal of a participant *)

Lemma withParticipants_same (e : Event.t) : withParticipants (Event.participants e) e = e.
Proof. now destruct e. Qed.

Lemma set_events_map_same (f : Event.t -> Event.t) (st : AppState) :
  (forall e, In e (events st) -> f e = e) -> set_events (map f) st = st.
Proof.
  intros H. destruct st; simpl in *. f_equal.
  rewrite <- (map_id events0) at 2. now apply map_ext_in.
Qed.

Lemma set_events_map_twice (f g : Event.t -> Event.t) (st : AppState) :
  set_events (map f) (set_events (map g) st) = set_events (map (fun e => f (g e))) st.
Proof. destruct st. simpl. now rewrite map_map. Qed.


Lemma status_step_range (s : Z) : 0 <= s <= 2 -> 0 <= Z.rem (s + 1) 3 <= 2.
Proof.
  intros H. assert (Hs : s = 0 \/ s = 1 \/ s = 2) by lia.
  destruct Hs as [-> | [-> | ->]]; vm_compute; split; discriminate.
Qed.

Lemma cycleParticipantStatus_events (eventId kid_id : string) (st : AppState) :
  cycleParticipantStatus eventId kid_id st
  = set_events (map (cycleEvent eventId kid_id)) st.
Proof. reflexivity. Qed.






Lemma droppedParticipant_absent (kid_id : string) (ps : list Participation) :
  ~ In kid_id (map kidId (filter (fun p => negb (String.eqb (kidId p) kid_id)) ps)).
Proof.
  rewrite in_map_iff. intros [p [Hp Hf]]. apply filter_In in Hf.
  destruct Hf as [_ Hf]. apply negb_true_iff, String.eqb_neq in Hf. congruence.
Qed.

(** Removing a participant takes the kid out of the events of that id and
    keeps their other participants, in order and with their statuses; the
    other events are untouched.  Removing again changes nothing more, and an
    event id or kid id that matches nothing leaves the state as it is. *)
Theorem removeParticipant_removes (eventId kid_id : string) (st : AppState) :
  Forall2 (fun e e' =>
             (Event.id e = eventId ->
              ~ In kid_id (Event.kidIds e')
              /\ e' = withParticipants
                        (filter (fun p => negb (String.eqb (kidId p) kid_id))
                           (Event.participants e)) e)
             /\ (Event.id e <> eventId -> e' = e))
    (events st) (events (removeParticipant eventId kid_id st))
  /\ removeParticipant eventId kid_id (removeParticipant eventId kid_id st)
     = removeParticipant eventId kid_id st
  /\ (Forall (fun e => Event.id e = eventId -> ~ In kid_id (Event.kidIds e)) (events st) ->
      removeParticipant eventId kid_id st = st).
Proof.
  split; [| split].
  - destruct st; simpl. rewrite <- (map_id events0) at 1.
    apply Forall2_map_pointwise. intros e _.
    destruct (String.eqb_spec (Event.id e) eventId) as [He | He]; split; try tauto.
    intros _. split; [apply droppedParticipant_absent | reflexivity].
  - unfold removeParticipant. rewrite set_events_map_twice.
    destruct st; simpl. f_equal. apply map_ext. intros e.
    destruct (String.eqb (Event.id e) eventId) eqn:E; simpl; rewrite E; [| reflexivity].
    f_equal. rewrite filter_filter. apply filter_ext. intros p.
    now destruct (String.eqb (kidId p) kid_id).
  - intros H. unfold removeParticipant. apply set_events_map_same. intros e Hin.
    destruct (String.eqb_spec (Event.id e) eventId) as [He | He]; [| reflexivity].
    apply without_participant_same. exact (proj1 (Forall_forall _ _) H e Hin He).
Qed.

Lemma removeParticipant_witness :
  removeParticipant "e1" "k2" triagedState = triagedState.
Proof.
  apply (proj2 (proj2 (removeParticipant_removes "e1" "k2" triagedState))).
  repeat constructor. simpl. intuition discriminate.
Defined.

(** ** Select all, confirm *)

Lemma obj_set_true_In (o : JSObject bool) (k i : string) :
  In (i, true) (obj_set k true o) <-> i = k \/ In (i, true) o.
Proof.
  induction o as [| [k' v'] o IH]; simpl.
  - split; [intros [E | []]; left; congruence | intros [-> | []]; now left].
  - destruct (String.eqb_spec k' k) as [-> | Hk]; simpl.
    + split.
      * intros [E | H]; [left; congruence | right; now right].
      * intros [-> | [E | H]]; [now left | | now right].
        injection E as -> ->. now left.
    + rewrite IH. split.
      * intros [E | [-> | H]]; [right; now left | now left | right; now right].
      * intros [-> | [E | H]]; [right; now left | now left | right; now right].
Qed.

Lemma selectAll_fold (l : list Scored) (acc : JSObject bool) (i : string) :
  In (i, true)
    (fold_left (fun n x => if 0 <? score x then obj_set (Kid.id (kid x)) true n else n) l acc)
  <-> In (i, true) acc \/ exists x, In x l /\ 0 < score x /\ Kid.id (kid x) = i.
Proof.
  revert acc. induction l as [| x l IH]; intros acc; simpl.
  - split; [now left | intros [H | [x [[] _]]]; exact H].
  - rewrite IH. destruct (Z.ltb_spec 0 (score x)) as [Hs | Hs].
    + rewrite obj_set_true_In. split.
      * intros [[-> | H] | [y [Hy Hr]]]; [right; exists x; tauto | now left |].
        right. exists y. tauto.
      * intros [H | [y [[<- | Hy] [Hr <-]]]]; [left; now right | left; now left |].
        right. exists y. tauto.
    + split.
      * intros [H | [y [Hy Hr]]]; [now left |]. right. exists y. tauto.
      * intros [H | [y [[<- | Hy] [Hr E]]]]; [now left | lia |].
        right. exists y. tauto.
Qed.

Lemma suggestedKids_In (lc : string -> string -> Z) (st : AppState) (ev : Event.t)
  (x : Scored) :
  activeEventForSuggest st = Some ev ->
  In x (suggestedKids lc st)
  <-> In (kid x) (kids st)
      /\ isCandidate (toLowerCase (trim (suggestSearch st))) ev (kid x) = true
      /\ score x = overlap (kid x) ev.
Proof.
  intros Hev. rewrite (suggestedKids_candidates lc st ev Hev), Array_sort_In, in_map_iff.
  split.
  - intros [k [<- Hk]]. apply filter_In in Hk. simpl. tauto.
  - intros (Hin & Hc & Hs). exists (kid x). split.
    + destruct x as [k s]. simpl in *. now subst s.
    + apply filter_In. tauto.
Qed.

Lemma selectAllMatchGt0_state (lc : string -> string -> Z) (st : AppState) :
  activeEventForSuggest (selectAllMatchGt0 lc st) = activeEventForSuggest st
  /\ kids (selectAllMatchGt0 lc st) = kids st
  /\ suggestSelection (selectAllMatchGt0 lc st)
     = fold_left (fun n x => if 0 <? score x then obj_set (Kid.id (kid x)) true n else n)
         (suggestedKids lc st) [].
Proof. destruct st. repeat split. Qed.

Lemma confirmSuggested_kids (now : Z) (st : AppState) :
  kids (confirmSuggested now st) = kids st.
Proof.
  unfold confirmSuggested. destruct (activeEventForSuggest st); [| reflexivity].
  now destruct st.
Qed.

Lemma openSuggestForEvent_state (eventId : string) (st : AppState) :
  activeEventForSuggest (openSuggestForEvent eventId st) = findEvent (events st) (Some eventId)
  /\ kids (openSuggestForEvent eventId st) = kids st
  /\ suggestSearch (openSuggestForEvent eventId st) = EmptyString
  /\ suggestSelection (openSuggestForEvent eventId st) = []
  /\ events (openSuggestForEvent eventId st) = events st.
Proof. destruct st. repeat split. Qed.

Lemma nobody_left (f : Kid.t -> bool) (ks : list Kid.t) :
  (forall k, In k ks -> f k = false) -> filter f ks = [].
Proof.
  induction ks as [| k ks IH]; simpl; intros H; [reflexivity |].
  rewrite (H k) by now left. apply IH. intros k' Hk'. apply H. now right.
Qed.

(** "Select all" followed by "Confirm" assigns every kid of the suggestion
    list to the event and nobody else; and if the search box was blank, the
    dialog opened on the event again has nobody left to suggest. *)
Theorem selectAll_confirm_exhausts (lc : string -> string -> Z) (now : Z)
  (st : AppState) (ev : Event.t) :
  activeEventForSuggest st = Some ev ->
  exists ev',
    findEvent (events (confirmSuggested now (selectAllMatchGt0 lc st))) (Some (Event.id ev))
    = Some ev'
    /\ (forall i, In i (Event.kidIds ev')
          <-> In i (Event.kidIds ev)
              \/ exists x, In x (suggestedKids lc st) /\ Kid.id (kid x) = i)
    /\ (trim (suggestSearch st) = EmptyString ->
        suggestedKids lc
          (openSuggestForEvent (Event.id ev)
             (confirmSuggested now (selectAllMatchGt0 lc st))) = []).
Proof.
  intros Hev.
  destruct (selectAllMatchGt0_state lc st) as (Hact & Hkids & Hsel).
  rewrite <- Hact in Hev.
  destruct (confirmSuggested_event now _ ev Hev) as (added & Hfind & _ & Hadded & _).
  rewrite Hact in Hev.
  assert (Hpicked : forall i, In (i, true) (suggestSelection (selectAllMatchGt0 lc st))
                              <-> exists x, In x (suggestedKids lc st) /\ Kid.id (kid x) = i).
  { intros i. rewrite Hsel, selectAll_fold. split.
    - intros [[] | [x (Hx & _ & Hi)]]. now exists x.
    - intros [x [Hx Hi]]. right. exists x. split; [assumption |]. split; [| assumption].
      apply (suggestedKids_In lc st ev x Hev) in Hx. destruct Hx as (_ & Hc & Hs).
      apply isCandidate_spec in Hc. lia. }
  assert (Hids : forall i, In i (Event.kidIds (confirmedWith now added ev))
                 <-> In i (Event.kidIds ev)
                     \/ exists x, In x (suggestedKids lc st) /\ Kid.id (kid x) = i).
  { intros i. unfold Event.kidIds, confirmedWith. simpl. rewrite map_app, in_app_iff.
    rewrite Hadded. unfold Object_entries. rewrite Hpicked. fold (Event.kidIds ev).
    destruct (in_dec string_dec i (Event.kidIds ev)); tauto. }
  exists (confirmedWith now added ev). split; [exact Hfind |]. split; [exact Hids |].
  intros Hblank.
  destruct (openSuggestForEvent_state (Event.id ev)
              (confirmSuggested now (selectAllMatchGt0 lc st)))
    as (Hact2 & Hkids2 & Hsearch2 & _ & _).
  rewrite Hfind in Hact2.
  rewrite (suggestedKids_candidates lc _ _ Hact2), Hsearch2, Hkids2,
    confirmSuggested_kids, Hkids.
  rewrite nobody_left; [reflexivity |]. intros k Hk.
  destruct (isCandidate _ (confirmedWith now added ev) k) eqn:Hc; [| reflexivity].
  exfalso.
  apply (isCandidate_spec EmptyString) in Hc. destruct Hc as (Hnot & _ & Hpos).
  apply Hnot, Hids.
  destruct (in_dec string_dec (Kid.id k) (Event.kidIds ev)) as [Hin | Hout]; [now left |].
  right. exists (mkScored k (overlap k ev)). split; [| reflexivity].
  apply (suggestedKids_In lc st ev _ Hev). simpl. split; [assumption |].
  split; [| reflexivity]. rewrite Hblank. apply (isCandidate_spec EmptyString).
  split; [assumption |]. split; [now left |]. exact Hpos.
Qed.

Lemma selectAll_confirm_witness :
  suggestedKids codeUnitCompare
    (openSuggestForEvent "e1"
       (confirmSuggested 1000 (selectAllMatchGt0 codeUnitCompare suggestState))) = [].
Proof.
  destruct (selectAll_confirm_exhausts codeUnitCompare 1000 suggestState northSouthEvent
              eq_refl) as (ev' & _ & _ & H).
  apply H. reflexivity.
Defined.

(** ** The NEW marks of the suggestion dialog *)

Lemma marks_fold (c : Scored -> bool) (l : list Scored) (acc : JSSet) (i : string) :
  In i (fold_left (fun s x => if c x then Set_add s (Kid.id (kid x)) else s) l acc)
  <-> In i acc \/ exists x, In x l /\ c x = true /\ Kid.id (kid x) = i.
Proof.
  revert acc. induction l as [| x l IH]; intros acc; simpl.
  - split; [now left | intros [H | [x [[] _]]]; exact H].
  - rewrite IH. destruct (c x) eqn:E.
    + rewrite Set_add_In. split.
      * intros [[H | ->] | [y [Hy Hr]]]; [now left | right; exists x; tauto |].
        right. exists y. tauto.
      * intros [H | [y [[<- | Hy] [Hr <-]]]]; [left; now left | left; now right |].
        right. exists y. tauto.
    + split.
      * intros [H | [y [Hy Hr]]]; [now left |]. right. exists y. tauto.
      * intros [H | [y [[<- | Hy] [Hr Hi]]]]; [now left | congruence |].
        right. exists y. tauto.
Qed.

(** In the suggestion dialog of an event with a baseline other than 0, the
    NEW mark is on exactly the kids that are new matches of the event (as
    the badge counts them) and match the search text; without a baseline
    nobody is marked. *)
Theorem newCandidateIds_marks_new_matches (lc : string -> string -> Z) (st : AppState)
  (ev : Event.t) :
  activeEventForSuggest st = Some ev ->
  (forall b, Event.suggestedAt ev = Some b -> b <> 0 ->
     forall i, In i (newCandidateIdsForSuggest lc st)
       <-> exists k, In k (kids st) /\ Kid.id k = i
                     /\ newMatch b ev k /\ matchesSearch (suggestSearch st) k)
  /\ (Event.suggestedAt ev = None \/ Event.suggestedAt ev = Some 0 ->
      newCandidateIdsForSuggest lc st = []).
Proof.
  intros Hev. unfold newCandidateIdsForSuggest. rewrite Hev. split.
  - intros b Hb Hb0 i. rewrite Hb. apply Z.eqb_neq in Hb0. rewrite Hb0.
    rewrite marks_fold. split.
    + intros [[] | [x (Hx & Hc & Hi)]].
      apply (suggestedKids_In lc st ev x Hev) in Hx. destruct Hx as (Hin & Hcand & Hs).
      apply isCandidate_spec in Hcand. destruct Hcand as (Hna & Hm & _).
      apply andb_true_iff in Hc. destruct Hc as [Hc1 Hc2].
      apply Z.ltb_lt in Hc1, Hc2.
      exists (kid x). unfold newMatch. rewrite <- Hs. repeat split; try assumption; lia.
    + intros [k (Hin & Hi & (Hc & Hna & Ho) & Hm)]. right.
      exists (mkScored k (overlap k ev)). simpl. split; [| split; [| assumption]].
      * apply (suggestedKids_In lc st ev _ Hev). simpl. split; [assumption |].
        split; [| reflexivity]. apply isCandidate_spec. repeat split; try assumption. lia.
      * apply andb_true_iff. split; apply Z.ltb_lt; lia.
  - intros [-> | ->]; reflexivity.
Qed.

Lemma newCandidateIds_witness :
  In "k2" (newCandidateIdsForSuggest codeUnitCompare (openSuggestForEvent "e1" triagedState)).
Proof.
  refine (proj2 (proj1 (newCandidateIds_marks_new_matches codeUnitCompare
                          (openSuggestForEvent "e1" triagedState) triagedEvent eq_refl)
                   1000 eq_refl _ "k2") _).
  - discriminate.
  - exists lateKidBoth. split; [right; now left |]. split; [reflexivity |]. split.
    + unfold newMatch. split; [reflexivity |]. split; [| reflexivity].
      simpl. intuition discriminate.
    + now left.
Defined.

(** ** Confirmation and the badge *)

(** Right after a confirmation the badge of the event is 0 as long as every
    kid of the roster was created at or before the baseline, that is, before
    the time of a first confirmation: the kids that were there when the
    event was triaged are never flagged, picked or not. *)
Theorem confirm_leaves_no_attention (now : Z) (st : AppState) (ev : Event.t) :
  activeEventForSuggest st = Some ev ->
  Forall (fun k => Kid.createdAt k
                   <= match Event.suggestedAt ev with Some t => t | None => now end)
    (kids st) ->
  exists ev',
    findEvent (events (confirmSuggested now st)) (Some (Event.id ev)) = Some ev'
    /\ Event.suggestedAt ev'
       = Some (match Event.suggestedAt ev with Some t => t | None => now end)
    /\ attentionCount (kids (confirmSuggested now st)) ev' = 0.
Proof.
  intros Hev Hold.
  destruct (confirmSuggested_event now st ev Hev) as (added & Hfind & _).
  exists (confirmedWith now added ev). split; [exact Hfind |]. split; [reflexivity |].
  rewrite confirmSuggested_kids.
  set (b := match Event.suggestedAt ev with Some t => t | None => now end) in *.
  destruct (Z.eq_dec b 0) as [Hb0 | Hb0].
  { apply attentionCount_untriaged. right. left. simpl. fold b. now rewrite Hb0. }
  destruct (Event.tags ev) as [| t ts] eqn:Ht.
  { apply attentionCount_untriaged. right. right. exact Ht. }
  rewrite (attentionCount_filter _ _ b); [| reflexivity | assumption | simpl; congruence].
  rewrite nobody_left; [reflexivity |]. intros k Hk.
  unfold isNewMatch. pose proof (proj1 (Forall_forall _ _) Hold k Hk) as Hc. simpl in Hc.
  replace (Kid.createdAt k <=? b) with true by (symmetry; apply Z.leb_le; exact Hc).
  simpl. now rewrite andb_false_r.
Qed.

Lemma confirm_leaves_no_attention_witness :
  exists ev',
    findEvent (events (confirmSuggested 2000 pickedState)) (Some "e1") = Some ev'
    /\ Event.suggestedAt ev' = Some 2000
    /\ attentionCount (kids (confirmSuggested 2000 pickedState)) ev' = 0.
Proof.
  apply (confirm_leaves_no_attention 2000 pickedState northSouthEvent eq_refl).
  repeat (apply Forall_cons || apply Forall_nil); simpl; lia.
Defined.

(** ** Events: create, edit, delete *)

(** An accepted request appends one event without participants and without
    baseline, opens the suggestion dialog with nothing ticked, and the new
    event is on the calendar at once, whatever kids are hidden: it is in the
    bucket of every day from the day of its start to the day of its end. *)
Theorem createEvent_shows_new_event (combineDateTime : string -> string -> option Z)
  (uuid : string) (st : AppState) (s e : Z) :
  clampStr (evTitle st) <> EmptyString ->
  combineDateTime (evStartDate st) (evStartTime st) = Some s ->
  combineDateTime (evEndDate st) (evEndTime st) = Some e ->
  s < e ->
  exists st',
    createEvent combineDateTime uuid st = Done st' None
    /\ events st'
       = events st ++ [Event.mk uuid (clampStr (evTitle st)) s e (evTags st) [] None []]
    /\ activeEventIdForSuggest st' = Some uuid
    /\ suggestSelection st' = []
    /\ kids st' = kids st
    /\ In (Event.mk uuid (clampStr (evTitle st)) s e (evTags st) [] None [])
         (visibleEvents st')
    /\ forall day, ymd s <= day <= ymd e ->
         In (Event.mk uuid (clampStr (evTitle st)) s e (evTags st) [] None [])
           (bucketOf (calendarBuckets st') day).
Proof.
  intros Ht Hs He Hlt. unfold createEvent.
  apply String.eqb_neq in Ht. rewrite Ht, Hs, He.
  replace (s >=? e) with false by (rewrite Z.geb_leb; symmetry; apply Z.leb_gt; lia).
  eexists. split; [reflexivity |].
  set (ev := Event.mk uuid (clampStr (evTitle st)) s e (evTags st) [] None []).
  set (st' := openSuggestForEvent _ _).
  assert (Hevents : events st' = events st ++ [ev]) by (destruct st; reflexivity).
  assert (Hvis : In ev (visibleEvents st')).
  { unfold visibleEvents. apply filter_In. split.
    - rewrite Hevents. apply in_or_app. right. now left.
    - reflexivity. }
  split; [exact Hevents |]. split; [now destruct st |]. split; [now destruct st |].
  split; [now destruct st |]. split; [exact Hvis |].
  intros day Hday. unfold calendarBuckets. rewrite eventsByDay_bucket.
  apply Array_sort_In, filter_In. split; [exact Hvis |].
  apply touchesDay_spec. exact Hday.
Qed.

Lemma createEvent_shows_witness :
  exists st',
    createEvent readFormDate "e2"
      (set_evTitle (fun _ => " Camp ") (mkState [] [] [] "" [] "" [] None [] [] [] ""
         "" "2024-01-01" "2024-01-02" "09:00" "10:00" [] None None "" [] None []))
    = Done st' None
    /\ In (Event.mk "e2" "Camp" 0 86400000 [] [] None []) (bucketOf (calendarBuckets st') 1).
Proof.
  destruct (createEvent_shows_new_event readFormDate "e2"
              (set_evTitle (fun _ => " Camp ") (mkState [] [] [] "" [] "" [] None [] [] [] ""
                 "" "2024-01-01" "2024-01-02" "09:00" "10:00" [] None None "" [] None []))
              0 86400000)
    as (st' & Hc & _ & _ & _ & _ & _ & Hb).
  - discriminate.
  - reflexivity.
  - reflexivity.
  - lia.
  - exists st'. split; [exact Hc |]. apply Hb. split; discriminate.
Defined.



(** An end typed a day before the start is refused. *)
Example saveEditEventInfo_backwards :
  saveEditEventInfo readFormDate
    (mkEditInfo true (Some "e1") "E1" "2024-01-02" "2024-01-01" "09:00" "10:00")
    triagedState
  = Done (triagedState,
          mkEditInfo true (Some "e1") "E1" "2024-01-02" "2024-01-01" "09:00" "10:00")
      (Some alertStartNotBeforeEnd).
Proof. reflexivity. Qed.

Lemma find_filter_other (evs : list Event.t) (eventId other : string) :
  other <> eventId ->
  find (fun e => String.eqb (Event.id e) other)
    (filter (fun e => negb (String.eqb (Event.id e) eventId)) evs)
  = find (fun e => String.eqb (Event.id e) other) evs.
Proof.
  intros Hne. induction evs as [| e evs IH]; simpl; [reflexivity |].
  destruct (String.eqb_spec (Event.id e) eventId) as [He | He]; simpl.
  - destruct (String.eqb_spec (Event.id e) other); [congruence | exact IH].
  - now rewrite IH.
Qed.

(** A confirmed deletion takes the events of that id off the list and
    nothing else: the other events stay in order and are found as before,
    kids are untouched, and the detail view closes if it was on the deleted
    event.  A refused confirmation changes nothing. *)
Theorem deleteEvent_removes (confirmed : bool) (eventId : string) (st : AppState) :
  (confirmed = true ->
   events (deleteEvent confirmed eventId st)
   = filter (fun e => negb (String.eqb (Event.id e) eventId)) (events st)
   /\ ~ In eventId (map Event.id (events (deleteEvent confirmed eventId st)))
   /\ (forall other, other <> eventId ->
         findEvent (events (deleteEvent confirmed eventId st)) (Some other)
         = findEvent (events st) (Some other))
   /\ kids (deleteEvent confirmed eventId st) = kids st
   /\ activeEventForDetail (deleteEvent confirmed eventId st)
      = if match activeEventIdForDetail st with
           | Some i => String.eqb i eventId
           | None => false
           end
        then None else activeEventForDetail st)
  /\ (confirmed = false -> deleteEvent confirmed eventId st = st).
Proof.
  split; [intros -> | intros ->; reflexivity].
  unfold deleteEvent. simpl negb. cbv iota.
  assert (Hev : events (match activeEventIdForDetail st with
        | Some i => if String.eqb i eventId
                    then set_activeEventIdForDetail (fun _ => None)
                           (set_events (filter (fun e => negb (String.eqb (Event.id e) eventId))) st)
                    else set_events (filter (fun e => negb (String.eqb (Event.id e) eventId))) st
        | None => set_events (filter (fun e => negb (String.eqb (Event.id e) eventId))) st
        end)
      = filter (fun e => negb (String.eqb (Event.id e) eventId)) (events st)).
  { destruct st; simpl. destruct activeEventIdForDetail0 as [i |]; [| reflexivity].
    now destruct (String.eqb i eventId). }
  cbv zeta. rewrite Hev. split; [reflexivity |]. split; [| split; [| split]].
  - rewrite in_map_iff. intros [e [He Hf]]. apply filter_In in Hf.
    destruct Hf as [_ Hf]. apply negb_true_iff, String.eqb_neq in Hf. congruence.
  - intros other Hne. simpl. now apply find_filter_other.
  - destruct st; simpl. destruct activeEventIdForDetail0 as [i |]; [| reflexivity].
    now destruct (String.eqb i eventId).
  - unfold activeEventForDetail. rewrite Hev.
    destruct st; simpl. destruct activeEventIdForDetail0 as [i |]; [| reflexivity].
    destruct (String.eqb_spec i eventId) as [-> | Hi]; simpl; [reflexivity |].
    now apply find_filter_other.
Qed.

Lemma deleteEvent_witness :
  ~ In "e1" (map Event.id (events (deleteEvent true "e1" triagedState))).
Proof.
  exact (proj1 (proj2 (proj1 (deleteEvent_removes true "e1" triagedState) eq_refl))).
Defined.

Lemma unique_id_same (evs : list Event.t) (a b : Event.t) :
  NoDup (map Event.id evs) -> In a evs -> In b evs -> Event.id a = Event.id b -> a = b.
Proof.
  induction evs as [| e evs IH]; simpl; intros Hnd Ha Hb Hid; [destruct Ha |].
  inversion Hnd as [| ? ? Hnot Hnd']; subst.
  destruct Ha as [-> | Ha]; destruct Hb as [-> | Hb]; try reflexivity.
  - exfalso. apply Hnot. rewrite Hid. now apply in_map.
  - exfalso. apply Hnot. rewrite <- Hid. now apply in_map.
  - now apply IH.
Qed.

Lemma unique_kid_id_same (ks : list Kid.t) (a b : Kid.t) :
  NoDup (map Kid.id ks) -> In a ks -> In b ks -> Kid.id a = Kid.id b -> a = b.
Proof.
  induction ks as [| k ks IH]; simpl; intros Hnd Ha Hb Hid; [destruct Ha |].
  inversion Hnd as [| ? ? Hnot Hnd']; subst.
  destruct Ha as [-> | Ha]; destruct Hb as [-> | Hb]; try reflexivity.
  - exfalso. apply Hnot. rewrite Hid. now apply in_map.
  - exfalso. apply Hnot. rewrite <- Hid. now apply in_map.
  - now apply IH.
Qed.

(** Opening the tag editor of an event or of a kid of the state and saving
    without a change leaves the events and the roster as they were, when ids
    are distinct and the edited id is not the empty text (which the save
    takes for "nothing open"). *)
Theorem editTags_round_trip (i : string) (st : AppState) :
  i <> EmptyString ->
  (NoDup (map Event.id (events st)) -> In i (map Event.id (events st)) ->
   events (saveEditEventTags (openEditTagsForEvent i st)) = events st)
  /\ (NoDup (map Kid.id (kids st)) -> In i (map Kid.id (kids st)) ->
      kids (saveEditKidTags (openEditTagsForKid i st)) = kids st).
Proof.
  intros Hi. apply String.eqb_neq in Hi. split; intros Hnd Hknown.
  - unfold openEditTagsForEvent.
    destruct (find _ (events st)) as [ev |] eqn:E.
    + apply find_some in E. destruct E as [Hin He]. apply String.eqb_eq in He.
      unfold saveEditEventTags.
      replace (editEventId _) with (Some i) by now destruct st.
      rewrite Hi.
      destruct st; simpl in *. rewrite <- (map_id events0) at 2.
      apply map_ext_in. intros e Hine.
      destruct (String.eqb_spec (Event.id e) i) as [Hei | Hei]; [| reflexivity].
      assert (e = ev) by (apply (unique_id_same events0); congruence). subst e.
      now apply Event_with_tags_same.
    + exfalso. apply in_map_iff in Hknown. destruct Hknown as [e [He Hin]].
      pose proof (find_none _ _ E e Hin) as Hf. simpl in Hf.
      rewrite He, String.eqb_refl in Hf. discriminate Hf.
  - unfold openEditTagsForKid.
    destruct (kidById_get (kids st) i) as [kd |] eqn:E.
    + unfold kidById_get in E. apply find_some in E. destruct E as [Hin He].
      apply in_rev in Hin. apply String.eqb_eq in He.
      unfold saveEditKidTags.
      replace (editKidId _) with (Some i) by now destruct st.
      rewrite Hi.
      destruct st; simpl in *. rewrite <- (map_id kids0) at 2.
      apply map_ext_in. intros k Hink.
      destruct (String.eqb_spec (Kid.id k) i) as [Hki | Hki]; [| reflexivity].
      assert (k = kd) by (apply (unique_kid_id_same kids0); congruence). subst k.
      now apply Kid_with_tags_same.
    + exfalso. apply kidById_get_known in Hknown. contradiction.
Qed.

Lemma editTags_round_trip_witness :
  events (saveEditEventTags (openEditTagsForEvent "e1" triagedState)) = events triagedState.
Proof.
  apply (proj1 (editTags_round_trip "e1" triagedState ltac:(discriminate))).
  - repeat constructor. intros [].
  - now left.
Defined.

(** ** The List View *)

Lemma string_append_assoc (a b c : string) :
  String.append (String.append a b) c = String.append a (String.append b c).
Proof. induction a as [| x a IH]; simpl; [reflexivity | now rewrite IH]. Qed.

Lemma string_append_empty (a : string) : String.append a EmptyString = a.
Proof. induction a as [| x a IH]; simpl; [reflexivity | now rewrite IH]. Qed.

(** A part of a joined text occurs in it. *)
Lemma join_occurs (sep x : string) (parts : list string) :
  In x parts -> occursIn x (join sep parts).
Proof.
  unfold join, occursIn. induction parts as [| h parts IH]; [intros [] |].
  intros [-> | Hin].
  - destruct parts as [| h' parts].
    + exists EmptyString, EmptyString. simpl. now rewrite string_append_empty.
    + exists EmptyString, (String.append sep (String.concat sep (h' :: parts))). reflexivity.
  - destruct parts as [| h' parts]; [destruct Hin |].
    destruct (IH Hin) as [pre [post Hc]].
    exists (String.append h (String.append sep pre)), post.
    change (String.concat sep (h :: h' :: parts))
      with (String.append h (String.append sep (String.concat sep (h' :: parts)))).
    rewrite Hc. now rewrite !string_append_assoc.
Qed.

Lemma matchTags_all (filterTags : list string) (ev : Event.t) :
  matchTags (Set_new filterTags) ev = true
  <-> forall t, In t filterTags -> In t (Event.tags ev).
Proof.
  unfold matchTags. destruct (Set_size (Set_new filterTags) =? 0) eqn:E.
  - apply Set_new_size_0 in E. subst. split; [intros _ t [] | reflexivity].
  - rewrite forallb_forall. split; intros H t Ht.
    + apply Set_new_In, Set_has_In, H, Set_new_In, Ht.
    + apply Set_has_In, Set_new_In, H, Set_new_In, Ht.
Qed.

Lemma listViewEvents_lists_aux (st : AppState) (ev : Event.t) :
  In ev (events st)
  /\ (forall t, In t (listFilterTags st) -> In t (Event.tags ev))
  /\ matchQuery (kids st) (norm (listSearch st)) ev = true ->
  In ev (listViewEvents st).
Proof.
  unfold listViewEvents.
  rewrite Array_sort_In, filter_In, andb_true_iff, matchTags_all. tauto.
Qed.



(** Typing the title of an event, one of its tags, the name of one of its
    participants or one of its notes finds the event in the List View, in
    any letter case and with spaces around, provided the event passes the
    tag filter. *)
Theorem listView_search_finds (st : AppState) (ev : Event.t) (part : string) :
  In ev (events st) ->
  (forall t, In t (listFilterTags st) -> In t (Event.tags ev)) ->
  part = Event.title ev
  \/ In part (Event.tags ev)
  \/ (exists p k, In p (Event.participants ev)
                  /\ kidById_get (kids st) (kidId p) = Some k /\ part = Kid.name k)
  \/ In part (Object_values (Event.suggestNotes ev)) ->
  norm (listSearch st) = norm part ->
  In ev (listViewEvents st).
Proof.
  intros Hin Htags Hpart Hq.
  apply listViewEvents_lists_aux. split; [assumption |].
  split; [assumption |].
  unfold matchQuery. destruct (String.eqb _ EmptyString); [reflexivity |].
  apply includes_occursIn. rewrite Hq. apply join_occurs, in_map.
  destruct Hpart as [-> | [Ht | [(p & k & Hp & Hk & ->) | Hn]]].
  - now left.
  - right. apply in_or_app. now left.
  - right. apply in_or_app. right. apply in_or_app. left.
    apply in_map_iff. exists p. now rewrite Hk.
  - right. apply in_or_app. right. apply in_or_app. now right.
Qed.

Lemma listView_search_witness : In triagedEvent (listViewEvents searchingState).
Proof.
  apply (listView_search_finds searchingState triagedEvent "E1").
  - now left.
  - simpl. intros t [<- | []]. now left.
  - now left.
  - reflexivity.
Defined.

(** ** The month grid *)

Lemma ymd_addDays (d n : Z) : ymd (addDays d n) = ymd d + n.
Proof.
  unfold ymd, addDays, msPerDay. now rewrite Z.div_add.
Qed.

(** The grid starts on the Monday of the week of the given day, at the
    start of that day: at most six days back, never after the given day. *)
Theorem startOfWeekMonday_is_monday (d : Z) :
  getDay (startOfWeekMonday d) = 1
  /\ atStartOfDay (startOfWeekMonday d) = startOfWeekMonday d
  /\ 0 <= ymd d - ymd (startOfWeekMonday d) <= 6.
Proof.
  unfold startOfWeekMonday, getDay.
  rewrite !ymd_atStartOfDay, !ymd_addDays.
  split; [| split].
  - Z.to_euclidean_division_equations. lia.
  - rewrite !atStartOfDay_day, ymd_of_day. reflexivity.
  - Z.to_euclidean_division_equations. lia.
Qed.

Lemma gridDays_nth (gridStart : Z) (i : nat) :
  (i < 42)%nat -> nth i (gridDays gridStart) 0 = addDays gridStart (Z.of_nat i).
Proof.
  intros Hi. unfold gridDays.
  rewrite (nth_indep _ 0 (addDays gridStart (Z.of_nat 0)))
    by (rewrite length_map, length_seq; exact Hi).
  rewrite (map_nth (fun i => addDays gridStart (Z.of_nat i))).
  now rewrite seq_nth.
Qed.

(** The grid has 42 cells on 42 consecutive days, so no two cells share a
    day; and when it starts on a Monday, cell [i] falls on weekday
    [(i + 1) mod 7], so each of the seven columns holds one weekday. *)
Theorem gridDays_consecutive (gridStart : Z) :
  length (gridDays gridStart) = 42%nat
  /\ (forall i, (i < 42)%nat ->
        ymd (nth i (gridDays gridStart) 0) = ymd gridStart + Z.of_nat i)
  /\ NoDup (map ymd (gridDays gridStart))
  /\ (getDay gridStart = 1 ->
      forall i, (i < 42)%nat ->
        getDay (nth i (gridDays gridStart) 0) = (Z.of_nat i + 1) mod 7).
Proof.
  split; [| split; [| split]].
  - unfold gridDays. now rewrite length_map, length_seq.
  - intros i Hi. now rewrite gridDays_nth, ymd_addDays.
  - unfold gridDays. rewrite map_map.
    apply NoDup_map_NoDup_ForallPairs; [| apply seq_NoDup].
    intros a b _ _. rewrite !ymd_addDays. lia.
  - intros Hm i Hi. rewrite gridDays_nth by assumption. unfold getDay in *.
    rewrite ymd_addDays. revert Hm. Z.to_euclidean_division_equations. lia.
Qed.

Lemma gridDays_witness :
  getDay (nth 8 (gridDays (startOfWeekMonday 0)) 0) = (Z.of_nat 8 + 1) mod 7.
Proof.
  apply (proj2 (proj2 (proj2 (gridDays_consecutive (startOfWeekMonday 0))))).
  - reflexivity.
  - repeat constructor.
Defined.

(** ** The invariant of the data *)

Lemma NoDup_keys_kept {T} (key : T -> string) (keep : T -> bool) (xs : list T) :
  NoDup (map key xs) -> NoDup (map key (filter keep xs)).
Proof.
  induction xs as [| x xs IH]; simpl; intros H; [constructor |].
  inversion H as [| ? ? Hfresh Hrest]; subst.
  destruct (keep x); simpl; [| exact (IH Hrest)].
  constructor; [| exact (IH Hrest)].
  intros Hin. apply Hfresh. apply in_map_iff in Hin. destruct Hin as [y [Hy Hf]].
  apply filter_In in Hf. apply in_map_iff. exists y. tauto.
Qed.

Lemma NoDup_keys_mapped {T} (key : T -> string) (f : T -> T) (xs : list T) :
  (forall x, In x xs -> key (f x) = key x) ->
  NoDup (map key xs) -> NoDup (map key (map f xs)).
Proof.
  intros Hf Hnd. rewrite map_map. now rewrite (map_ext_in _ key).
Qed.

Lemma NoDup_keys_added {T} (key : T -> string) (x : T) (xs : list T) :
  ~ In (key x) (map key xs) -> NoDup (map key xs) -> NoDup (map key (xs ++ [x])).
Proof.
  intros Hfresh Hnd. rewrite map_app. simpl.
  apply NoDup_app; [assumption | repeat constructor; intros [] |].
  intros a Ha [<- | []]. contradiction.
Qed.

Lemma eventsOk_map (f : Event.t -> Event.t) (evs : list Event.t) :
  eventsOk evs ->
  (forall e, In e evs -> Event.id (f e) = Event.id e /\ (eventOk e -> eventOk (f e))) ->
  eventsOk (map f evs).
Proof.
  intros [Hnd Hok] Hf. split.
  - apply NoDup_keys_mapped; [| assumption]. intros e He. apply Hf, He.
  - apply Forall_map, Forall_forall. intros e He.
    apply Hf; [assumption |]. exact (proj1 (Forall_forall _ _) Hok e He).
Qed.

Lemma eventsOk_filter (keep : Event.t -> bool) (evs : list Event.t) :
  eventsOk evs -> eventsOk (filter keep evs).
Proof.
  intros [Hnd Hok]. split; [now apply NoDup_keys_kept |].
  apply Forall_forall. intros e He. apply filter_In in He.
  exact (proj1 (Forall_forall _ _) Hok e (proj1 He)).
Qed.

Lemma eventsOk_added (ev : Event.t) (evs : list Event.t) :
  ~ In (Event.id ev) (map Event.id evs) -> eventOk ev -> eventsOk evs ->
  eventsOk (evs ++ [ev]).
Proof.
  intros Hfresh Hev [Hnd Hok]. split; [now apply NoDup_keys_added |].
  apply Forall_app. split; [assumption |].
  apply Forall_cons; [assumption | apply Forall_nil].
Qed.

Lemma eventOk_with_tags (f : list string -> list string) (e : Event.t) :
  eventOk e -> eventOk (Event.with_tags f e).
Proof. intros H. exact H. Qed.

Lemma eventOk_without (kid_id : string) (e : Event.t) :
  eventOk e ->
  eventOk (withParticipants
             (filter (fun p => negb (String.eqb (kidId p) kid_id)) (Event.participants e)) e).
Proof.
  intros (Hnd & Hst & Hse). split; [| split; [| exact Hse]].
  - unfold Event.kidIds. simpl. now apply NoDup_keys_kept.
  - simpl. apply Forall_forall. intros p Hp. apply filter_In in Hp.
    exact (proj1 (Forall_forall _ _) Hst p (proj1 Hp)).
Qed.

Lemma eventOk_cycleEvent (eventId kid_id : string) (e : Event.t) :
  eventOk e -> eventOk (cycleEvent eventId kid_id e).
Proof.
  intros (Hnd & Hst & Hse). unfold cycleEvent.
  destruct (negb (String.eqb (Event.id e) eventId)); [now repeat split |].
  split; [| split; [| exact Hse]].
  - unfold Event.kidIds. simpl. rewrite map_map.
    rewrite (map_ext _ kidId); [exact Hnd |]. intros p. unfold stepStatus.
    now destruct (String.eqb (kidId p) kid_id).
  - simpl. apply Forall_map. eapply Forall_impl; [| exact Hst]. intros p Hp.
    unfold stepStatus. destruct (String.eqb (kidId p) kid_id); simpl; [| assumption].
    now apply status_step_range.
Qed.

(** The participations that a confirmation appends. *)
Lemma eventOk_confirmed (now : Z) (sel : JSObject bool) (ev : Event.t) :
  obj_wf sel -> eventOk ev ->
  eventOk (confirmedWith now
    (map (fun id => mkParticipation id 0)
       (filter (fun id => negb (Set_has (Set_new (map kidId (Event.participants ev))) id))
          (map fst (filter (fun '(_, v) => v) (Object_entries sel))))) ev).
Proof.
  intros Hwf (Hnd & Hst & Hse). split; [| split; [| exact Hse]].
  - unfold Event.kidIds, confirmedWith. simpl. rewrite map_app, map_map. simpl.
    rewrite map_id. apply NoDup_app; [exact Hnd | |].
    + apply NoDup_filter. now apply ticked_keys_NoDup.
    + intros i Hi Hf. apply filter_In in Hf. destruct Hf as [_ Hf].
      apply negb_true_iff, Set_has_false in Hf. apply Hf, Set_new_In, Hi.
  - unfold confirmedWith. simpl. apply Forall_app. split; [exact Hst |].
    apply Forall_map, Forall_forall. intros i _. simpl. lia.
Qed.

Lemma confirmSuggested_events (now : Z) (st : AppState) (ev : Event.t) :
  activeEventForSuggest st = Some ev ->
  events (confirmSuggested now st)
  = map (fun e =>
      if String.eqb (Event.id e) (Event.id ev)
      then confirmedWith now
             (map (fun id => mkParticipation id 0)
                (filter (fun id =>
                   negb (Set_has (Set_new (map kidId (Event.participants ev))) id))
                   (map fst (filter (fun '(_, v) => v)
                      (Object_entries (suggestSelection st)))))) e
      else e) (events st)
  /\ kids (confirmSuggested now st) = kids st
  /\ tagCatalog (confirmSuggested now st) = tagCatalog st
  /\ suggestSelection (confirmSuggested now st) = suggestSelection st.
Proof.
  intros Hev. unfold confirmSuggested. rewrite Hev. destruct st. repeat split.
Qed.

Lemma mapTagCollections_stateOk (f : list string -> list string) (st : AppState) :
  (forall c, NoDup c -> NoDup (f c)) -> stateOk st -> stateOk (mapTagCollections f st).
Proof.
  intros Hf (Hev & Hk & [Hwf Hc] & Hsel). unfold stateOk. simpl.
  split; [| split; [| split; [| exact Hsel]]].
  - apply eventsOk_map; [assumption |]. intros e _. split; [reflexivity | auto].
  - apply NoDup_keys_mapped; [| assumption]. now intros k _.
  - split.
    + unfold obj_wf. rewrite map_map. exact Hwf.
    + apply Forall_map. eapply Forall_impl; [| exact Hc]. intros [c l]. simpl. apply Hf.
Qed.

Lemma renameTagEverywhere_stateOk (oldTag newTag : string) (st : AppState) :
  stateOk st -> stateOk (renameTagEverywhere oldTag newTag st).
Proof.
  intros Hok.
  destruct (String.eqb (clampStr oldTag) EmptyString) eqn:Eo;
    [unfold renameTagEverywhere; now rewrite Eo |].
  destruct (String.eqb (clampStr newTag) EmptyString) eqn:En;
    [unfold renameTagEverywhere; now rewrite Eo, En |].
  destruct (String.eqb (clampStr oldTag) (clampStr newTag)) eqn:Ee;
    [unfold renameTagEverywhere; now rewrite Eo, En, Ee |].
  apply String.eqb_neq in Eo, En, Ee.
  rewrite renameTagEverywhere_map; try assumption.
  - apply mapTagCollections_stateOk; [| assumption].
    intros c _. apply Set_new_NoDup.
  - exact (proj1 (proj1 (proj2 (proj2 Hok)))).
Qed.

Lemma deleteTagEverywhere_stateOk (tag : string) (st : AppState) :
  stateOk st -> stateOk (deleteTagEverywhere tag st).
Proof.
  intros Hok.
  destruct (String.eqb (clampStr tag) EmptyString) eqn:E;
    [unfold deleteTagEverywhere; now rewrite E |].
  apply String.eqb_neq in E.
  rewrite deleteTagEverywhere_map; try assumption.
  - apply mapTagCollections_stateOk; [| assumption].
    intros c Hc. now apply NoDup_filter.
  - exact (proj1 (proj1 (proj2 (proj2 Hok)))).
Qed.

Lemma addCategory_ok (allow : bool) (pk : Picker) (catalog : JSObject (list string)) :
  catalogOk catalog -> catalogOk (snd (addCategory allow pk catalog)).
Proof.
  intros [Hwf Hnd]. unfold addCategory.
  destruct (negb allow); [now split |].
  destruct (String.eqb _ EmptyString); [now split |]. simpl.
  destruct (obj_read_cases catalog (clampStr (newCategory pk)))
    as [(l & _ & ->) | [(_ & _ & ->) | (_ & _ & ->)]]; [now split | now split |].
  split; [now apply obj_set_wf | apply obj_set_Forall; [assumption | constructor]].
Qed.

Lemma addTagToCategory_ok (allow canSelect : bool) (pk pk' : Picker)
  (catalog catalog' : JSObject (list string)) (sel sel' : list string) :
  addTagToCategory allow canSelect pk catalog sel = Some (pk', catalog', sel') ->
  catalogOk catalog -> catalogOk catalog'.
Proof.
  unfold addTagToCategory. intros E Hok.
  destruct (negb allow); [injection E as _ <- _; exact Hok |].
  destruct (_ || _); [injection E as _ <- _; exact Hok |]. cbv zeta in E.
  destruct (obj_read_cases catalog (activeCategory pk))
    as [(l & Hget & R) | [(_ & _ & R) | (Hget & _ & R)]]; rewrite R in E.
  - injection E as _ <- _.
    exact (proj1 (catalog_with_tag catalog _ _ l Hok (or_introl Hget))).
  - discriminate E.
  - injection E as _ <- _.
    exact (proj1 (catalog_with_tag catalog _ _ [] Hok (or_intror (conj Hget eq_refl)))).
Qed.

Lemma stateOk_set_tagCatalog (f : JSObject (list string) -> JSObject (list string))
  (st : AppState) :
  stateOk st -> catalogOk (f (tagCatalog st)) -> stateOk (set_tagCatalog f st).
Proof. destruct st. unfold stateOk. simpl. tauto. Qed.

Lemma stateOk_set_events (f : list Event.t -> list Event.t) (st : AppState) :
  stateOk st -> eventsOk (f (events st)) -> stateOk (set_events f st).
Proof. destruct st. unfold stateOk. simpl. tauto. Qed.

Lemma stateOk_set_kids (f : list Kid.t -> list Kid.t) (st : AppState) :
  stateOk st -> NoDup (map Kid.id (f (kids st))) -> stateOk (set_kids f st).
Proof. destruct st. unfold stateOk. simpl. tauto. Qed.

Lemma stateOk_set_suggestSelection (f : JSObject bool -> JSObject bool) (st : AppState) :
  stateOk st -> obj_wf (f (suggestSelection st)) -> stateOk (set_suggestSelection f st).
Proof. destruct st. unfold stateOk. simpl. tauto. Qed.

Lemma stateOk_same_cells (st st' : AppState) :
  events st' = events st -> kids st' = kids st ->
  tagCatalog st' = tagCatalog st -> suggestSelection st' = suggestSelection st ->
  stateOk st -> stateOk st'.
Proof. unfold stateOk. now intros -> -> -> ->. Qed.

Lemma selectAll_wf (l : list Scored) (acc : JSObject bool) :
  obj_wf acc ->
  obj_wf (fold_left (fun n x => if 0 <? score x then obj_set (Kid.id (kid x)) true n else n)
            l acc).
Proof.
  revert acc. induction l as [| x l IH]; intros acc H; simpl; [assumption |].
  apply IH. destruct (0 <? score x); [now apply obj_set_wf | assumption].
Qed.

Lemma obj_wf_empty {V} : obj_wf (@nil (string * V)).
Proof. constructor. Qed.

Lemma step_stateOk (combineDateTime : string -> string -> option Z)
  (lc : string -> string -> Z) (st st' : AppState) :
  step combineDateTime lc st st' -> stateOk st -> stateOk st'.
Proof.
  intros Hstep Hok. pose proof Hok as (Hev & Hk & Hc & Hsel).
  destruct Hstep.
  - apply stateOk_set_tagCatalog; [assumption | now apply addCategory_ok].
  - apply stateOk_set_tagCatalog; [assumption |].
    exact (addTagToCategory_ok _ _ _ _ _ _ _ _ H Hc).
  - unfold askRenameTag. destruct (negb allow); [assumption |].
    destruct next as [next |]; [| assumption].
    destruct (_ || _); [assumption | now apply renameTagEverywhere_stateOk].
  - unfold askDeleteTag. destruct (negb allow); [assumption |].
    destruct (negb confirmed); [assumption | now apply deleteTagEverywhere_stateOk].
  - unfold addKid. destruct (String.eqb _ EmptyString); [assumption |].
    eapply stateOk_same_cells;
      [| | | | apply (stateOk_set_kids
                        (fun prev => prev ++ [Kid.mk uuid (clampStr (newKidName st))
                                                (newKidTags st) now]) st Hok)].
    + now destruct st.
    + now destruct st.
    + now destruct st.
    + now destruct st.
    + now apply NoDup_keys_added.
  - unfold renameKid. destruct (kidById_get _ _); [| assumption].
    destruct next as [next |]; [| assumption].
    destruct (String.eqb _ EmptyString); [assumption |].
    apply stateOk_set_kids; [assumption |].
    apply NoDup_keys_mapped; [| assumption]. intros k _.
    now destruct (String.eqb (Kid.id k) i).
  - unfold deleteKid. destruct (kidById_get _ _); [| assumption].
    destruct (negb confirmed); [assumption |].
    apply stateOk_set_events.
    + eapply stateOk_same_cells;
        [| | | | apply (stateOk_set_kids
                          (filter (fun k => negb (String.eqb (Kid.id k) i))) st Hok)].
      * now destruct st.
      * now destruct st.
      * now destruct st.
      * now destruct st.
      * now apply NoDup_keys_kept.
    + replace (events _) with (events st) by now destruct st.
      apply eventsOk_map; [assumption |]. intros e _. split; [reflexivity |].
      apply eventOk_without.
  - unfold saveEditKidTags. destruct (editKidId st) as [j |]; [| assumption].
    destruct (String.eqb j EmptyString); [assumption |].
    eapply stateOk_same_cells;
      [| | | | apply (stateOk_set_kids
                        (map (fun k => if String.eqb (Kid.id k) j
                                       then Kid_with_tags (fun _ => editKidTags st) k
                                       else k)) st Hok)].
    + now destruct st.
    + now destruct st.
    + now destruct st.
    + now destruct st.
    + apply NoDup_keys_mapped; [| assumption]. intros k _.
      now destruct (String.eqb (Kid.id k) j).
  - unfold createEvent in H0.
    destruct (String.eqb _ EmptyString); [injection H0 as <- _; assumption |].
    cbv zeta in H0.
    destruct (combineDateTime _ _) as [s |]; [| discriminate].
    destruct (combineDateTime _ _) as [e |]; [| discriminate].
    destruct (Z.leb_spec e s) as [Hse | Hse]; rewrite Z.geb_leb in H0.
    + replace (e <=? s) with true in H0 by (symmetry; apply Z.leb_le; lia).
      injection H0 as <- _. assumption.
    + replace (e <=? s) with false in H0 by (symmetry; apply Z.leb_gt; lia).
      injection H0 as <- _.
      assert (Hnew : eventsOk (events st
                 ++ [Event.mk uuid (clampStr (evTitle st)) s e (evTags st) [] None []])).
      { apply eventsOk_added; [assumption | | assumption].
        split; [constructor | split; [constructor | exact Hse]]. }
      destruct st. unfold stateOk in *. simpl in *.
      split; [exact Hnew |]. split; [assumption |]. split; [assumption | constructor].
  - unfold deleteEvent. destruct (negb confirmed); [assumption |].
    assert (Hd : stateOk (set_events
                   (filter (fun e => negb (String.eqb (Event.id e) i))) st)).
    { apply stateOk_set_events; [assumption | now apply eventsOk_filter]. }
    replace (activeEventIdForDetail st) with
      (activeEventIdForDetail
         (set_events (filter (fun e => negb (String.eqb (Event.id e) i))) st))
      by now destruct st.
    destruct (activeEventIdForDetail _) as [j |]; [| assumption].
    destruct (String.eqb j i); [| assumption].
    eapply stateOk_same_cells; [| | | | exact Hd]; now destruct st.
  - unfold saveEditEventTags. destruct (editEventId st) as [j |]; [| assumption].
    destruct (String.eqb j EmptyString); [assumption |].
    eapply stateOk_same_cells;
      [| | | | apply (stateOk_set_events
                        (map (fun e => if String.eqb (Event.id e) j
                                       then Event.with_tags (fun _ => editEventTags st) e
                                       else e)) st Hok)].
    + now destruct st.
    + now destruct st.
    + now destruct st.
    + now destruct st.
    + apply eventsOk_map; [assumption |]. intros e _.
      destruct (String.eqb (Event.id e) j); split; auto.
  - unfold saveEditEventInfo in H.
    destruct (editInfoEventId form) as [j |]; [| injection H as <- _ _; assumption].
    destruct (String.eqb j EmptyString); [injection H as <- _ _; assumption |].
    destruct (String.eqb _ EmptyString); [injection H as <- _ _; assumption |].
    cbv zeta in H.
    destruct (combineDateTime _ _) as [s |]; [| discriminate].
    destruct (combineDateTime _ _) as [e |]; [| discriminate].
    destruct (Z.leb_spec e s) as [Hse | Hse]; rewrite Z.geb_leb in H.
    + replace (e <=? s) with true in H by (symmetry; apply Z.leb_le; lia).
      injection H as <- _ _. assumption.
    + replace (e <=? s) with false in H by (symmetry; apply Z.leb_gt; lia).
      injection H as <- _ _.
      apply stateOk_set_events; [assumption |].
      apply eventsOk_map; [assumption |]. intros ev _.
      destruct (String.eqb (Event.id ev) j); split; auto.
      intros (Hnd & Hst & _). repeat split; assumption.
  - unfold openSuggestForEvent.
    apply stateOk_set_suggestSelection; [| constructor].
    eapply stateOk_same_cells; [| | | | exact Hok]; now destruct st.
  - unfold toggleSuggestPick.
    apply stateOk_set_suggestSelection; [assumption | now apply obj_set_wf].
  - unfold selectAllMatchGt0.
    apply stateOk_set_suggestSelection; [assumption |]. apply selectAll_wf. constructor.
  - unfold clearSuggestSelection.
    apply stateOk_set_suggestSelection; [assumption | constructor].
  - unfold setSuggestNote. destruct (activeEventForSuggest st) as [active |]; [| assumption].
    destruct note as [note |]; [| assumption].
    apply stateOk_set_events; [assumption |].
    apply eventsOk_map; [assumption |]. intros ev _.
    destruct (String.eqb (Event.id ev) (Event.id active)); split; auto.
  - destruct (activeEventForSuggest st) as [ev |] eqn:Hact.
    + destruct (confirmSuggested_events now st ev Hact) as (He & Hks & Hcat & Hs).
      unfold stateOk. rewrite He, Hks, Hcat, Hs.
      split; [| split; [| split]]; try assumption.
      apply eventsOk_map; [assumption |]. intros e Hin.
      destruct (String.eqb_spec (Event.id e) (Event.id ev)) as [Hid | Hid];
        [| split; auto].
      split; [reflexivity |]. intros He'.
      assert (e = ev).
      { apply (unique_id_same (events st)); try assumption.
        - exact (proj1 Hev).
        - exact (proj2 (activeEventForSuggest_id st ev Hact)). }
      subst e. now apply eventOk_confirmed.
    + unfold confirmSuggested. now rewrite Hact.
  - rewrite cycleParticipantStatus_events.
    apply stateOk_set_events; [assumption |].
    apply eventsOk_map; [assumption |]. intros e _. split.
    + unfold cycleEvent. now destruct (negb _).
    + apply eventOk_cycleEvent.
  - unfold removeParticipant.
    apply stateOk_set_events; [assumption |].
    apply eventsOk_map; [assumption |]. intros e _.
    destruct (String.eqb (Event.id e) eventId); split; auto.
    apply eventOk_without.
  - eapply stateOk_same_cells; eassumption.
Qed.

Lemma initialState_stateOk (today : string) : stateOk (initialState today).
Proof.
  split; [split; constructor |]. split; [constructor |].
  split; [exact initialCatalog_ok | constructor].
Qed.

(** Every state reached from the initial one through the handlers, for as
    long as every event is created and saved with dates that the host reads,
    keeps the data in good order: event ids are distinct and so are kid ids,
    no event has a kid assigned twice, every status is one of the three
    steps, every event starts before it ends, the catalog has no category
    twice and no tag twice in a category, and the selection of the
    suggestion dialog is a well-formed object. *)
Theorem reachable_stateOk (combineDateTime : string -> string -> option Z)
  (lc : string -> string -> Z) (today : string) (st : AppState) :
  reachable combineDateTime lc today st -> stateOk st.
Proof.
  induction 1 as [| st st' _ IH Hstep].
  - apply initialState_stateOk.
  - exact (step_stateOk combineDateTime lc st st' Hstep IH).
Qed.

(** The run of the example: what is typed goes through the rule of the
    other cells, the rest through the handlers. *)
Lemma reachable_stateOk_witness : stateOk campConfirmed.
Proof.
  apply (reachable_stateOk readFormDate codeUnitCompare "2024-01-01").
  unfold campConfirmed.
  eapply reachable_step; [| apply step_confirmSuggested].
  eapply reachable_step; [| apply step_toggleSuggestPick].
  apply (reachable_step _ _ _ eventTyped).
  2:{ apply (step_createEvent _ _ "e1" eventTyped eventCreated None);
        [simpl; tauto | reflexivity]. }
  apply (reachable_step _ _ _ kidAdded).
  2:{ apply step_otherCells; reflexivity. }
  apply (reachable_step _ _ _ kidTyped).
  2:{ apply step_addKid. simpl. tauto. }
  apply (reachable_step _ _ _ (initialState "2024-01-01")).
  - apply reachable_initial.
  - apply step_otherCells; reflexivity.
Defined.

Example campConfirmed_data :
  kids campConfirmed = [Kid.mk "k1" "P1" ["online"] 100]
  /\ events campConfirmed
     = [Event.mk "e1" "Camp" 0 86400000 ["online"] [mkParticipation "k1" 0]
          (Some 1000) []].
Proof. split; reflexivity. Qed.
